(** * ReFast launcher: result aggregation, display window, debounce,
      keyboard navigation and URL detection

    A shallow embedding of
      - src/components/EverythingSearchWindow.tsx  (modules [ESW], [ESWView])
      - src/components/LauncherWindow.tsx          (modules [Urls], [Launcher],
                                                    [LauncherView], [Paste])
      - src/utils/keyboardUtils.ts                 (modules [Keyboard],
                                                    [SearchUtils])
    over JavaScript strings and arrays (modules [JS], [JSArray]) and a
    backtracking matcher for the regular expressions of the sources
    (module [Regex]), followed by the vocabulary of the properties
    (module [Props]) and the properties themselves.

    Components are modelled as state machines: a record for the React
    state and refs, one function per handler, and an event type whose
    constructors are the ways the event loop enters the component (a
    change of the input, the passing of time, a batch event, the
    settlement of an awaited call, a key press, a scroll). A handler
    sees the state of the moment it runs. *)

From Stdlib Require Import Ascii String DecimalString.
From Stdlib Require Import List ZArith NArith Bool Lia Arith.
From Stdlib Require Import Sorted Permutation.
Import ListNotations.

(* ===================================================================== *)
(** ** JavaScript strings *)
(* ===================================================================== *)

Module JS.

(** A JavaScript string is a sequence of UTF-16 code units. *)
Definition jsstring := list N.

Definition jsstring_eq_dec : forall a b : jsstring, {a = b} + {a <> b} :=
  list_eq_dec N.eq_dec.

Definition eqb (a b : jsstring) : bool :=
  if jsstring_eq_dec a b then true else false.

(** Literals: an ASCII text as a sequence of code units. *)
Definition str (s : string) : jsstring :=
  map N_of_ascii (list_ascii_of_string s).

Definition chr (a : ascii) : N := N_of_ascii a.

(** WhiteSpace and LineTerminator code units: the set stripped by
    [String.prototype.trim] and matched by the regular expression
    class [\s]. *)
Definition isWhiteSpace (c : N) : bool :=
  ((9 <=? c) && (c <=? 13)            (* TAB LF VT FF CR *)
   || (c =? 32)                        (* SPACE *)
   || (c =? 160)                       (* NBSP *)
   || (c =? 5760)                      (* U+1680 *)
   || ((8192 <=? c) && (c <=? 8202))   (* U+2000 .. U+200A *)
   || (c =? 8232) || (c =? 8233)       (* LS PS *)
   || (c =? 8239) || (c =? 8287)       (* U+202F U+205F *)
   || (c =? 12288)                     (* U+3000 *)
   || (c =? 65279))%N.                 (* ZWNBSP / BOM *)

Fixpoint trimStart (s : jsstring) : jsstring :=
  match s with
  | c :: tl => if isWhiteSpace c then trimStart tl else s
  | [] => []
  end.

Definition trimEnd (s : jsstring) : jsstring := rev (trimStart (rev s)).

(** [s.trim()] *)
Definition trim (s : jsstring) : jsstring := trimEnd (trimStart s).

(** [s.startsWith(p)] *)
Fixpoint startsWith (p s : jsstring) : bool :=
  match p, s with
  | [], _ => true
  | a :: p', b :: s' => (a =? b)%N && startsWith p' s'
  | _ :: _, [] => false
  end.

(** [s.includes(p)] *)
Fixpoint includes (p s : jsstring) : bool :=
  startsWith p s ||
  match s with
  | [] => false
  | _ :: tl => includes p tl
  end.

(** ASCII upper- and lower-casing of one code unit; every other code unit
    is left alone. *)
Definition upperAscii (c : N) : N :=
  if ((97 <=? c) && (c <=? 122))%N then (c - 32)%N else c.

Definition lowerAscii (c : N) : N :=
  if ((65 <=? c) && (c <=? 90))%N then (c + 32)%N else c.

(** [self.indexOf(x)] on an array of strings, [None] standing for -1. *)
Fixpoint indexOf (x : jsstring) (l : list jsstring) : option nat :=
  match l with
  | [] => None
  | y :: tl =>
      if eqb y x then Some 0
      else match indexOf x tl with
           | Some i => Some (S i)
           | None => None
           end
  end.

(** [l.filter((x, index, self) => self.indexOf(x) === index)] *)
Definition filterFirstIndex (l : list jsstring) : list jsstring :=
  map snd
      (filter (fun ix => match indexOf (snd ix) l with
                         | Some j => Nat.eqb j (fst ix)
                         | None => false
                         end)
              (combine (seq 0 (length l)) l)).

End JS.

(* ===================================================================== *)
(** ** Backtracking regular expressions (ECMAScript matching order) *)
(* ===================================================================== *)

Module Regex.
Import JS.

(** The fragment of the pattern language used by the sources. Character
    classes are predicates on code units; the [i] flag is part of the
    predicate (see [ci]). *)
Inductive re : Type :=
| Class (p : N -> bool)                      (* one code unit in a class *)
| Seq (a b : re)                             (* ab *)
| Alt (a b : re)                             (* a|b, left first *)
| Rep (lo : nat) (hi : option nat) (a : re)  (* greedy a{lo,hi} *)
| NotAhead (a : re)                          (* (?!a) *)
| Bol                                        (* ^ *)
| Eol                                        (* $ *)
| Empty.

(** A match state: the end index and the input that remains after it. *)
Record pos : Type := { idx : nat; rest : jsstring }.

Definition cont := pos -> option pos.

(** RepeatMatcher of the language definition, greedy case. An iteration
    that consumes nothing once the minimum is reached is rejected, so
    every unfolding either lowers [lo] or advances in the input:
    [lo + length (rest x) + 1] unfoldings always suffice, which is the
    fuel [matcher] passes. *)
Fixpoint repeatMatcher (fuel : nat) (m : pos -> cont -> option pos)
  (lo : nat) (hi : option nat) (x : pos) (c : cont) : option pos :=
  match fuel with
  | O => None
  | S fuel' =>
      match hi with
      | Some O => c x
      | _ =>
          let d := fun y : pos =>
            if Nat.eqb lo 0 && Nat.eqb (idx y) (idx x) then None
            else repeatMatcher fuel' m (Nat.pred lo) (option_map Nat.pred hi) y c in
          match lo with
          | S _ => m x d
          | O => match m x d with
                 | Some z => Some z
                 | None => c x
                 end
          end
      end
  end.

Fixpoint matcher (r : re) (x : pos) (c : cont) : option pos :=
  match r with
  | Class p =>
      match rest x with
      | ch :: tl => if p ch then c {| idx := S (idx x); rest := tl |} else None
      | [] => None
      end
  | Seq a b => matcher a x (fun y => matcher b y c)
  | Alt a b =>
      match matcher a x c with
      | Some z => Some z
      | None => matcher b x c
      end
  | Rep lo hi a =>
      repeatMatcher (lo + length (rest x) + 1) (matcher a) lo hi x c
  | NotAhead a =>
      match matcher a x Some with
      | Some _ => None
      | None => c x
      end
  | Bol => if Nat.eqb (idx x) 0 then c x else None
  | Eol => match rest x with
           | [] => c x
           | _ :: _ => None
           end
  | Empty => c x
  end.

(** RegExpBuiltinExec without the sticky flag: the leftmost start index
    at or after [i] where the pattern matches; [s] is the input from
    index [i] on. Returns the start index and the end state. *)
Fixpoint exec (r : re) (i : nat) (s : jsstring) : option (nat * pos) :=
  match matcher r {| idx := i; rest := s |} Some with
  | Some e => Some (i, e)
  | None =>
      match s with
      | [] => None
      | _ :: tl => exec r (S i) tl
      end
  end.

(** [re.test(s)], also the truth value of [s.match(re)] without [g]. *)
Definition test (r : re) (s : jsstring) : bool :=
  match exec r 0 s with
  | Some _ => true
  | None => false
  end.

(** The successive matches of [s.match(re)] with the [g] flag: [i] is
    lastIndex, [s] the input from [i] on. After an empty match lastIndex
    moves one code unit forward. Every round advances, so
    [length s + 1] rounds suffice. *)
Fixpoint matchesFrom (fuel : nat) (r : re) (i : nat) (s : jsstring)
  : list jsstring :=
  match fuel with
  | O => []
  | S fuel' =>
      match exec r i s with
      | None => []
      | Some (st, e) =>
          let from_st := skipn (st - i) s in
          let matched := firstn (idx e - st) from_st in
          if Nat.eqb (idx e) st
          then matched ::
               match from_st with
               | [] => []
               | _ :: tl => matchesFrom fuel' r (S st) tl
               end
          else matched :: matchesFrom fuel' r (idx e) (rest e)
      end
  end.

(** [s.match(re)] with the [g] flag: [None] is JavaScript's null. *)
Definition matchGlobal (r : re) (s : jsstring) : option (list jsstring) :=
  match matchesFrom (length s + 1) r 0 s with
  | [] => None
  | l => Some l
  end.

(** [s.replace(re, '')] without the [g] flag: the first match is cut out. *)
Definition replaceFirstWithEmpty (r : re) (s : jsstring) : jsstring :=
  match exec r 0 s with
  | None => s
  | Some (st, e) => firstn st s ++ rest e
  end.

(** *** Pattern building blocks *)

Fixpoint cat (l : list re) : re :=
  match l with
  | [] => Empty
  | [a] => a
  | a :: tl => Seq a (cat tl)
  end.

(** A literal character, case-sensitive. *)
Definition lit (a : ascii) : re := Class (N.eqb (chr a)).

(** A literal ASCII character under the [i] flag. Canonicalize maps a code
    unit to its upper case unless that would turn a non-ASCII code unit
    into an ASCII one, so an ASCII letter of the pattern is matched by its
    two ASCII cases only. *)
Definition ci (a : ascii) : re :=
  Class (fun c => (upperAscii c =? upperAscii (chr a))%N).

Definition inRange (lo hi : ascii) (c : N) : bool :=
  ((chr lo <=? c) && (c <=? chr hi))%N.

(** [[a-zA-Z0-9]] *)
Definition alnum (c : N) : bool :=
  inRange "a" "z" c || inRange "A" "Z" c || inRange "0" "9" c.

(** [[a-zA-Z0-9-]] *)
Definition alnumDash (c : N) : bool := alnum c || (c =? chr "-")%N.

(** [[a-zA-Z]] *)
Definition alpha (c : N) : bool := inRange "a" "z" c || inRange "A" "Z" c.

(** The class of neither white space nor one of <, >, double quote and
    single quote: the negated class of the URL pattern. *)
Definition urlChar (c : N) : bool :=
  negb (isWhiteSpace c || (c =? chr "<") || (c =? chr ">")
        || (c =? 34) || (c =? chr "'"))%N.

Definition plus (a : re) : re := Rep 1 None a.
Definition star (a : re) : re := Rep 0 None a.
Definition opt (a : re) : re := Rep 0 (Some 1) a.

End Regex.

(* ===================================================================== *)
(** ** URL detection: [extractUrls] of LauncherWindow.tsx *)
(* ===================================================================== *)

Module Urls.
Import JS Regex.

(** [https?:\/\/] with the [i] flag *)
Definition schemeRe : re :=
  cat [ci "h"; ci "t"; ci "t"; ci "p"; opt (ci "s"); lit ":"; lit "/"; lit "/"].

(** [[a-zA-Z0-9][a-zA-Z0-9-]{0,61}[a-zA-Z0-9]?\.[a-zA-Z]{2,}]; the
    classes already hold both cases, so the [i] flag changes nothing. *)
Definition domainRe : re :=
  cat [Class alnum; Rep 0 (Some 61) (Class alnumDash); opt (Class alnum);
       lit "."; Rep 2 None (Class alpha)].

(** The pattern of [extractUrls], flags [gi]; with U for the negated
    class [urlChar] it reads
    [https?:\/\/U+ | www\.U+ | D U*], where D is the domain pattern
    [domainRe]. *)
Definition urlPattern : re :=
  Alt (Seq schemeRe (plus (Class urlChar)))
      (Alt (cat [ci "w"; ci "w"; ci "w"; lit "."; plus (Class urlChar)])
           (Seq domainRe (star (Class urlChar)))).

(** [[.,;:!?]] and [[\/?#&=]] *)
Definition trailingPunct (c : N) : bool :=
  ((c =? chr ".") || (c =? chr ",") || (c =? chr ";") || (c =? chr ":")
   || (c =? chr "!") || (c =? chr "?"))%N.

Definition urlDelim (c : N) : bool :=
  ((c =? chr "/") || (c =? chr "?") || (c =? chr "#") || (c =? chr "&")
   || (c =? chr "="))%N.

(** [/[.,;:!?]+(?![\/?#&=])$/] *)
Definition trailingRe : re :=
  cat [plus (Class trailingPunct); NotAhead (Class urlDelim); Eol].

(** [/^https?:\/\//i] *)
Definition hasSchemeRe : re := Seq Bol schemeRe.

(** [/^[a-zA-Z0-9][a-zA-Z0-9-]{0,61}[a-zA-Z0-9]?\.[a-zA-Z]{2,}/] *)
Definition looksLikeDomainRe : re := Seq Bol domainRe.

Definition httpsPrefix : jsstring := str "https://".

(** The callback of [matches.map(...)]; [None] is the callback's null. *)
Definition normalizeUrl (url0 : jsstring) : option jsstring :=
  let url := trim url0 in
  let url := replaceFirstWithEmpty trailingRe url in
  if negb (test hasSchemeRe url) then
    if startsWith (str "www.") url then Some (httpsPrefix ++ url)
    else if test looksLikeDomainRe url then Some (httpsPrefix ++ url)
    else None
  else Some url.

(** [.filter((url): url is string => url !== null && url.length > 0)] *)
Fixpoint dropNullAndEmpty (l : list (option jsstring)) : list jsstring :=
  match l with
  | [] => []
  | Some (c :: u) :: tl => (c :: u) :: dropNullAndEmpty tl
  | _ :: tl => dropNullAndEmpty tl
  end.

Definition extractUrls (text : jsstring) : list jsstring :=
  if match text with [] => true | _ => false end
     || Nat.eqb (length (trim text)) 0
  then []
  else
    match matchGlobal urlPattern text with
    | None => []
    | Some matches =>
        filterFirstIndex (dropNullAndEmpty (map normalizeUrl matches))
    end.

End Urls.

(* ===================================================================== *)
(** ** Data shared by the two disk-search front ends *)
(* ===================================================================== *)

Module Everything.
Import JS.

(** [EverythingResult] of ../types; the sources read [path], [name] and
    the optional [size]. *)
Record EverythingResult : Type :=
  { path : jsstring; name : jsstring; size : option Z }.

(** The value the awaited [tauriApi.searchEverything] resolves with. *)
Record SearchResponse : Type :=
  { results : list EverythingResult; total_count : Z }.

(** The payload of an [everything-search-batch] event. *)
Record BatchPayload : Type :=
  { batch_results : list EverythingResult;
    batch_total_count : Z;
    batch_current_count : Z }.

(** The object [{ query, cancelled }] held in [currentSearchRef]. *)
Record SearchRequest : Type :=
  { query : jsstring; cancelled : bool }.

(** The value [tauriApi.getEverythingStatus] resolves with. *)
Record Status : Type :=
  { available : bool; error : option jsstring }.

(** [status.error || null]: undefined and the empty string give null. *)
Definition errorOrNull (st : Status) : option jsstring :=
  match error st with
  | Some (c :: e) => Some (c :: e)
  | _ => None
  end.

(** Request objects live in a store and are referred to by their index,
    so that an object stays reachable (and can be inspected) after
    [currentSearchRef] has moved on to a newer one. *)
Definition store := list SearchRequest.

Fixpoint updateAt (i : nat) (f : SearchRequest -> SearchRequest)
  (h : store) : store :=
  match h, i with
  | [], _ => []
  | r :: tl, O => f r :: tl
  | r :: tl, S j => r :: updateAt j f tl
  end.

(** [ref.cancelled = true] on the object at index [i]. *)
Definition cancel (i : nat) (h : store) : store :=
  updateAt i (fun r => {| query := query r; cancelled := true |}) h.

(** [currentSearchRef.current], dereferenced. *)
Definition deref (h : store) (ref : option nat) : option SearchRequest :=
  match ref with
  | Some i => nth_error h i
  | None => None
  end.

(** [currentSearchRef.current?.cancelled], as a truth value. *)
Definition refCancelled (h : store) (ref : option nat) : bool :=
  match deref h ref with
  | Some r => cancelled r
  | None => false
  end.

(** [currentSearchRef.current?.query === searchQuery] *)
Definition refQueryIs (h : store) (ref : option nat) (q : jsstring) : bool :=
  match deref h ref with
  | Some r => eqb (query r) q
  | None => false
  end.

(** [set.has(p)] for a set of paths kept as the list of its members. *)
Definition has (p : jsstring) (seen : list jsstring) : bool :=
  existsb (eqb p) seen.

(** De-duplication by path as the specification words it: the first
    occurrence of a path wins and every later result with that path is
    dropped. *)
Fixpoint dedupByPathFirstWins (l : list EverythingResult)
  : list EverythingResult :=
  match l with
  | [] => []
  | r :: tl =>
      r :: filter (fun x => negb (eqb (path x) (path r)))
                  (dedupByPathFirstWins tl)
  end.

End Everything.

(* ===================================================================== *)
(** ** EverythingSearchWindow.tsx *)
(* ===================================================================== *)

Module ESW.
Import JS Everything.

(** The pending [setTimeout]: the query its callback was created with and
    the milliseconds left until it fires. *)
Record Timer : Type := { timerQuery : jsstring; remaining : Z }.

(** Component state, refs, the pending timer, and two logs: the queries the
    timer callback ran with and the queries handed to
    [tauriApi.searchEverything], oldest first. *)
Record State : Type :=
  { queryText : jsstring;
    items : list EverythingResult;        (* results *)
    totalCount : option Z;
    currentCount : Z;
    isSearching : bool;
    isEverythingAvailable : bool;
    everythingError : option jsstring;
    requests : store;
    currentSearchRef : option nat;
    timer : option Timer;
    fired : list jsstring;
    calls : list jsstring }.

Definition init : State :=
  {| queryText := []; items := []; totalCount := None; currentCount := 0;
     isSearching := false; isEverythingAvailable := false;
     everythingError := None; requests := []; currentSearchRef := None;
     timer := None; fired := []; calls := [] |}.

(** [setResults(r); setTotalCount(t); setCurrentCount(c)] *)
Definition setResultState (r : list EverythingResult) (t : option Z) (c : Z)
  (s : State) : State :=
  {| queryText := queryText s; items := r; totalCount := t; currentCount := c;
     isSearching := isSearching s;
     isEverythingAvailable := isEverythingAvailable s;
     everythingError := everythingError s; requests := requests s;
     currentSearchRef := currentSearchRef s; timer := timer s;
     fired := fired s; calls := calls s |}.

Definition setIsSearching (b : bool) (s : State) : State :=
  {| queryText := queryText s; items := items s; totalCount := totalCount s;
     currentCount := currentCount s; isSearching := b;
     isEverythingAvailable := isEverythingAvailable s;
     everythingError := everythingError s; requests := requests s;
     currentSearchRef := currentSearchRef s; timer := timer s;
     fired := fired s; calls := calls s |}.

Definition setRefs (h : store) (ref : option nat) (s : State) : State :=
  {| queryText := queryText s; items := items s; totalCount := totalCount s;
     currentCount := currentCount s; isSearching := isSearching s;
     isEverythingAvailable := isEverythingAvailable s;
     everythingError := everythingError s; requests := h;
     currentSearchRef := ref; timer := timer s;
     fired := fired s; calls := calls s |}.

Definition setTimer (t : option Timer) (s : State) : State :=
  {| queryText := queryText s; items := items s; totalCount := totalCount s;
     currentCount := currentCount s; isSearching := isSearching s;
     isEverythingAvailable := isEverythingAvailable s;
     everythingError := everythingError s; requests := requests s;
     currentSearchRef := currentSearchRef s; timer := t;
     fired := fired s; calls := calls s |}.

Definition setQueryText (q : jsstring) (s : State) : State :=
  {| queryText := q; items := items s; totalCount := totalCount s;
     currentCount := currentCount s; isSearching := isSearching s;
     isEverythingAvailable := isEverythingAvailable s;
     everythingError := everythingError s; requests := requests s;
     currentSearchRef := currentSearchRef s; timer := timer s;
     fired := fired s; calls := calls s |}.

Definition setStatus (a : bool) (e : option jsstring) (s : State) : State :=
  {| queryText := queryText s; items := items s; totalCount := totalCount s;
     currentCount := currentCount s; isSearching := isSearching s;
     isEverythingAvailable := a; everythingError := e;
     requests := requests s; currentSearchRef := currentSearchRef s;
     timer := timer s; fired := fired s; calls := calls s |}.

Definition logFired (q : jsstring) (s : State) : State :=
  {| queryText := queryText s; items := items s; totalCount := totalCount s;
     currentCount := currentCount s; isSearching := isSearching s;
     isEverythingAvailable := isEverythingAvailable s;
     everythingError := everythingError s; requests := requests s;
     currentSearchRef := currentSearchRef s; timer := timer s;
     fired := fired s ++ [q]; calls := calls s |}.

Definition logCall (q : jsstring) (s : State) : State :=
  {| queryText := queryText s; items := items s; totalCount := totalCount s;
     currentCount := currentCount s; isSearching := isSearching s;
     isEverythingAvailable := isEverythingAvailable s;
     everythingError := everythingError s; requests := requests s;
     currentSearchRef := currentSearchRef s; timer := timer s;
     fired := fired s; calls := calls s ++ [q] |}.

Definition currentCancelled (s : State) : bool :=
  refCancelled (requests s) (currentSearchRef s).

Definition currentQueryIs (q : jsstring) (s : State) : bool :=
  refQueryIs (requests s) (currentSearchRef s) q.

(** The updater passed to [setResults] by the batch listener:
    [prev => [...prev, ...batch.filter(r => !seenPaths.has(r.path))]]
    with [seenPaths = new Set(prev.map(r => r.path))]. *)
Definition mergeBatch (prev batch : list EverythingResult)
  : list EverythingResult :=
  let seenPaths := map path prev in
  prev ++ filter (fun r => negb (has (path r) seenPaths)) batch.

(** The [everything-search-batch] listener. *)
Definition onBatch (p : BatchPayload) (s : State) : State :=
  if currentCancelled s then s
  else setResultState (mergeBatch (items s) (batch_results p))
                      (Some (batch_total_count p)) (batch_current_count p) s.

(** The loop that de-duplicates the final response:
    [seenPaths] is the Map's key set, [uniqueResults] the array built. *)
Definition dedupStep (acc : list jsstring * list EverythingResult)
  (result : EverythingResult) : list jsstring * list EverythingResult :=
  let (seenPaths, uniqueResults) := acc in
  if negb (has (path result) seenPaths)
  then (seenPaths ++ [path result], uniqueResults ++ [result])
  else acc.

Definition uniqueResults (rs : list EverythingResult) : list EverythingResult :=
  snd (fold_left dedupStep rs ([], [])).

(** The [finally] block of [searchEverything]. *)
Definition finallyBlock (searchQuery : jsstring) (s : State) : State :=
  if currentQueryIs searchQuery s && negb (currentCancelled s)
  then setIsSearching false s
  else s.

(** [searchEverything(searchQuery)] up to its [await]. *)
Definition searchEverything (searchQuery : jsstring) (s : State) : State :=
  if match searchQuery with [] => true | _ => false end
     || eqb (trim searchQuery) []
  then
    let s := setIsSearching false (setResultState [] None 0 s) in
    match currentSearchRef s with
    | Some i => setRefs (cancel i (requests s)) None s
    | None => s
    end
  else if negb (isEverythingAvailable s)
  then setIsSearching false (setResultState [] None 0 s)
  else if currentQueryIs searchQuery s
  then s                                              (* same query: skip *)
  else
    let h := match currentSearchRef s with
             | Some i => cancel i (requests s)
             | None => requests s
             end in
    let searchRequest := {| query := searchQuery; cancelled := false |} in
    let s := setRefs (h ++ [searchRequest]) (Some (length h)) s in
    let s := setIsSearching true (setResultState [] None 0 s) in
    logCall searchQuery s.

(** The continuation of the call made for [searchQuery] when the awaited
    promise resolves with [response]. *)
Definition searchResolved (searchQuery : jsstring) (response : SearchResponse)
  (s : State) : State :=
  if currentCancelled s || negb (currentQueryIs searchQuery s)
  then finallyBlock searchQuery s
  else
    let unique := uniqueResults (results response) in
    finallyBlock searchQuery
      (setResultState unique (Some (total_count response))
                      (Z.of_nat (length unique)) s).

(** Does the error text name a failure that calls for a status re-check? *)
Definition needsRecheck (errorStr : jsstring) : bool :=
  includes (str "NOT_INSTALLED") errorStr
  || includes (str "SERVICE_NOT_RUNNING") errorStr.

(** The continuation when the awaited promise rejects with an error whose
    string form is [errorStr]. When a re-check is due the handler awaits
    [getEverythingStatus] next and [statusRechecked] completes it. *)
Definition searchRejected (searchQuery errorStr : jsstring) (s : State)
  : State :=
  if currentCancelled s then finallyBlock searchQuery s
  else
    let s := setResultState [] None 0 s in
    if needsRecheck errorStr then s
    else finallyBlock searchQuery s.

(** The debounce effect: clean-up of the previous run, then the body. *)
Definition debounceMs : Z := 300.

Definition queryEffect (s : State) : State :=
  let s := setTimer None s in                          (* clearTimeout *)
  let trimmedQuery := trim (queryText s) in
  if eqb trimmedQuery []
  then setIsSearching false (setResultState [] None 0 s)
  else setTimer (Some {| timerQuery := trimmedQuery;
                         remaining := debounceMs |}) s.

(** [setIsEverythingAvailable(a); setEverythingError(e)] outside
    [searchEverything] (the check made on mount). A new value of
    [isEverythingAvailable] gives a new [searchEverything] callback, which
    is a dependency of the debounce effect, so the effect runs again. *)
Definition applyStatus (st : Status) (s : State) : State :=
  let changed := negb (Bool.eqb (available st) (isEverythingAvailable s)) in
  let s := setStatus (available st) (errorOrNull st) s in
  if changed then queryEffect s else s.

(** End of the [catch] block after the awaited status arrived, then the
    [finally] block, then the effect if the availability changed. *)
Definition statusRechecked (searchQuery : jsstring) (st : Status) (s : State)
  : State :=
  let changed := negb (Bool.eqb (available st) (isEverythingAvailable s)) in
  let s := finallyBlock searchQuery
             (setStatus (available st) (errorOrNull st) s) in
  if changed then queryEffect s else s.

(** The awaited status call rejects: the [catch] block is left by the
    exception and only the [finally] block runs. *)
Definition statusRecheckFailed (searchQuery : jsstring) (s : State) : State :=
  finallyBlock searchQuery s.

(** [onChange]: [setQuery(value)]; the effect runs when the value differs. *)
Definition onQueryChange (value : jsstring) (s : State) : State :=
  if eqb value (queryText s) then s
  else queryEffect (setQueryText value s).

(** [dt] milliseconds pass; a timer that is due runs its callback. *)
Definition elapse (dt : Z) (s : State) : State :=
  match timer s with
  | None => s
  | Some t =>
      if (remaining t <=? dt)%Z
      then searchEverything (timerQuery t)
             (logFired (timerQuery t) (setTimer None s))
      else setTimer (Some {| timerQuery := timerQuery t;
                             remaining := remaining t - dt |}) s
  end.

Inductive event : Type :=
| QueryChange (value : jsstring)
| Elapse (dt : Z)
| Batch (p : BatchPayload)
| Resolved (searchQuery : jsstring) (response : SearchResponse)
| Rejected (searchQuery errorStr : jsstring)
| StatusRechecked (searchQuery : jsstring) (st : Status)
| StatusRecheckFailed (searchQuery : jsstring)
| StatusChecked (st : Status).

Definition step (s : State) (e : event) : State :=
  match e with
  | QueryChange v => onQueryChange v s
  | Elapse dt => elapse dt s
  | Batch p => onBatch p s
  | Resolved q r => searchResolved q r s
  | Rejected q err => searchRejected q err s
  | StatusRechecked q st => statusRechecked q st s
  | StatusRecheckFailed q => statusRecheckFailed q s
  | StatusChecked st => applyStatus st s
  end.

Definition run (s : State) (es : list event) : State := fold_left step es s.

End ESW.

(* ===================================================================== *)
(** ** LauncherWindow.tsx: disk search, display window, debounce *)
(* ===================================================================== *)

Module Launcher.
Import JS Everything.

Definition MAX_DISPLAY_RESULTS : Z := 500.

Definition debounceMs : Z := 500.

(** The pending [setTimeout] of the query effect with what its callback
    closed over: [query] and [isEverythingAvailable] of that render. *)
Record Timer : Type :=
  { timerQuery : jsstring; timerAvailable : bool; remaining : Z }.

(** Calls to the search adapters. *)
Inductive call : Type :=
| AppsCall (q : jsstring)          (* searchApplications(query) *)
| FilesCall (q : jsstring)         (* searchFileHistory(query) *)
| EverythingCall (q : jsstring).   (* tauriApi.searchEverything(query) *)

(** The part of the component the disk search and its display window
    live in, with the pending timer and two logs: the queries the timer
    callback ran with and the adapter calls, oldest first. *)
Record State : Type :=
  { queryText : jsstring;
    everythingResults : list EverythingResult;
    everythingTotalCount : option Z;
    everythingCurrentCount : Z;
    displayedResultsCount : Z;
    isEverythingAvailable : bool;
    everythingError : option jsstring;
    isSearchingEverything : bool;
    detectedUrls : list jsstring;
    shouldPreserveScrollRef : bool;
    finalResultsSetRef : bool;
    requests : store;
    currentSearchRef : option nat;
    timer : option Timer;
    fired : list jsstring;
    calls : list call }.

Definition init : State :=
  {| queryText := []; everythingResults := []; everythingTotalCount := None;
     everythingCurrentCount := 0; displayedResultsCount := 500;
     isEverythingAvailable := false; everythingError := None;
     isSearchingEverything := false; detectedUrls := [];
     shouldPreserveScrollRef := false; finalResultsSetRef := false;
     requests := []; currentSearchRef := None; timer := None;
     fired := []; calls := [] |}.

Definition setEverythingResults (r : list EverythingResult) (s : State) :=
  {| queryText := queryText s; everythingResults := r;
     everythingTotalCount := everythingTotalCount s;
     everythingCurrentCount := everythingCurrentCount s;
     displayedResultsCount := displayedResultsCount s;
     isEverythingAvailable := isEverythingAvailable s;
     everythingError := everythingError s;
     isSearchingEverything := isSearchingEverything s;
     detectedUrls := detectedUrls s;
     shouldPreserveScrollRef := shouldPreserveScrollRef s;
     finalResultsSetRef := finalResultsSetRef s;
     requests := requests s; currentSearchRef := currentSearchRef s;
     timer := timer s; fired := fired s; calls := calls s |}.

Definition setEverythingTotalCount (t : option Z) (s : State) :=
  {| queryText := queryText s; everythingResults := everythingResults s;
     everythingTotalCount := t;
     everythingCurrentCount := everythingCurrentCount s;
     displayedResultsCount := displayedResultsCount s;
     isEverythingAvailable := isEverythingAvailable s;
     everythingError := everythingError s;
     isSearchingEverything := isSearchingEverything s;
     detectedUrls := detectedUrls s;
     shouldPreserveScrollRef := shouldPreserveScrollRef s;
     finalResultsSetRef := finalResultsSetRef s;
     requests := requests s; currentSearchRef := currentSearchRef s;
     timer := timer s; fired := fired s; calls := calls s |}.

Definition setEverythingCurrentCount (c : Z) (s : State) :=
  {| queryText := queryText s; everythingResults := everythingResults s;
     everythingTotalCount := everythingTotalCount s;
     everythingCurrentCount := c;
     displayedResultsCount := displayedResultsCount s;
     isEverythingAvailable := isEverythingAvailable s;
     everythingError := everythingError s;
     isSearchingEverything := isSearchingEverything s;
     detectedUrls := detectedUrls s;
     shouldPreserveScrollRef := shouldPreserveScrollRef s;
     finalResultsSetRef := finalResultsSetRef s;
     requests := requests s; currentSearchRef := currentSearchRef s;
     timer := timer s; fired := fired s; calls := calls s |}.

Definition setDisplayedResultsCount (d : Z) (s : State) :=
  {| queryText := queryText s; everythingResults := everythingResults s;
     everythingTotalCount := everythingTotalCount s;
     everythingCurrentCount := everythingCurrentCount s;
     displayedResultsCount := d;
     isEverythingAvailable := isEverythingAvailable s;
     everythingError := everythingError s;
     isSearchingEverything := isSearchingEverything s;
     detectedUrls := detectedUrls s;
     shouldPreserveScrollRef := shouldPreserveScrollRef s;
     finalResultsSetRef := finalResultsSetRef s;
     requests := requests s; currentSearchRef := currentSearchRef s;
     timer := timer s; fired := fired s; calls := calls s |}.

Definition setStatus (a : bool) (e : option jsstring) (s : State) :=
  {| queryText := queryText s; everythingResults := everythingResults s;
     everythingTotalCount := everythingTotalCount s;
     everythingCurrentCount := everythingCurrentCount s;
     displayedResultsCount := displayedResultsCount s;
     isEverythingAvailable := a; everythingError := e;
     isSearchingEverything := isSearchingEverything s;
     detectedUrls := detectedUrls s;
     shouldPreserveScrollRef := shouldPreserveScrollRef s;
     finalResultsSetRef := finalResultsSetRef s;
     requests := requests s; currentSearchRef := currentSearchRef s;
     timer := timer s; fired := fired s; calls := calls s |}.

Definition setIsSearchingEverything (b : bool) (s : State) :=
  {| queryText := queryText s; everythingResults := everythingResults s;
     everythingTotalCount := everythingTotalCount s;
     everythingCurrentCount := everythingCurrentCount s;
     displayedResultsCount := displayedResultsCount s;
     isEverythingAvailable := isEverythingAvailable s;
     everythingError := everythingError s;
     isSearchingEverything := b;
     detectedUrls := detectedUrls s;
     shouldPreserveScrollRef := shouldPreserveScrollRef s;
     finalResultsSetRef := finalResultsSetRef s;
     requests := requests s; currentSearchRef := currentSearchRef s;
     timer := timer s; fired := fired s; calls := calls s |}.

Definition setQueryAndUrls (q : jsstring) (urls : list jsstring) (s : State) :=
  {| queryText := q; everythingResults := everythingResults s;
     everythingTotalCount := everythingTotalCount s;
     everythingCurrentCount := everythingCurrentCount s;
     displayedResultsCount := displayedResultsCount s;
     isEverythingAvailable := isEverythingAvailable s;
     everythingError := everythingError s;
     isSearchingEverything := isSearchingEverything s;
     detectedUrls := urls;
     shouldPreserveScrollRef := shouldPreserveScrollRef s;
     finalResultsSetRef := finalResultsSetRef s;
     requests := requests s; currentSearchRef := currentSearchRef s;
     timer := timer s; fired := fired s; calls := calls s |}.

(** The refs: [shouldPreserveScrollRef], [finalResultsSetRef] and
    [currentSearchRef] with the request objects. *)
Definition setRefs (p f : bool) (h : store) (ref : option nat) (s : State) :=
  {| queryText := queryText s; everythingResults := everythingResults s;
     everythingTotalCount := everythingTotalCount s;
     everythingCurrentCount := everythingCurrentCount s;
     displayedResultsCount := displayedResultsCount s;
     isEverythingAvailable := isEverythingAvailable s;
     everythingError := everythingError s;
     isSearchingEverything := isSearchingEverything s;
     detectedUrls := detectedUrls s;
     shouldPreserveScrollRef := p; finalResultsSetRef := f;
     requests := h; currentSearchRef := ref;
     timer := timer s; fired := fired s; calls := calls s |}.

(** The pending timer and the two logs. *)
Definition setSchedule (t : option Timer) (f : list jsstring) (c : list call)
  (s : State) :=
  {| queryText := queryText s; everythingResults := everythingResults s;
     everythingTotalCount := everythingTotalCount s;
     everythingCurrentCount := everythingCurrentCount s;
     displayedResultsCount := displayedResultsCount s;
     isEverythingAvailable := isEverythingAvailable s;
     everythingError := everythingError s;
     isSearchingEverything := isSearchingEverything s;
     detectedUrls := detectedUrls s;
     shouldPreserveScrollRef := shouldPreserveScrollRef s;
     finalResultsSetRef := finalResultsSetRef s;
     requests := requests s; currentSearchRef := currentSearchRef s;
     timer := t; fired := f; calls := c |}.

Definition setFinalResultsSetRef (b : bool) (s : State) : State :=
  setRefs (shouldPreserveScrollRef s) b (requests s) (currentSearchRef s) s.

Definition setShouldPreserveScrollRef (b : bool) (s : State) : State :=
  setRefs b (finalResultsSetRef s) (requests s) (currentSearchRef s) s.

Definition setSearchRef (h : store) (ref : option nat) (s : State) : State :=
  setRefs (shouldPreserveScrollRef s) (finalResultsSetRef s) h ref s.

Definition setTimer (t : option Timer) (s : State) : State :=
  setSchedule t (fired s) (calls s) s.

Definition logFired (q : jsstring) (s : State) : State :=
  setSchedule (timer s) (fired s ++ [q]) (calls s) s.

Definition logCall (c : call) (s : State) : State :=
  setSchedule (timer s) (fired s) (calls s ++ [c]) s.

Definition currentCancelled (s : State) : bool :=
  refCancelled (requests s) (currentSearchRef s).

Definition currentQueryIs (q : jsstring) (s : State) : bool :=
  refQueryIs (requests s) (currentSearchRef s) q.

(** The [everything-search-batch] listener: progress only, the payload's
    results are not read. *)
Definition onBatch (p : BatchPayload) (s : State) : State :=
  if currentCancelled s then s
  else setEverythingCurrentCount (batch_current_count p)
         (setEverythingTotalCount (Some (batch_total_count p)) s).

(** The [finally] block of [searchEverything]. *)
Definition finallyBlock (searchQuery : jsstring) (s : State) : State :=
  if currentQueryIs searchQuery s && negb (currentCancelled s)
  then setIsSearchingEverything false s
  else s.

(** [searchEverything(searchQuery)] up to its [await]; [isAvailable] is
    the [isEverythingAvailable] of the render the function belongs to. *)
Definition searchEverything (isAvailable : bool) (searchQuery : jsstring)
  (s : State) : State :=
  if negb isAvailable
  then setIsSearchingEverything false
         (setEverythingTotalCount None
            (setEverythingTotalCount None (setEverythingResults [] s)))
  else
    let h := match currentSearchRef s with
             | Some i => cancel i (requests s)
             | None => requests s
             end in
    let searchRequest := {| query := searchQuery; cancelled := false |} in
    let s := setSearchRef (h ++ [searchRequest]) (Some (length h)) s in
    let s := setEverythingResults [] s in
    let s := setEverythingTotalCount None s in
    let s := setEverythingCurrentCount 0 s in
    let s := setDisplayedResultsCount MAX_DISPLAY_RESULTS s in
    let s := setIsSearchingEverything true s in
    let s := setFinalResultsSetRef false s in
    logCall (EverythingCall searchQuery) s.

(** The continuation of the call made for [searchQuery] when the awaited
    promise resolves with [response]. *)
Definition searchResolved (searchQuery : jsstring) (response : SearchResponse)
  (s : State) : State :=
  if currentCancelled s || negb (currentQueryIs searchQuery s)
  then finallyBlock searchQuery s
  else
    let n := Z.of_nat (length (results response)) in
    let s := setFinalResultsSetRef true s in
    let s := setEverythingResults (results response) s in
    let s := setEverythingTotalCount (Some (total_count response)) s in
    let s := setEverythingCurrentCount n s in
    let s := setDisplayedResultsCount (Z.min n MAX_DISPLAY_RESULTS) s in
    finallyBlock searchQuery s.

(** Error texts that call for a status re-check; the last two are written
    in Chinese in the source and given here by their code units. *)
Definition needsRecheck (errorStr : jsstring) : bool :=
  includes (str "NOT_INSTALLED") errorStr
  || includes (str "EXECUTABLE_CORRUPTED") errorStr
  || includes (str "SERVICE_NOT_RUNNING") errorStr
  || includes (str "not found") errorStr
  || includes [26410; 25214; 21040]%N errorStr
  || includes [26410; 36816; 34892]%N errorStr.

(** The continuation when the awaited promise rejects. When a re-check is
    due the handler awaits [getEverythingStatus] next; [statusRechecked]
    or [statusRecheckFailed] completes it. *)
Definition searchRejected (searchQuery errorStr : jsstring) (s : State)
  : State :=
  if currentCancelled s || negb (currentQueryIs searchQuery s)
  then finallyBlock searchQuery s
  else
    let s := setEverythingResults [] s in
    let s := setEverythingTotalCount None s in
    let s := setEverythingCurrentCount 0 s in
    if needsRecheck errorStr then s
    else finallyBlock searchQuery s.

(** The query effect: clean-up of the previous run ([clearTimeout]), then
    the body. The application and file-history result lists, which the
    body also empties, are not part of this state. *)
Definition queryEffect (s : State) : State :=
  let s := setTimer None s in
  if eqb (trim (queryText s)) []
  then
    let s := match currentSearchRef s with
             | Some i => setSearchRef (cancel i (requests s)) None s
             | None => s
             end in
    let s := setEverythingResults [] s in
    let s := setEverythingTotalCount None s in
    let s := setEverythingCurrentCount 0 s in
    let s := setDisplayedResultsCount MAX_DISPLAY_RESULTS s in
    let s := setQueryAndUrls (queryText s) [] s in
    setIsSearchingEverything false s
  else
    let s := setQueryAndUrls (queryText s) (Urls.extractUrls (queryText s)) s in
    setTimer (Some {| timerQuery := queryText s;
                      timerAvailable := isEverythingAvailable s;
                      remaining := debounceMs |}) s.

(** The timer callback. *)
Definition timerCallback (t : Timer) (s : State) : State :=
  let s := logFired (timerQuery t) s in
  let s := logCall (AppsCall (timerQuery t)) s in
  let s := logCall (FilesCall (timerQuery t)) s in
  if timerAvailable t
  then searchEverything (timerAvailable t) (timerQuery t) s
  else s.

(** [setIsEverythingAvailable(a); setEverythingError(e)]; the effect
    depends on [isEverythingAvailable]. *)
Definition applyStatus (a : bool) (e : option jsstring) (s : State) : State :=
  let changed := negb (Bool.eqb a (isEverythingAvailable s)) in
  let s := setStatus a e s in
  if changed then queryEffect s else s.

Definition statusRechecked (searchQuery : jsstring) (st : Status) (s : State)
  : State :=
  let changed := negb (Bool.eqb (available st) (isEverythingAvailable s)) in
  let s := finallyBlock searchQuery
             (setStatus (available st) (errorOrNull st) s) in
  if changed then queryEffect s else s.

(** The status re-check itself failed: the availability is set to false
    with a fixed message (given by its code units). *)
Definition recheckFailedMessage : jsstring :=
  [25628; 32034; 22833; 36133; 21518; 26080; 27861; 37325; 26032; 26816;
   26597; 29366; 24577]%N.

Definition statusRecheckFailed (searchQuery : jsstring) (s : State) : State :=
  let changed := isEverythingAvailable s in
  let s := finallyBlock searchQuery
             (setStatus false (Some recheckFailedMessage) s) in
  if changed then queryEffect s else s.

(** [onChange]: [setQuery(value)]; the effect runs when the value differs. *)
Definition onQueryChange (value : jsstring) (s : State) : State :=
  if eqb value (queryText s) then s
  else queryEffect (setQueryAndUrls value (detectedUrls s) s).

(** [dt] milliseconds pass; a timer that is due runs its callback. *)
Definition elapse (dt : Z) (s : State) : State :=
  match timer s with
  | None => s
  | Some t =>
      if (remaining t <=? dt)%Z
      then timerCallback t (setTimer None s)
      else setTimer (Some {| timerQuery := timerQuery t;
                             timerAvailable := timerAvailable t;
                             remaining := remaining t - dt |}) s
  end.

(** What [onScroll] reads from its target, in pixels. *)
Record ScrollMetrics : Type :=
  { scrollTop : Z; scrollHeight : Z; clientHeight : Z }.

Definition isNearBottom (m : ScrollMetrics) : bool :=
  (scrollHeight m - scrollTop m - clientHeight m <? 50)%Z.

(** The [onScroll] handler of the result list. *)
Definition onScroll (m : ScrollMetrics) (s : State) : State :=
  if isNearBottom m then
    let len := Z.of_nat (length (everythingResults s)) in
    let totalCount := match everythingTotalCount s with
                      | Some t => t
                      | None => len
                      end in
    let hasMoreEverythingResults :=
      (totalCount >? displayedResultsCount s)%Z in
    if hasMoreEverythingResults then
      let s := setShouldPreserveScrollRef true s in
      let prev := displayedResultsCount s in
      let next := (prev + MAX_DISPLAY_RESULTS)%Z in
      let maxCount :=
        Z.min totalCount (if (len =? 0)%Z then totalCount else len) in
      let actualNext := Z.min next maxCount in
      setDisplayedResultsCount actualNext s
    else s
  else s.

Inductive event : Type :=
| QueryChange (value : jsstring)
| Elapse (dt : Z)
| Batch (p : BatchPayload)
| Resolved (searchQuery : jsstring) (response : SearchResponse)
| Rejected (searchQuery errorStr : jsstring)
| StatusRechecked (searchQuery : jsstring) (st : Status)
| StatusRecheckFailed (searchQuery : jsstring)
| StatusChecked (st : Status)
| Scroll (m : ScrollMetrics).

Definition step (s : State) (e : event) : State :=
  match e with
  | QueryChange v => onQueryChange v s
  | Elapse dt => elapse dt s
  | Batch p => onBatch p s
  | Resolved q r => searchResolved q r s
  | Rejected q err => searchRejected q err s
  | StatusRechecked q st => statusRechecked q st s
  | StatusRecheckFailed q => statusRecheckFailed q s
  | StatusChecked st => applyStatus (available st) (errorOrNull st) s
  | Scroll m => onScroll m s
  end.

Definition run (s : State) (es : list event) : State := fold_left step es s.

End Launcher.

(* ===================================================================== *)
(** ** keyboardUtils.ts: [handleKeyDown] *)
(* ===================================================================== *)

Module Keyboard.
Import JS.

(** [SearchResult] of resultUtils, as far as the handler is concerned:
    it only passes results on to [handleLaunch]. *)
Record SearchResult : Type :=
  { resultType : jsstring; displayName : jsstring; resultPath : jsstring }.

Record ContextMenu : Type :=
  { menuX : Z; menuY : Z; menuResult : SearchResult }.

(** The overlays Escape closes. *)
Record Overlays : Type :=
  { contextMenu : option ContextMenu;
    errorMessage : option jsstring;
    isPluginListModalOpen : bool;
    isMemoModalOpen : bool;
    isRemarkModalOpen : bool;
    editingRemarkUrl : option jsstring;
    remarkText : jsstring }.

(** The three result lists and the two refs that mirror them. *)
Record Lists : Type :=
  { results : list SearchResult;
    horizontalResults : list SearchResult;
    verticalResults : list SearchResult;
    horizontalResultsRef : list SearchResult;
    currentLoadResultsRef : list SearchResult }.

(** The state [handleKeyDown] reads through its options and writes
    through its setters and refs. Indices are JavaScript numbers. *)
Record State : Type :=
  { query : jsstring;
    overlays : Overlays;
    pastedImageDataUrl : option jsstring;
    pastedImagePath : option jsstring;
    selectedHorizontalIndex : option Z;
    selectedVerticalIndex : option Z;
    lists : Lists;
    isHorizontalNavigationRef : bool;
    justJumpedToVerticalRef : bool }.

(** The keyboard event. *)
Record KeyEvent : Type := { key : jsstring; keyCode : Z }.

(** What the handler reads from the document: whether [inputRef.current]
    holds an element, whether it is [document.activeElement], and the
    input's selection and value length. *)
Record Dom : Type :=
  { inputMounted : bool;
    inputIsActive : bool;
    selectionStart : option Z;
    selectionEnd : option Z;
    valueLength : Z }.

(** Callbacks scheduled with [setTimeout]. *)
Inductive task : Type :=
| HideLauncherTask               (* hideLauncherAndResetState() *)
| ResetJustJumped                (* justJumpedToVerticalRef.current = false *)
| ResetHorizontalNavigation.     (* isHorizontalNavigationRef.current = false *)

(** What the handler does outside the state: calls on the event and the
    input element, timers, and the callbacks it was given. *)
Inductive effect : Type :=
| PreventDefault
| StopPropagation
| FocusInput
| SetSelectionRange (a b : Z)
| SetTimeout (ms : Z) (t : task)
| HideLauncherAndResetState (resetMemo : bool)
| ResetMemoState
| HandleLaunch (r : SearchResult).

Definition setOverlays (o : Overlays) (s : State) : State :=
  {| query := query s; overlays := o;
     pastedImageDataUrl := pastedImageDataUrl s;
     pastedImagePath := pastedImagePath s;
     selectedHorizontalIndex := selectedHorizontalIndex s;
     selectedVerticalIndex := selectedVerticalIndex s;
     lists := lists s;
     isHorizontalNavigationRef := isHorizontalNavigationRef s;
     justJumpedToVerticalRef := justJumpedToVerticalRef s |}.

Definition setPasted (url path : option jsstring) (s : State) : State :=
  {| query := query s; overlays := overlays s;
     pastedImageDataUrl := url; pastedImagePath := path;
     selectedHorizontalIndex := selectedHorizontalIndex s;
     selectedVerticalIndex := selectedVerticalIndex s;
     lists := lists s;
     isHorizontalNavigationRef := isHorizontalNavigationRef s;
     justJumpedToVerticalRef := justJumpedToVerticalRef s |}.

Definition setSelectedHorizontalIndex (i : option Z) (s : State) : State :=
  {| query := query s; overlays := overlays s;
     pastedImageDataUrl := pastedImageDataUrl s;
     pastedImagePath := pastedImagePath s;
     selectedHorizontalIndex := i;
     selectedVerticalIndex := selectedVerticalIndex s;
     lists := lists s;
     isHorizontalNavigationRef := isHorizontalNavigationRef s;
     justJumpedToVerticalRef := justJumpedToVerticalRef s |}.

Definition setSelectedVerticalIndex (j : option Z) (s : State) : State :=
  {| query := query s; overlays := overlays s;
     pastedImageDataUrl := pastedImageDataUrl s;
     pastedImagePath := pastedImagePath s;
     selectedHorizontalIndex := selectedHorizontalIndex s;
     selectedVerticalIndex := j;
     lists := lists s;
     isHorizontalNavigationRef := isHorizontalNavigationRef s;
     justJumpedToVerticalRef := justJumpedToVerticalRef s |}.

Definition setLists (l : Lists) (s : State) : State :=
  {| query := query s; overlays := overlays s;
     pastedImageDataUrl := pastedImageDataUrl s;
     pastedImagePath := pastedImagePath s;
     selectedHorizontalIndex := selectedHorizontalIndex s;
     selectedVerticalIndex := selectedVerticalIndex s;
     lists := l;
     isHorizontalNavigationRef := isHorizontalNavigationRef s;
     justJumpedToVerticalRef := justJumpedToVerticalRef s |}.

Definition setIsHorizontalNavigationRef (b : bool) (s : State) : State :=
  {| query := query s; overlays := overlays s;
     pastedImageDataUrl := pastedImageDataUrl s;
     pastedImagePath := pastedImagePath s;
     selectedHorizontalIndex := selectedHorizontalIndex s;
     selectedVerticalIndex := selectedVerticalIndex s;
     lists := lists s;
     isHorizontalNavigationRef := b;
     justJumpedToVerticalRef := justJumpedToVerticalRef s |}.

Definition setJustJumpedToVerticalRef (b : bool) (s : State) : State :=
  {| query := query s; overlays := overlays s;
     pastedImageDataUrl := pastedImageDataUrl s;
     pastedImagePath := pastedImagePath s;
     selectedHorizontalIndex := selectedHorizontalIndex s;
     selectedVerticalIndex := selectedVerticalIndex s;
     lists := lists s;
     isHorizontalNavigationRef := isHorizontalNavigationRef s;
     justJumpedToVerticalRef := b |}.

Definition setContextMenu (m : option ContextMenu) (o : Overlays) :=
  {| contextMenu := m; errorMessage := errorMessage o;
     isPluginListModalOpen := isPluginListModalOpen o;
     isMemoModalOpen := isMemoModalOpen o;
     isRemarkModalOpen := isRemarkModalOpen o;
     editingRemarkUrl := editingRemarkUrl o; remarkText := remarkText o |}.

Definition setErrorMessage (m : option jsstring) (o : Overlays) :=
  {| contextMenu := contextMenu o; errorMessage := m;
     isPluginListModalOpen := isPluginListModalOpen o;
     isMemoModalOpen := isMemoModalOpen o;
     isRemarkModalOpen := isRemarkModalOpen o;
     editingRemarkUrl := editingRemarkUrl o; remarkText := remarkText o |}.

Definition setIsPluginListModalOpen (b : bool) (o : Overlays) :=
  {| contextMenu := contextMenu o; errorMessage := errorMessage o;
     isPluginListModalOpen := b;
     isMemoModalOpen := isMemoModalOpen o;
     isRemarkModalOpen := isRemarkModalOpen o;
     editingRemarkUrl := editingRemarkUrl o; remarkText := remarkText o |}.

(** [setIsRemarkModalOpen(false); setEditingRemarkUrl(null);
     setRemarkText(empty)] *)
Definition closeRemarkModal (o : Overlays) :=
  {| contextMenu := contextMenu o; errorMessage := errorMessage o;
     isPluginListModalOpen := isPluginListModalOpen o;
     isMemoModalOpen := isMemoModalOpen o;
     isRemarkModalOpen := false;
     editingRemarkUrl := None; remarkText := [] |}.

(** Modelled from the spec: resultUtils.ts is not among the sources; its
    test file fixes the calls each helper makes.
    [resetSelectedIndices] sets both indices to null. *)
Definition resetSelectedIndices (s : State) : State :=
  setSelectedVerticalIndex None (setSelectedHorizontalIndex None s).

(** Modelled from the spec: resultUtils.ts is not among the sources; by
    its test [selectFirstHorizontal] sets the horizontal index to 0 and
    the vertical index to null. *)
Definition selectFirstHorizontal (s : State) : State :=
  setSelectedVerticalIndex None (setSelectedHorizontalIndex (Some 0%Z) s).

(** Modelled from the spec: resultUtils.ts is not among the sources; by
    its test [selectFirstVertical] sets the horizontal index to null and
    the vertical index to 0. *)
Definition selectFirstVertical (s : State) : State :=
  setSelectedVerticalIndex (Some 0%Z) (setSelectedHorizontalIndex None s).

(** Modelled from the spec: resultUtils.ts is not among the sources; by
    its test [clearAllResults] empties the three lists and the two refs
    and sets both indices to null. *)
Definition clearAllResults (s : State) : State :=
  resetSelectedIndices
    (setLists {| results := []; horizontalResults := [];
                 verticalResults := []; horizontalResultsRef := [];
                 currentLoadResultsRef := [] |} s).

(** [list[i]] for a JavaScript number [i]. *)
Definition at_ (l : list SearchResult) (i : Z) : option SearchResult :=
  if (i <? 0)%Z then None else nth_error l (Z.to_nat i).

Definition len (l : list SearchResult) : Z := Z.of_nat (length l).

Definition isSome {A : Type} (o : option A) : bool :=
  match o with Some _ => true | None => false end.

(** [o ?? 0] *)
Definition orZero (o : option Z) : Z :=
  match o with Some z => z | None => 0%Z end.

(** A non-empty string is truthy. *)
Definition truthyString (o : option jsstring) : bool :=
  match o with Some (_ :: _) => true | _ => false end.

Definition keyIs (e : KeyEvent) (k : string) : bool := eqb (key e) (str k).

(** The Escape branch. *)
Definition handleEscape (s : State) : State * list effect :=
  let o := overlays s in
  let pre := [PreventDefault; StopPropagation] in
  if isSome (contextMenu o)
  then (setOverlays (setContextMenu None o) s, pre)
  else if truthyString (errorMessage o)
  then (setOverlays (setErrorMessage None o) s, pre)
  else if isPluginListModalOpen o
  then (setOverlays (setIsPluginListModalOpen false o) s,
        pre ++ [SetTimeout 100 HideLauncherTask])
  else if isMemoModalOpen o
  then (s, pre ++ [ResetMemoState; SetTimeout 100 HideLauncherTask])
  else if isRemarkModalOpen o
  then (setOverlays (closeRemarkModal o) s, pre)
  else (s, pre ++ [HideLauncherAndResetState true]).

(** [inputRef.current.focus()] and the caret put at the end, when the
    ref holds an element. *)
Definition focusInputAtEnd (d : Dom) : list effect :=
  if inputMounted d
  then [FocusInput; SetSelectionRange (valueLength d) (valueLength d)]
  else [].

(** The ArrowDown branch. *)
Definition handleArrowDown (d : Dom) (s : State) : State * list effect :=
  let isInputFocused := inputIsActive d in
  let V := verticalResults (lists s) in
  let H := horizontalResults (lists s) in
  match selectedHorizontalIndex s with
  | Some _ =>
      if (len V >? 0)%Z
      then (setSelectedVerticalIndex (Some 0%Z)
              (setSelectedHorizontalIndex None
                 (setJustJumpedToVerticalRef true s)),
            [PreventDefault; SetTimeout 200 ResetJustJumped])
      else (s, [PreventDefault])
  | None =>
      match selectedVerticalIndex s with
      | Some j =>
          if (j <? len V - 1)%Z
          then (setSelectedVerticalIndex (Some (j + 1)%Z)
                  (setIsHorizontalNavigationRef false s),
                [PreventDefault])
          else (s, [PreventDefault])
      | None =>
          if isInputFocused && (len H >? 0)%Z
          then (selectFirstHorizontal s, [PreventDefault])
          else if isInputFocused && (len V >? 0)%Z
          then (selectFirstVertical s, [PreventDefault])
          else (s, [PreventDefault])
      end
  end.

(** [o === 0] for an index that may be null. *)
Definition isZero (o : option Z) : bool :=
  match o with Some z => (z =? 0)%Z | None => false end.

(** [o !== null && o > 0] *)
Definition isPositive (o : option Z) : bool :=
  match o with Some z => (z >? 0)%Z | None => false end.

(** The ArrowUp branch. *)
Definition handleArrowUp (d : Dom) (s : State) : State * list effect :=
  let H := horizontalResults (lists s) in
  if isZero (selectedHorizontalIndex s)
  then (resetSelectedIndices s, PreventDefault :: focusInputAtEnd d)
  else if isZero (selectedVerticalIndex s)
  then
    if (len H >? 0)%Z
    then (selectFirstHorizontal s, [PreventDefault])
    else (resetSelectedIndices s, PreventDefault :: focusInputAtEnd d)
  else if isPositive (selectedVerticalIndex s)
  then (setSelectedVerticalIndex
          (Some (orZero (selectedVerticalIndex s) - 1)%Z)
          (setIsHorizontalNavigationRef false s),
        [PreventDefault])
  else if isPositive (selectedHorizontalIndex s)
  then (setSelectedVerticalIndex None
          (setSelectedHorizontalIndex
             (Some (orZero (selectedHorizontalIndex s) - 1)%Z) s),
        [PreventDefault])
  else (s, [PreventDefault]).

(** Does the focused input keep an ArrowLeft/ArrowRight for itself? *)
Definition inputKeepsArrow (isRight : bool) (d : Dom) (s : State) : bool :=
  if inputIsActive d && inputMounted d then
    let selStart := orZero (selectionStart d) in
    let selEnd := orZero (selectionEnd d) in
    if negb (selStart =? selEnd)%Z then true
    else if negb isRight
    then                                              (* ArrowLeft *)
      match selectedHorizontalIndex s with
      | Some i => (i =? 0)%Z
      | None => true
      end
    else (selEnd <? valueLength d)%Z                  (* ArrowRight *)
  else false.

(** The ArrowLeft/ArrowRight branch. *)
Definition handleArrowLeftRight (isRight : bool) (d : Dom) (s : State)
  : State * list effect :=
  let H := horizontalResults (lists s) in
  let pre := [PreventDefault; StopPropagation] in
  let reset := [SetTimeout 0 ResetHorizontalNavigation] in
  if inputKeepsArrow isRight d s then (s, [])
  else if (len H =? 0)%Z then (s, pre)
  else
    let s := setIsHorizontalNavigationRef true s in
    match selectedHorizontalIndex s with
    | Some i =>
        if isRight then
          let nextIndex := if (i <? len H - 1)%Z then (i + 1)%Z else 0%Z in
          (setSelectedVerticalIndex None
             (setSelectedHorizontalIndex (Some nextIndex) s),
           pre ++ reset)
        else if (i =? 0)%Z then
          (setSelectedVerticalIndex None
             (setSelectedHorizontalIndex (Some (len H - 1)%Z) s),
           pre)
        else
          let prevIndex := if (i >? 0)%Z then (i - 1)%Z else (len H - 1)%Z in
          (setSelectedVerticalIndex None
             (setSelectedHorizontalIndex (Some prevIndex) s),
           pre ++ reset)
    | None =>
        if isRight then
          (setSelectedVerticalIndex None
             (setSelectedHorizontalIndex (Some 0%Z) s),
           pre ++ reset)
        else
          (setSelectedVerticalIndex None
             (setSelectedHorizontalIndex (Some (len H - 1)%Z) s),
           pre ++ reset)
    end.

(** The Enter branch. *)
Definition handleEnter (s : State) : State * list effect :=
  let fromH := match selectedHorizontalIndex s with
               | Some i => at_ (horizontalResults (lists s)) i
               | None => None
               end in
  let selectedResult :=
    match fromH with
    | Some r => Some r
    | None => match selectedVerticalIndex s with
              | Some j => at_ (verticalResults (lists s)) j
              | None => None
              end
    end in
  match selectedResult with
  | Some r => (s, [PreventDefault; HandleLaunch r])
  | None => (s, [PreventDefault])
  end.

(** [handleKeyDown(options)]: the state after the call and the effects
    in the order they happen. *)
Definition handleKeyDown (e : KeyEvent) (d : Dom) (s : State)
  : State * list effect :=
  if keyIs e "Escape" || (keyCode e =? 27)%Z then handleEscape s
  else if keyIs e "Backspace" && eqb (query s) []
          && truthyString (pastedImageDataUrl s)
  then (clearAllResults (setPasted None None s), [PreventDefault])
  else if keyIs e "ArrowDown" then handleArrowDown d s
  else if keyIs e "ArrowUp" then handleArrowUp d s
  else if keyIs e "ArrowLeft" then handleArrowLeftRight false d s
  else if keyIs e "ArrowRight" then handleArrowLeftRight true d s
  else if keyIs e "Enter" then handleEnter s
  else (s, []).

(** A timer callback scheduled by the handler runs. *)
Definition runTask (t : task) (s : State) : State * list effect :=
  match t with
  | HideLauncherTask => (s, [HideLauncherAndResetState false])
  | ResetJustJumped => (setJustJumpedToVerticalRef false s, [])
  | ResetHorizontalNavigation => (setIsHorizontalNavigationRef false s, [])
  end.

Inductive event : Type :=
| KeyDown (e : KeyEvent) (d : Dom)
| Timeout (t : task).

Definition step (s : State) (ev : event) : State :=
  match ev with
  | KeyDown e d => fst (handleKeyDown e d s)
  | Timeout t => fst (runTask t s)
  end.

Definition run (s : State) (evs : list event) : State := fold_left step evs s.

(** The selection as the specification names it. *)
Inductive NavigationSelection : Type :=
| none
| horizontal (i : Z)
| vertical (j : Z).

(** The two indices of a selection; no selection has both. *)
Definition indicesOf (n : NavigationSelection) : option Z * option Z :=
  match n with
  | none => (None, None)
  | horizontal i => (Some i, None)
  | vertical j => (None, Some j)
  end.

Definition hasSelection (n : NavigationSelection) (s : State) : Prop :=
  (selectedHorizontalIndex s, selectedVerticalIndex s) = indicesOf n.

(** The invariant on the two indices: not both set, each within its list. *)
Definition selectionOk (s : State) : Prop :=
  (selectedHorizontalIndex s = None \/ selectedVerticalIndex s = None)
  /\ (forall i, selectedHorizontalIndex s = Some i ->
        (0 <= i < len (horizontalResults (lists s)))%Z)
  /\ (forall j, selectedVerticalIndex s = Some j ->
        (0 <= j < len (verticalResults (lists s)))%Z).

End Keyboard.

(* ===================================================================== *)
(** ** JavaScript arrays: [sort] and [slice] *)
(* ===================================================================== *)

Module JSArray.

(** [Array.prototype.sort(cmp)]. The sort is stable, and for a comparator
    that orders consistently the sorted array is fixed by the language
    definition whatever algorithm the engine runs: ascending in the
    comparator, elements that compare equal in their original order.
    Inserting from the right, each element before the first one it is
    not greater than, computes that array. *)
Fixpoint insertWith {A : Type} (cmp : A -> A -> Z) (x : A) (l : list A)
  : list A :=
  match l with
  | [] => [x]
  | y :: tl => if (cmp x y <=? 0)%Z then x :: l else y :: insertWith cmp x tl
  end.

Definition sortWith {A : Type} (cmp : A -> A -> Z) (l : list A) : list A :=
  fold_right (insertWith cmp) [] l.

(** [l.slice(0, end)] for a JavaScript integer [end]: a negative [end]
    counts from the end of the array, and the result is clamped to the
    array. *)
Definition sliceTo {A : Type} (endIndex : Z) (l : list A) : list A :=
  let len := Z.of_nat (length l) in
  let final := if (endIndex <? 0)%Z then Z.max (len + endIndex) 0
               else Z.min endIndex len in
  firstn (Z.to_nat final) l.

End JSArray.

(* ===================================================================== *)
(** ** Search helpers: the second part of keyboardUtils.ts *)
(* ===================================================================== *)

Module SearchUtils.
Import JS JSArray.

(** [SearchEngineConfig], [AppInfo] and [FileHistoryItem] of ../types, as
    far as these functions read them. An optional string field is an
    [option]. *)
Record SearchEngineConfig : Type :=
  { engineName : jsstring; prefix : jsstring; url : jsstring }.

Record AppInfo : Type :=
  { name : jsstring;
    path : jsstring;
    icon : option jsstring;
    name_pinyin : option jsstring;
    name_pinyin_initials : option jsstring;
    description : option jsstring }.

Record FileHistoryItem : Type :=
  { fileName : jsstring; filePath : jsstring; last_used : Z }.

Definition len (s : jsstring) : Z := Z.of_nat (length s).

(** [prefix.endsWith(' ')] *)
Definition endsWithSpace (p : jsstring) : bool :=
  match rev p with
  | c :: _ => (c =? chr " ")%N
  | [] => false
  end.

(** [prefix.endsWith(' ') ? prefix : prefix + ' '] *)
Definition prefixToMatch (p : jsstring) : jsstring :=
  if endsWithSpace p then p else p ++ [chr " "].

(** The loop of [detectSearchIntent] over the sorted engines. *)
Fixpoint firstMatch (query : jsstring) (sortedEngines : list SearchEngineConfig)
  : option (SearchEngineConfig * jsstring) :=
  match sortedEngines with
  | [] => None
  | engine :: tl =>
      match prefix engine with
      | [] => firstMatch query tl                        (* continue *)
      | _ :: _ =>
          let toMatch := prefixToMatch (prefix engine) in
          if startsWith toMatch query
          then Some (engine, trim (skipn (length toMatch) query))
          else firstMatch query tl
      end
  end.

(** [detectSearchIntent(query, engines)]; [None] is null. *)
Definition detectSearchIntent (query : jsstring)
  (engines : list SearchEngineConfig)
  : option (SearchEngineConfig * jsstring) :=
  if match query with [] => true | _ => false end
     || match trim query with [] => true | _ => false end
     || Nat.eqb (length engines) 0
  then None
  else
    let sortedEngines :=
      sortWith (fun a b => (len (prefix b) - len (prefix a))%Z) engines in
    firstMatch query sortedEngines.

(** A non-empty optional string is truthy. *)
Definition truthy (o : option jsstring) : bool :=
  match o with Some (_ :: _) => true | _ => false end.

(** The chain [if (f === q) a else if (f.startsWith(q)) b
    else if (f.includes(q)) c], the score added by one field. *)
Definition matchScore (exact starts contains : Z) (field queryLower : jsstring)
  : Z :=
  if eqb field queryLower then exact
  else if startsWith queryLower field then starts
  else if includes queryLower field then contains
  else 0%Z.

Section Lowercase.

(** [String.prototype.toLowerCase] follows the Unicode case tables and
    [containsChinese] is defined in launcherUtils, which is not among the
    sources: the functions below take both as parameters, and what is
    proved of them holds whatever the two functions are. *)
Variable toLowerCase : jsstring -> jsstring.
Variable containsChinese : jsstring -> bool.

(** The score [searchApplicationsFrontend] gives one application. *)
Definition appScore (queryLower : jsstring) (queryIsPinyin : bool)
  (app : AppInfo) : Z :=
  let nameLower := toLowerCase (name app) in
  let score := matchScore 1000 500 100 nameLower queryLower in
  let score :=
    if queryIsPinyin
       && (truthy (name_pinyin app) || truthy (name_pinyin_initials app))
    then
      let score :=
        match name_pinyin app with
        | Some (c :: p) =>
            (score + matchScore 800 400 150 (c :: p) queryLower)%Z
        | _ => score
        end in
      match name_pinyin_initials app with
      | Some (c :: p) =>
          (score + matchScore 600 300 120 (c :: p) queryLower)%Z
      | _ => score
      end
    else score in
  match description app with
  | Some (c :: d) =>
      if (score =? 0)%Z && includes queryLower (toLowerCase (c :: d))
      then (score + 150)%Z
      else score
  | _ => score
  end.

(** The array [scoredResults] before it is sorted. *)
Definition scoreApps (queryLower : jsstring) (queryIsPinyin : bool)
  (apps : list AppInfo) : list (AppInfo * Z) :=
  flat_map (fun app =>
              let score := appScore queryLower queryIsPinyin app in
              if (score >? 0)%Z then [(app, score)] else [])
           apps.

(** [searchApplicationsFrontend(query, apps)], the value the promise
    resolves with. *)
Definition searchApplicationsFrontend (query : jsstring) (apps : list AppInfo)
  : list AppInfo :=
  if match query with [] => true | _ => false end || eqb (trim query) []
  then sliceTo 10 apps
  else
    let queryLower := toLowerCase (trim query) in
    let queryIsPinyin := negb (containsChinese queryLower) in
    let scoredResults := scoreApps queryLower queryIsPinyin apps in
    let sorted :=
      sortWith (fun a b => (snd b - snd a)%Z) scoredResults in
    map fst (sliceTo 50 sorted).

(** The score [searchFileHistoryFrontend] gives one item of the history;
    [None] is the callback's null. *)
Definition fileScore (queryLower : jsstring) (item : FileHistoryItem)
  : option (FileHistoryItem * Z) :=
  let nameLower := toLowerCase (fileName item) in
  let pathLower := toLowerCase (filePath item) in
  let score := matchScore 1000 500 100 nameLower queryLower in
  let score :=
    if (score =? 0)%Z && includes queryLower pathLower
    then (score + 10)%Z else score in
  if (score >? 0)%Z then Some (item, score) else None.

(** [processBatchAsync] is defined in launcherUtils, which is not among
    the sources; it is a parameter of the function that calls it. *)
Variable processBatchAsync :
  list FileHistoryItem -> (FileHistoryItem -> option (FileHistoryItem * Z)) ->
  Z -> Z -> list (FileHistoryItem * Z).

(** [searchFileHistoryFrontend(query, fileHistory)], the value the
    promise resolves with. *)
Definition searchFileHistoryFrontend (query : jsstring)
  (fileHistory : list FileHistoryItem) : list FileHistoryItem :=
  if match query with [] => true | _ => false end || eqb (trim query) []
  then
    let sorted :=
      sortWith (fun a b => (last_used b - last_used a)%Z) fileHistory in
    sliceTo 100 sorted
  else
    let queryLower := toLowerCase (trim query) in
    let scoredResults :=
      processBatchAsync fileHistory (fileScore queryLower) 50 1000 in
    let sorted :=
      sortWith (fun a b =>
                  if negb (snd b =? snd a)%Z then (snd b - snd a)%Z
                  else (last_used (fst b) - last_used (fst a))%Z)
               scoredResults in
    map fst (sliceTo 100 sorted).

(** What [searchApplications] reads and writes through [deps]: the query
    of the render, the cache ref with its flag, and the [apps] state. *)
Record AppDeps : Type :=
  { currentQuery : jsstring;
    allAppsCacheRef : list AppInfo;
    allAppsCacheLoadedRef : bool;
    apps : list AppInfo }.

(** The outcome of an awaited backend call that resolves with a list of
    applications: [None] when it rejects. *)
Definition Outcome : Type := option (list AppInfo).

(** What [searchApplications] does besides the cache. *)
Inductive appEffect : Type :=
| SetFilteredApps (l : list AppInfo)   (* updateSearchResults(setFilteredApps, l) *)
| SetApps (l : list AppInfo)
| ScanApplications                     (* await tauriApi.scanApplications() *)
| BackendSearch (q : jsstring)         (* await tauriApi.searchApplications(q) *)
| BackgroundSearch (q : jsstring).     (* the same call, not awaited *)

Variable filterWindowsApps : list AppInfo -> list AppInfo.

Definition setCache (l : list AppInfo) (d : AppDeps) : AppDeps :=
  {| currentQuery := currentQuery d; allAppsCacheRef := l;
     allAppsCacheLoadedRef := true; apps := apps d |}.

(** The part of [searchApplications] after the cache is in place. *)
Definition searchInCache (searchQuery : jsstring) (d : AppDeps)
  : list appEffect :=
  let results := searchApplicationsFrontend searchQuery (allAppsCacheRef d) in
  if eqb (trim (currentQuery d)) (trim searchQuery)
  then
    let appsWithoutIcons := filter (fun app => negb (truthy (icon app))) results in
    SetFilteredApps results
    :: (if Nat.ltb 0 (length appsWithoutIcons)
        then [BackgroundSearch searchQuery] else [])
  else [SetFilteredApps []].

(** [searchApplications(searchQuery, deps)]: the refs afterwards and the
    effects in order, given how the two backend calls turn out. *)
Definition searchApplications (searchQuery : jsstring) (d : AppDeps)
  (scanned found : Outcome) : AppDeps * list appEffect :=
  let cleared := [SetFilteredApps []] in
  if match searchQuery with [] => true | _ => false end
     || eqb (trim searchQuery) []
  then (d, cleared)
  else if negb (allAppsCacheLoadedRef d)
          || Nat.eqb (length (allAppsCacheRef d)) 0
  then
    if Nat.ltb 0 (length (apps d))
    then
      let d := setCache (apps d) d in
      (d, cleared ++ searchInCache searchQuery d)
    else
      match scanned with
      | Some allApps =>
          let filteredApps := filterWindowsApps allApps in
          let d := setCache filteredApps d in
          (d, cleared ++ [ScanApplications; SetApps filteredApps]
              ++ searchInCache searchQuery d)
      | None =>
          (d, cleared ++ [ScanApplications; BackendSearch searchQuery]
              ++ match found with
                 | Some results =>
                     if eqb (trim (currentQuery d)) (trim searchQuery)
                     then [SetFilteredApps results]
                     else [SetFilteredApps []]
                 | None => [SetFilteredApps []]       (* the outer catch *)
                 end)
      end
  else (d, cleared ++ searchInCache searchQuery d).

End Lowercase.

End SearchUtils.

(* ===================================================================== *)
(** ** LauncherWindow.tsx: the result list, launching, and the keys *)
(* ===================================================================== *)

Module LauncherView.
Import JS JSArray Everything.

(** The [type] of a [SearchResult]. *)
Inductive ResultType : Type := Url | App | File | EverythingFile.

(** [SearchResult] as [combinedResults] builds it: the tag, the payload
    under the field named after the tag, and the two texts shown. *)
Record SearchResult : Type :=
  { type : ResultType;
    url : option jsstring;
    app : option SearchUtils.AppInfo;
    file : option SearchUtils.FileHistoryItem;
    everything : option EverythingResult;
    displayName : jsstring;
    path : jsstring }.

Definition urlResult (u : jsstring) : SearchResult :=
  {| type := Url; url := Some u; app := None; file := None;
     everything := None; displayName := u; path := u |}.

Definition appResult (a : SearchUtils.AppInfo) : SearchResult :=
  {| type := App; url := None; app := Some a; file := None;
     everything := None; displayName := SearchUtils.name a;
     path := SearchUtils.path a |}.

Definition fileResult (f : SearchUtils.FileHistoryItem) : SearchResult :=
  {| type := File; url := None; app := None; file := Some f;
     everything := None; displayName := SearchUtils.fileName f;
     path := SearchUtils.filePath f |}.

Definition everythingResult (e : EverythingResult) : SearchResult :=
  {| type := EverythingFile; url := None; app := None; file := None;
     everything := Some e; displayName := Everything.name e;
     path := Everything.path e |}.

(** The launcher with the state the disk-search part leaves out: the
    application and file-history results and the selected row. The
    [results] state is set from [combinedResults] by an effect after
    every render in which that memo changed, so a handler always reads
    the list computed from the state it sees. *)
Record View : Type :=
  { core : Launcher.State;
    filteredApps : list SearchUtils.AppInfo;
    filteredFiles : list SearchUtils.FileHistoryItem;
    selectedIndex : Z }.

(** The memo [combinedResults]. *)
Definition combinedResults (v : View) : list SearchResult :=
  map urlResult (Launcher.detectedUrls (core v))
  ++ map appResult (filteredApps v)
  ++ map fileResult (filteredFiles v)
  ++ map everythingResult
       (sliceTo (Launcher.displayedResultsCount (core v))
                (Launcher.everythingResults (core v))).

Definition results (v : View) : list SearchResult := combinedResults v.

(** [results[i]] for a JavaScript number [i]. *)
Definition at_ (l : list SearchResult) (i : Z) : option SearchResult :=
  if (i <? 0)%Z then None else nth_error l (Z.to_nat i).

Definition setSelectedIndex (i : Z) (v : View) : View :=
  {| core := core v; filteredApps := filteredApps v;
     filteredFiles := filteredFiles v; selectedIndex := i |}.

(** [setQuery(value)]: when the value differs the query effect runs; for
    a blank value its body also empties the application and file-history
    results and sets the selected row to 0. *)
Definition setQuery (value : jsstring) (v : View) : View :=
  let c := Launcher.onQueryChange value (core v) in
  if negb (eqb value (Launcher.queryText (core v))) && eqb (trim value) []
  then {| core := c; filteredApps := []; filteredFiles := [];
          selectedIndex := 0 |}
  else {| core := c; filteredApps := filteredApps v;
          filteredFiles := filteredFiles v;
          selectedIndex := selectedIndex v |}.

(** The awaited calls to the backend. *)
Inductive apiCall : Type :=
| OpenUrl (u : jsstring)
| LaunchApplication (a : SearchUtils.AppInfo)
| LaunchFile (p : jsstring)
| AddFileToHistory (p : jsstring)
| HideLauncher.

Inductive effect : Type :=
| PreventDefault
| StopPropagation
| Api (c : apiCall).

(** Awaited calls in sequence inside a [try]: the calls made, and
    whether all of them resolved. A call that rejects is the last. *)
Fixpoint attempt (fails : apiCall -> bool) (cs : list apiCall)
  : list apiCall * bool :=
  match cs with
  | [] => ([], true)
  | c :: tl =>
      if fails c then ([c], false)
      else let (made, ok) := attempt fails tl in (c :: made, ok)
  end.

(** The calls [handleLaunch] awaits for a result, in order. *)
Definition launchCalls (r : SearchResult) : list apiCall :=
  match type r, url r, app r, file r, everything r with
  | Url, Some (c :: u), _, _, _ => [OpenUrl (c :: u)]
  | App, _, Some a, _, _ => [LaunchApplication a]
  | File, _, _, Some f, _ => [LaunchFile (SearchUtils.filePath f)]
  | EverythingFile, _, _, _, Some e =>
      [LaunchFile (Everything.path e); AddFileToHistory (Everything.path e)]
  | _, _, _, _, _ => []
  end
  ++ [HideLauncher].

(** [handleLaunch(result)]: when no call rejects the query is emptied and
    the selected row set to 0; a rejection is logged and nothing else
    happens. *)
Definition handleLaunch (fails : apiCall -> bool) (r : SearchResult)
  (v : View) : View * list effect :=
  let (made, ok) := attempt fails (launchCalls r) in
  (if ok then setSelectedIndex 0 (setQuery [] v) else v, map Api made).

(** [handleKeyDown] of the component. *)
Definition handleKeyDown (fails : apiCall -> bool) (e : Keyboard.KeyEvent)
  (v : View) : View * list effect :=
  if Keyboard.keyIs e "Escape" || (Keyboard.keyCode e =? 27)%Z then
    let (made, ok) := attempt fails [HideLauncher] in
    (if ok then setSelectedIndex 0 (setQuery [] v) else v,
     [PreventDefault; StopPropagation] ++ map Api made)
  else if Keyboard.keyIs e "ArrowDown" then
    let prev := selectedIndex v in
    (setSelectedIndex
       (if (prev <? Z.of_nat (length (results v)) - 1)%Z
        then (prev + 1)%Z else prev) v,
     [PreventDefault])
  else if Keyboard.keyIs e "ArrowUp" then
    let prev := selectedIndex v in
    (setSelectedIndex (if (prev >? 0)%Z then (prev - 1)%Z else 0%Z) v,
     [PreventDefault])
  else if Keyboard.keyIs e "Enter" then
    match at_ (results v) (selectedIndex v) with
    | Some r =>
        let (v', effs) := handleLaunch fails r v in
        (v', PreventDefault :: effs)
    | None => (v, [PreventDefault])
    end
  else (v, []).

(** What happens to the launcher: an event of the disk-search part, the
    answers of the two other searches, a key. *)
Inductive event : Type :=
| Core (e : Launcher.event)
| AppsFound (rs : list SearchUtils.AppInfo)        (* setFilteredApps(results) *)
| FilesFound (rs : list SearchUtils.FileHistoryItem)
| KeyDown (fails : apiCall -> bool) (e : Keyboard.KeyEvent).

(** Does the event make the query effect run? It runs when [query] or
    [isEverythingAvailable] changed. *)
Definition effectRuns (s : Launcher.State) (e : Launcher.event) : bool :=
  match e with
  | Launcher.QueryChange value => negb (eqb value (Launcher.queryText s))
  | Launcher.StatusChecked st | Launcher.StatusRechecked _ st =>
      negb (Bool.eqb (available st) (Launcher.isEverythingAvailable s))
  | Launcher.StatusRecheckFailed _ => Launcher.isEverythingAvailable s
  | _ => false
  end.

Definition step (v : View) (ev : event) : View :=
  match ev with
  | Core e =>
      let c := Launcher.step (core v) e in
      if effectRuns (core v) e && eqb (trim (Launcher.queryText c)) []
      then {| core := c; filteredApps := []; filteredFiles := [];
              selectedIndex := 0 |}
      else {| core := c; filteredApps := filteredApps v;
              filteredFiles := filteredFiles v;
              selectedIndex := selectedIndex v |}
  | AppsFound rs =>
      {| core := core v; filteredApps := rs;
         filteredFiles := filteredFiles v; selectedIndex := selectedIndex v |}
  | FilesFound rs =>
      {| core := core v; filteredApps := filteredApps v;
         filteredFiles := rs; selectedIndex := selectedIndex v |}
  | KeyDown fails e => fst (handleKeyDown fails e v)
  end.

Definition init : View :=
  {| core := Launcher.init; filteredApps := []; filteredFiles := [];
     selectedIndex := 0 |}.

Definition run (v : View) (evs : list event) : View := fold_left step evs v.

End LauncherView.

(* ===================================================================== *)
(** ** EverythingSearchWindow.tsx: the selected row and the keys *)
(* ===================================================================== *)

Module ESWView.
Import JS Everything.

(** The search window with its selected row. *)
Record View : Type := { core : ESW.State; selectedIndex : Z }.

Inductive effect : Type :=
| PreventDefault
| CloseWindow                          (* handleClose() *)
| Api (c : LauncherView.apiCall).

(** Does the handler of the event call [setResults]? Every call passes a
    new array, so [results] changes and the effect that depends on it
    runs [setSelectedIndex(0)]. *)
Definition setsResults (s : ESW.State) (e : ESW.event) : bool :=
  match e with
  | ESW.QueryChange value =>
      negb (eqb value (ESW.queryText s)) && eqb (trim value) []
  | ESW.Elapse dt =>
      match ESW.timer s with
      | Some t =>
          if (ESW.remaining t <=? dt)%Z then
            let searchQuery := ESW.timerQuery t in
            if match searchQuery with [] => true | _ => false end
               || eqb (trim searchQuery) []
            then true
            else if negb (ESW.isEverythingAvailable s) then true
            else negb (ESW.currentQueryIs searchQuery s)
          else false
      | None => false
      end
  | ESW.Batch _ => negb (ESW.currentCancelled s)
  | ESW.Resolved searchQuery _ =>
      negb (ESW.currentCancelled s
            || negb (ESW.currentQueryIs searchQuery s))
  | ESW.Rejected _ _ => negb (ESW.currentCancelled s)
  | ESW.StatusRechecked _ st | ESW.StatusChecked st =>
      negb (Bool.eqb (available st) (ESW.isEverythingAvailable s))
      && eqb (trim (ESW.queryText s)) []
  | ESW.StatusRecheckFailed _ => false
  end.

Definition results (v : View) : list EverythingResult := ESW.items (core v).

(** [results[i]] for a JavaScript number [i]. *)
Definition at_ (l : list EverythingResult) (i : Z) : option EverythingResult :=
  if (i <? 0)%Z then None else nth_error l (Z.to_nat i).

Definition setSelectedIndex (i : Z) (v : View) : View :=
  {| core := core v; selectedIndex := i |}.

(** [handleLaunch(result)]: the two awaited calls inside a [try]. *)
Definition handleLaunch (fails : LauncherView.apiCall -> bool)
  (result : EverythingResult) : list effect :=
  map Api (fst (LauncherView.attempt fails
                  [LauncherView.LaunchFile (path result);
                   LauncherView.AddFileToHistory (path result)])).

(** The [keydown] listener on the document. *)
Definition handleKeyDown (fails : LauncherView.apiCall -> bool)
  (e : Keyboard.KeyEvent) (v : View) : View * list effect :=
  if Keyboard.keyIs e "Escape" then (v, [CloseWindow])
  else if Keyboard.keyIs e "ArrowDown" then
    let prev := selectedIndex v in
    (setSelectedIndex
       (if (prev <? Z.of_nat (length (results v)) - 1)%Z
        then (prev + 1)%Z else prev) v,
     [PreventDefault])
  else if Keyboard.keyIs e "ArrowUp" then
    let prev := selectedIndex v in
    (setSelectedIndex (if (prev >? 0)%Z then (prev - 1)%Z else 0%Z) v,
     [PreventDefault])
  else if Keyboard.keyIs e "Enter" then
    match at_ (results v) (selectedIndex v) with
    | Some r => (v, PreventDefault :: handleLaunch fails r)
    | None => (v, [])
    end
  else (v, []).

Inductive event : Type :=
| Core (e : ESW.event)
| KeyDown (fails : LauncherView.apiCall -> bool) (e : Keyboard.KeyEvent).

Definition step (v : View) (ev : event) : View :=
  match ev with
  | Core e =>
      {| core := ESW.step (core v) e;
         selectedIndex := if setsResults (core v) e then 0%Z
                          else selectedIndex v |}
  | KeyDown fails e => fst (handleKeyDown fails e v)
  end.

Definition init : View := {| core := ESW.init; selectedIndex := 0 |}.

Definition run (v : View) (evs : list event) : View := fold_left step evs v.

End ESWView.

(* ===================================================================== *)
(** ** LauncherWindow.tsx: [handlePaste] *)
(* ===================================================================== *)

Module Paste.
Import JS Regex.

(** [s.replace(re, '')] with the [g] flag: every match is cut out. [i] is
    lastIndex and [s] the input from [i] on; after an empty match
    lastIndex moves one code unit forward, so [length s + 1] rounds
    suffice. *)
Fixpoint removeFrom (fuel : nat) (r : re) (i : nat) (s : jsstring)
  : jsstring :=
  match fuel with
  | O => s
  | S fuel' =>
      match exec r i s with
      | None => s
      | Some (st, e) =>
          let from_st := skipn (st - i) s in
          firstn (st - i) s
          ++ (if Nat.eqb (idx e) st
              then match from_st with
                   | [] => []
                   | c :: tl => c :: removeFrom fuel' r (S st) tl
                   end
              else removeFrom fuel' r (idx e) (rest e))
      end
  end.

Definition replaceAllWithEmpty (r : re) (s : jsstring) : jsstring :=
  removeFrom (length s + 1) r 0 s.

(** The double and the single quote. *)
Definition quote (c : N) : bool := ((c =? 34) || (c =? chr "'"))%N.

(** A quote at the start or a quote at the end of the text. *)
Definition quoteRe : re :=
  Alt (Seq Bol (Class quote)) (Seq (Class quote) Eol).

(** [/^[A-Za-z]:/] *)
Definition driveRe : re := cat [Bol; Class alpha; lit ":"].

(** [s.split(sep)[0]] for a separator of one code unit: the text before
    its first occurrence, the whole text when there is none. *)
Fixpoint beforeFirst (sep : N) (s : jsstring) : jsstring :=
  match s with
  | [] => []
  | c :: tl => if (c =? sep)%N then [] else c :: beforeFirst sep tl
  end.

(** What the handler reads from the clipboard event; [getData] gives the
    empty string for a format that is absent. *)
Record Clipboard : Type :=
  { types : list jsstring;
    filesLength : nat;
    uriList : jsstring;       (* getData("text/uri-list") *)
    text : jsstring;          (* getData("text") *)
    textPlain : jsstring }.   (* getData("text/plain") *)

(** The outcome of the awaited [tauriApi.getClipboardFilePath()]. *)
Inductive ApiPath : Type :=
| Rejected
| Resolved (p : option jsstring).

Inductive effect : Type :=
| PreventDefault
| StopPropagation
| GetClipboardFilePath
| ProcessPastedPath (p : jsstring).

(** [a || b] on strings. *)
Definition orElse (a b : jsstring) : jsstring :=
  match a with [] => b | _ :: _ => a end.

(** [pastedText.includes(backslash) || pastedText.includes("/") ||
     pastedText.match(driveRe)] *)
Definition looksLikePath (s : jsstring) : bool :=
  includes [92%N] s || includes (str "/") s || test driveRe s.

(** The text the second part of the handler works on. *)
Definition pastedText (cb : Clipboard) : jsstring :=
  let t := orElse (text cb) (textPlain cb) in
  match t with
  | [] => []
  | _ :: _ =>
      let t := replaceAllWithEmpty quoteRe t in
      beforeFirst (chr "013") (beforeFirst (chr "010") t)
  end.

(** [handlePaste(e)]: what it does, in order. *)
Definition handlePaste (cb : Clipboard) (api : ApiPath) : list effect :=
  if existsb (eqb (str "Files")) (types cb) then
    [PreventDefault; StopPropagation]
    ++ (if Nat.ltb 0 (filesLength cb) then
          let pathText :=
            orElse (uriList cb) (orElse (text cb) (textPlain cb)) in
          match pathText with
          | [] =>
              GetClipboardFilePath
              :: match api with
                 | Resolved (Some (c :: p)) => [ProcessPastedPath (c :: p)]
                 | _ => []
                 end
          | _ :: _ => [ProcessPastedPath pathText]
          end
        else [])
  else
    let t := pastedText cb in
    let isPath :=
      match t with [] => false | _ :: _ => true end
      && Nat.ltb 0 (length (trim t)) && looksLikePath t in
    if isPath
    then [PreventDefault; StopPropagation; ProcessPastedPath (trim t)]
    else [].

End Paste.

(* ===================================================================== *)
(** ** Vocabulary of the properties *)
(* ===================================================================== *)

Module Props.
Import JS Everything.

(** The number of entries of a batch whose path is not among [seen]:
    an entry counts each time it occurs, so a new path that the batch
    holds twice counts twice. This is what the listener appends. *)
Fixpoint countNovelEntries (seen : list jsstring)
  (batch : list EverythingResult) : nat :=
  match batch with
  | [] => 0
  | r :: tl =>
      (if in_dec jsstring_eq_dec (path r) seen then 0 else 1)
      + countNovelEntries seen tl
  end.

(** The number of paths in the batch not previously present, as the
    specification counts them: the paths of the batch that are not among
    [seen], each path once. *)
Definition countNovelPaths (seen : list jsstring)
  (batch : list EverythingResult) : nat :=
  length (nodup jsstring_eq_dec
            (filter (fun p => negb (has p seen)) (map path batch))).



(** Keystrokes: each new value of the input with the pause that follows. *)
Definition typing := list (jsstring * Z).

Definition typingL (t : typing) : list Launcher.event :=
  flat_map (fun k => [Launcher.QueryChange (fst k); Launcher.Elapse (snd k)]) t.

Definition typingE (t : typing) : list ESW.event :=
  flat_map (fun k => [ESW.QueryChange (fst k); ESW.Elapse (snd k)]) t.

(** Every value differs from the one before it, starting from [q0]. *)
Fixpoint realChanges (q0 : jsstring) (vs : list jsstring) : Prop :=
  match vs with
  | [] => True
  | v :: tl => v <> q0 /\ realChanges v tl
  end.

(** Every pause is shorter than the debounce delay. *)
Definition pausesBelow (delay : Z) (t : typing) : Prop :=
  Forall (fun k => (0 <= snd k < delay)%Z) t.

Definition blank (v : jsstring) : bool := eqb (trim v) [].

(** Case-insensitive test for the two schemes. *)
Definition hasHttpScheme (u : jsstring) : bool :=
  startsWith (str "http://") (map lowerAscii u)
  || startsWith (str "https://") (map lowerAscii u).

(** Case-sensitive test for the two schemes. *)
Definition beginsWithHttp (u : jsstring) : bool :=
  startsWith (str "http://") u || startsWith (str "https://") u.

(** A result whose path is [C:\f<n>.txt]. *)
Definition fileNo (n : nat) : EverythingResult :=
  {| path := str ("C:\f" ++ NilEmpty.string_of_uint (Nat.to_uint n) ++ ".txt");
     name := str ("f" ++ NilEmpty.string_of_uint (Nat.to_uint n) ++ ".txt");
     size := None |}.

Definition files (n : nat) : list EverythingResult := map fileNo (seq 0 n).

(** A run of batch events. *)
Definition batchesE (s : ESW.State) (bs : list BatchPayload) : ESW.State :=
  fold_left (fun st p => ESW.onBatch p st) bs s.

Definition batchesL (s : Launcher.State) (bs : list BatchPayload)
  : Launcher.State :=
  fold_left (fun st p => Launcher.onBatch p st) bs s.

(** Sample data: the backend reported available, a query typed and its
    debounce delay elapsed, so that its request is the current one. *)
Definition statusAvailable : Status := {| available := true; error := None |}.

Definition statusUnavailable : Status :=
  {| available := false; error := Some (str "SERVICE_NOT_RUNNING") |}.

Definition launcherSearching (q : string) : Launcher.State :=
  Launcher.run Launcher.init
    [Launcher.StatusChecked statusAvailable; Launcher.QueryChange (str q);
     Launcher.Elapse 500].

Definition windowSearching (q : string) : ESW.State :=
  ESW.run ESW.init
    [ESW.StatusChecked statusAvailable; ESW.QueryChange (str q);
     ESW.Elapse 300].

Definition batchOf (rs : list EverythingResult) (total : Z) : BatchPayload :=
  {| batch_results := rs; batch_total_count := total;
     batch_current_count := Z.of_nat (length rs) |}.

Definition responseOf (rs : list EverythingResult) : SearchResponse :=
  {| results := rs; total_count := Z.of_nat (length rs) |}.

(** Sample run of the search window: "a" is committed, then "ab" is
    committed while the call for "a" is still pending, and a batch of the
    search for "ab" has arrived. *)
Definition windowSuperseded : ESW.State :=
  ESW.run ESW.init
    [ESW.StatusChecked statusAvailable;
     ESW.QueryChange (str "a"); ESW.Elapse 300;
     ESW.QueryChange (str "ab"); ESW.Elapse 300;
     ESW.Batch (batchOf [fileNo 1] 5)].

(** The same run in the launcher, up to the response for "ab". *)
Definition launcherSuperseded : Launcher.State :=
  Launcher.run Launcher.init
    [Launcher.StatusChecked statusAvailable;
     Launcher.QueryChange (str "a"); Launcher.Elapse 500;
     Launcher.QueryChange (str "ab"); Launcher.Elapse 500;
     Launcher.Resolved (str "ab") (responseOf [fileNo 1])].

(** Sample run of the launcher: the response for "a" has been applied. *)
Definition launcherFinal : Launcher.State :=
  Launcher.searchResolved (str "a") (responseOf [fileNo 1; fileNo 2])
    (launcherSearching "a").

(** The observable result state of the two front ends. *)
Definition observableE (s : ESW.State)
  : list EverythingResult * option Z * Z :=
  (ESW.items s, ESW.totalCount s, ESW.currentCount s).

Definition observableL (s : Launcher.State)
  : list EverythingResult * option Z * Z :=
  (Launcher.everythingResults s, Launcher.everythingTotalCount s,
   Launcher.everythingCurrentCount s).

(** [everythingResults.length] and [everythingTotalCount ?? length]. *)
Definition resultCount (s : Launcher.State) : Z :=
  Z.of_nat (length (Launcher.everythingResults s)).

Definition knownTotal (s : Launcher.State) : Z :=
  match Launcher.everythingTotalCount s with
  | Some t => t
  | None => resultCount s
  end.


(** A scroll position at the bottom of the list. *)
Definition atBottom : Launcher.ScrollMetrics :=
  {| Launcher.scrollTop := 600; Launcher.scrollHeight := 1000;
     Launcher.clientHeight := 400 |}.

(** Scenario B: batches announce 1200 matches, then the call resolves
    with 1200 results. *)
Definition launcher1200 : Launcher.State :=
  Launcher.run (launcherSearching "a")
    [Launcher.Batch (batchOf (files 500) 1200);
     Launcher.Batch (batchOf (files 1000) 1200);
     Launcher.Resolved (str "a") (responseOf (files 1200))].

(** Sample run of the launcher: after the 1200 results for "a" and one
    scroll to the bottom the disk search becomes unavailable, then "b" is
    typed and its timer fires. *)
Definition launcherCommitsUnavailable : Launcher.State :=
  Launcher.run launcher1200
    [Launcher.Scroll atBottom;
     Launcher.StatusChecked statusUnavailable;
     Launcher.QueryChange (str "b"); Launcher.Elapse 500].

(** What one debounce window may commit, by the last value typed: the
    timer callback's runs and the adapter calls, in the launcher (which
    hands on the raw value) and in the search window (which hands on the
    trimmed value, and skips the adapter when unavailable or when the
    current request already has that query). *)
Definition firedL (last : jsstring) : list jsstring :=
  if blank last then [] else [last].

Definition callsL (s : Launcher.State) (last : jsstring) : list Launcher.call :=
  if blank last then []
  else Launcher.AppsCall last :: Launcher.FilesCall last
       :: (if Launcher.isEverythingAvailable s
           then [Launcher.EverythingCall last] else []).

Definition firedE (last : jsstring) : list jsstring :=
  if blank last then [] else [trim last].

Definition callsE (s : ESW.State) (last : jsstring) : list jsstring :=
  if negb (blank last) && ESW.isEverythingAvailable s
     && negb (ESW.currentQueryIs (trim last) s)
  then [trim last] else [].

(** The launcher with the backend reported available, nothing typed. *)
Definition launcherIdle : Launcher.State :=
  Launcher.run Launcher.init [Launcher.StatusChecked statusAvailable].

Definition windowIdle : ESW.State :=
  ESW.run ESW.init [ESW.StatusChecked statusAvailable].

(** Sample data for the keyboard handler. *)
Definition entryNo (n : nat) : Keyboard.SearchResult :=
  {| Keyboard.resultType := str "app";
     Keyboard.displayName := name (fileNo n);
     Keyboard.resultPath := path (fileNo n) |}.

Definition entries (n : nat) : list Keyboard.SearchResult :=
  map entryNo (seq 0 n).

Definition noOverlays : Keyboard.Overlays :=
  {| Keyboard.contextMenu := None; Keyboard.errorMessage := None;
     Keyboard.isPluginListModalOpen := false;
     Keyboard.isMemoModalOpen := false;
     Keyboard.isRemarkModalOpen := false;
     Keyboard.editingRemarkUrl := None; Keyboard.remarkText := [] |}.

(** A launcher with [nH] horizontal and [nV] vertical results and the
    given selection. *)
Definition navState (nH nV : nat) (sel : Keyboard.NavigationSelection)
  : Keyboard.State :=
  {| Keyboard.query := str "q";
     Keyboard.overlays := noOverlays;
     Keyboard.pastedImageDataUrl := None;
     Keyboard.pastedImagePath := None;
     Keyboard.selectedHorizontalIndex := fst (Keyboard.indicesOf sel);
     Keyboard.selectedVerticalIndex := snd (Keyboard.indicesOf sel);
     Keyboard.lists :=
       {| Keyboard.results := entries nH ++ entries nV;
          Keyboard.horizontalResults := entries nH;
          Keyboard.verticalResults := entries nV;
          Keyboard.horizontalResultsRef := entries nH;
          Keyboard.currentLoadResultsRef := entries nH ++ entries nV |};
     Keyboard.isHorizontalNavigationRef := false;
     Keyboard.justJumpedToVerticalRef := false |}.

Definition pressed (k : string) (code : Z) : Keyboard.KeyEvent :=
  {| Keyboard.key := str k; Keyboard.keyCode := code |}.

(** The input is mounted and focused, caret at the end of one character. *)
Definition inputFocused : Keyboard.Dom :=
  {| Keyboard.inputMounted := true; Keyboard.inputIsActive := true;
     Keyboard.selectionStart := Some 1%Z; Keyboard.selectionEnd := Some 1%Z;
     Keyboard.valueLength := 1 |}.

(** The input is mounted but the focus is elsewhere. *)
Definition inputBlurred : Keyboard.Dom :=
  {| Keyboard.inputMounted := true; Keyboard.inputIsActive := false;
     Keyboard.selectionStart := Some 1%Z; Keyboard.selectionEnd := Some 1%Z;
     Keyboard.valueLength := 1 |}.

Definition keyDown (k : string) (code : Z) (d : Keyboard.Dom)
  : Keyboard.event :=
  Keyboard.KeyDown (pressed k code) d.

(** Sample run of the search window: the response for "a" has been
    applied. *)
Definition windowFinal : ESW.State :=
  ESW.searchResolved (str "a") (responseOf [fileNo 1; fileNo 2])
    (windowSearching "a").

(** Sample run of the launcher: "a" is committed, the input is changed to
    "ab" and back to "a" within the delay, and "a" is committed a second
    time while the first call is still pending. *)
Definition launcherRequeried : Launcher.State :=
  Launcher.run Launcher.init
    [Launcher.StatusChecked statusAvailable;
     Launcher.QueryChange (str "a"); Launcher.Elapse 500;
     Launcher.QueryChange (str "ab"); Launcher.Elapse 100;
     Launcher.QueryChange (str "a"); Launcher.Elapse 500].

(** [y] is a match state that lies at or after [x] in the same input. *)
Definition within (x y : Regex.pos) : Prop :=
  length (Regex.rest y) <= length (Regex.rest x)
  /\ Regex.idx y + length (Regex.rest y)
     = Regex.idx x + length (Regex.rest x).

(** A matcher that consults its continuation only at states within the
    one it starts from. *)
Definition respects (m : Regex.pos -> Regex.cont -> option Regex.pos) : Prop :=
  forall x c c', (forall y, within x y -> c y = c' y) -> m x c = m x c'.

(** A matcher whose result is the continuation's at such a state. *)
Definition answers (m : Regex.pos -> Regex.cont -> option Regex.pos) : Prop :=
  forall x c e, m x c = Some e -> exists y, within x y /\ c y = Some e.

(** [y] is reached from [x] by consuming [seg]. *)
Definition consumed (x y : Regex.pos) (seg : jsstring) : Prop :=
  Regex.rest x = seg ++ Regex.rest y
  /\ Regex.idx y = Regex.idx x + length seg.

(** A matcher whose result is the continuation's at a state reached by
    consuming characters of the class [P] only. *)
Definition emits (P : N -> bool)
  (m : Regex.pos -> Regex.cont -> option Regex.pos) : Prop :=
  forall x c e,
    m x c = Some e ->
    exists y seg, consumed x y seg /\ forallb P seg = true /\ c y = Some e.

(** Every character class of the pattern outside a lookahead accepts
    characters of [P] only. *)
Fixpoint classesWithin (P : N -> bool) (r : Regex.re) : Prop :=
  match r with
  | Regex.Class p => forall ch, p ch = true -> P ch = true
  | Regex.Seq a b | Regex.Alt a b => classesWithin P a /\ classesWithin P b
  | Regex.Rep _ _ a => classesWithin P a
  | Regex.NotAhead _ | Regex.Bol | Regex.Eol | Regex.Empty => True
  end.

(** [s] occurs in [text] as a run of consecutive code units. *)
Definition substringOf (s text : jsstring) : Prop :=
  exists pre post, text = pre ++ s ++ post.

(** A string without its final run of the punctuation marks
    [. , ; : ! ?]. *)
Fixpoint stripTrailing (s : jsstring) : jsstring :=
  match s with
  | [] => []
  | c :: tl =>
      if forallb Urls.trailingPunct (c :: tl) then [] else c :: stripTrailing tl
  end.

(** The last code unit exists and is none of those marks. *)
Definition endsClean (u : jsstring) : bool :=
  match rev u with
  | c :: _ => negb (Urls.trailingPunct c)
  | [] => false
  end.

(** At most one request of the store is not cancelled, and it is the one
    [currentSearchRef] holds. *)
Definition liveIsCurrent (h : store) (ref : option nat) : Prop :=
  (forall i, ref = Some i -> i < length h)
  /\ forall j r, nth_error h j = Some r ->
                 (cancelled r = false <-> ref = Some j).

(** What a handler may do to the store and the ref: nothing, cancel the
    current request and drop it, or cancel it and install a new one. *)
Definition refsMove (h : store) (ref : option nat)
  (h' : store) (ref' : option nat) : Prop :=
  (h' = h /\ ref' = ref)
  \/ (exists i, ref = Some i /\ h' = cancel i h /\ ref' = None)
  \/ (exists q,
        let h0 := match ref with
                  | Some i => cancel i h
                  | None => h
                  end in
        h' = h0 ++ [{| query := q; cancelled := false |}]
        /\ ref' = Some (length h0)).

(** What holds of the launcher in every state it reaches: the request
    objects, the detected URLs, the pending timer and what is left when
    the input is blank. *)
Definition launcherInv (s : Launcher.State) : Prop :=
  liveIsCurrent (Launcher.requests s) (Launcher.currentSearchRef s)
  /\ Launcher.detectedUrls s = Urls.extractUrls (Launcher.queryText s)
  /\ (forall t, Launcher.timer s = Some t ->
                Launcher.timerQuery t = Launcher.queryText s
                /\ blank (Launcher.queryText s) = false)
  /\ (blank (Launcher.queryText s) = true ->
      Launcher.currentSearchRef s = None
      /\ Launcher.everythingResults s = []
      /\ Launcher.isSearchingEverything s = false)
  /\ (0 <= Launcher.displayedResultsCount s)%Z.

(** The launcher has nothing left of a disk search. *)
Definition launcherCleared (s : Launcher.State) : Prop :=
  Launcher.currentSearchRef s = None
  /\ Launcher.timer s = None
  /\ Launcher.everythingResults s = []
  /\ Launcher.detectedUrls s = []
  /\ Launcher.isSearchingEverything s = false.

(** A query as the search window hands it on: trimmed and not empty. *)
Definition trimmedQuery (q : jsstring) : Prop := trim q = q /\ q <> [].

(** No entry of the list is followed by an equal one. *)
Fixpoint noRepeat (l : list jsstring) : Prop :=
  match l with
  | a :: tl =>
      match tl with
      | b :: _ => a <> b
      | [] => True
      end /\ noRepeat tl
  | [] => True
  end.

(** The request the ref holds was made for the last query sent. *)
Definition lastCallIsCurrent (s : ESW.State) : Prop :=
  match ESW.currentSearchRef s with
  | None => ESW.calls s = []
  | Some i =>
      exists r l, nth_error (ESW.requests s) i = Some r
                  /\ ESW.calls s = l ++ [query r]
  end.

(** What holds of the search window in every state it reaches. *)
Definition windowInv (s : ESW.State) : Prop :=
  (forall t, ESW.timer s = Some t -> trimmedQuery (ESW.timerQuery t))
  /\ Forall trimmedQuery (ESW.calls s)
  /\ lastCallIsCurrent s
  /\ noRepeat (ESW.calls s).

(** Every batch event of the run carries pairwise different paths. *)
Definition distinctBatches (es : list ESW.event) : Prop :=
  Forall (fun e => match e with
                   | ESW.Batch p => NoDup (map path (batch_results p))
                   | _ => True
                   end) es.

(** The queries of the calls to one adapter, oldest first. *)
Definition appQueries (cs : list Launcher.call) : list jsstring :=
  flat_map (fun c => match c with Launcher.AppsCall q => [q] | _ => [] end) cs.

Definition fileQueries (cs : list Launcher.call) : list jsstring :=
  flat_map (fun c => match c with Launcher.FilesCall q => [q] | _ => [] end) cs.

Definition diskQueries (cs : list Launcher.call) : list jsstring :=
  flat_map (fun c => match c with
                     | Launcher.EverythingCall q => [q]
                     | _ => []
                     end) cs.

(** The adapter calls of the launcher against the firings of its timer. *)
Definition launcherLog (s : Launcher.State) : Prop :=
  appQueries (Launcher.calls s) = Launcher.fired s
  /\ fileQueries (Launcher.calls s) = Launcher.fired s
  /\ incl (diskQueries (Launcher.calls s)) (Launcher.fired s)
  /\ Forall (fun q => blank q = false) (Launcher.fired s).

(** The entry under the selection, if any. *)
Definition selectedEntry (s : Keyboard.State) : option Keyboard.SearchResult :=
  match Keyboard.selectedHorizontalIndex s, Keyboard.selectedVerticalIndex s with
  | Some i, _ =>
      nth_error (Keyboard.horizontalResults (Keyboard.lists s)) (Z.to_nat i)
  | None, Some j =>
      nth_error (Keyboard.verticalResults (Keyboard.lists s)) (Z.to_nat j)
  | None, None => None
  end.

(** The engine's prefix is not empty and the query begins with the
    prefix followed by a space. *)
Definition engineMatches (q : jsstring) (e : SearchUtils.SearchEngineConfig)
  : bool :=
  match SearchUtils.prefix e with
  | [] => false
  | _ :: _ => startsWith (SearchUtils.prefixToMatch (SearchUtils.prefix e)) q
  end.

(** Sample engines and an ASCII stand-in for the lower-casing. *)
Definition engineG : SearchUtils.SearchEngineConfig :=
  {| SearchUtils.engineName := str "Google"; SearchUtils.prefix := str "g";
     SearchUtils.url := str "https://www.google.com/search?q={query}" |}.

Definition engineGh : SearchUtils.SearchEngineConfig :=
  {| SearchUtils.engineName := str "GitHub"; SearchUtils.prefix := str "g h ";
     SearchUtils.url := str "https://github.com/search?q={query}" |}.

Definition asciiLower (s : jsstring) : jsstring := map lowerAscii s.

Definition noChinese (s : jsstring) : bool := false.

Definition appNo (n : nat) : SearchUtils.AppInfo :=
  {| SearchUtils.name := name (fileNo n);
     SearchUtils.path := path (fileNo n);
     SearchUtils.icon := None;
     SearchUtils.name_pinyin := None;
     SearchUtils.name_pinyin_initials := None;
     SearchUtils.description := None |}.

Definition usedAt (t : Z) : SearchUtils.FileHistoryItem :=
  {| SearchUtils.fileName := str "f"; SearchUtils.filePath := str "C:\f";
     SearchUtils.last_used := t |}.

(** One of the fields the application search reads mentions the query. *)
Definition appMentions (toLowerCase : jsstring -> jsstring)
  (queryLower : jsstring) (queryIsPinyin : bool) (app : SearchUtils.AppInfo)
  : bool :=
  includes queryLower (toLowerCase (SearchUtils.name app))
  || queryIsPinyin
     && (match SearchUtils.name_pinyin app with
         | Some (c :: p) => includes queryLower (c :: p)
         | _ => false
         end
         || match SearchUtils.name_pinyin_initials app with
            | Some (c :: p) => includes queryLower (c :: p)
            | _ => false
            end)
  || match SearchUtils.description app with
     | Some (c :: d) => includes queryLower (toLowerCase (c :: d))
     | _ => false
     end.

(** Descending in [key], every element against all later ones. *)
Definition descendingBy {A : Type} (key : A -> Z) (l : list A) : Prop :=
  StronglySorted (fun a b => (key b <= key a)%Z) l.

(** The path a backend call acts on. *)
Definition launchTarget (c : LauncherView.apiCall) : option jsstring :=
  match c with
  | LauncherView.OpenUrl u => Some u
  | LauncherView.LaunchApplication a => Some (SearchUtils.path a)
  | LauncherView.LaunchFile p => Some p
  | LauncherView.AddFileToHistory p => Some p
  | LauncherView.HideLauncher => None
  end.

(** The calls that launch a result of the given type and path. *)
Definition launchesShown (r : LauncherView.SearchResult) : Prop :=
  match LauncherView.type r with
  | LauncherView.Url =>
      LauncherView.launchCalls r
      = [LauncherView.OpenUrl (LauncherView.path r); LauncherView.HideLauncher]
  | LauncherView.App =>
      exists a, LauncherView.app r = Some a
                /\ SearchUtils.path a = LauncherView.path r
                /\ LauncherView.launchCalls r
                   = [LauncherView.LaunchApplication a;
                      LauncherView.HideLauncher]
  | LauncherView.File =>
      LauncherView.launchCalls r
      = [LauncherView.LaunchFile (LauncherView.path r);
         LauncherView.HideLauncher]
  | LauncherView.EverythingFile =>
      LauncherView.launchCalls r
      = [LauncherView.LaunchFile (LauncherView.path r);
         LauncherView.AddFileToHistory (LauncherView.path r);
         LauncherView.HideLauncher]
  end.

(** No backend call rejects. *)
Definition allResolve (c : LauncherView.apiCall) : bool := false.

(** The key event closes the launcher: Escape, or Enter on a row. *)
Definition closesLauncher (e : Keyboard.KeyEvent) (v : LauncherView.View)
  : bool :=
  Keyboard.keyIs e "Escape" || (Keyboard.keyCode e =? 27)%Z
  || negb (Keyboard.keyIs e "ArrowDown") && negb (Keyboard.keyIs e "ArrowUp")
     && Keyboard.keyIs e "Enter"
     && match LauncherView.at_ (LauncherView.results v)
                               (LauncherView.selectedIndex v) with
        | Some _ => true
        | None => false
        end.

(** A launcher in which "a" was typed and searched, with one application
    and two files found. *)
Definition viewSearched : LauncherView.View :=
  LauncherView.run LauncherView.init
    [LauncherView.Core (Launcher.StatusChecked statusAvailable);
     LauncherView.Core (Launcher.QueryChange (str "a.io"));
     LauncherView.Core (Launcher.Elapse 500);
     LauncherView.AppsFound [appNo 7];
     LauncherView.Core
       (Launcher.Resolved (str "a.io") (responseOf (files 2)))].

(** The selected row exists whenever there is a row. *)
Definition addressesRow (v : ESWView.View) : Prop :=
  (0 <= ESWView.selectedIndex v)%Z
  /\ (ESWView.selectedIndex v = 0%Z
      \/ (ESWView.selectedIndex v
          < Z.of_nat (length (ESWView.results v)))%Z).

(** A search window in which "f" was searched and three files arrived. *)
Definition windowListed : list ESWView.event :=
  [ESWView.Core (ESW.StatusChecked statusAvailable);
   ESWView.Core (ESW.QueryChange (str "f"));
   ESWView.Core (ESW.Elapse 300);
   ESWView.Core (ESW.Batch (batchOf (files 3) 3));
   ESWView.KeyDown allResolve (pressed "ArrowDown" 40)].

(** The text holds neither a line feed nor a carriage return. *)
Definition singleLine (p : jsstring) : Prop :=
  Forall (fun c => c <> 10%N /\ c <> 13%N) p.

(** The clipboard of a copied path, in quotes and followed by a line
    break. *)
Definition quotedPath : Paste.Clipboard :=
  {| Paste.types := [str "text/plain"]; Paste.filesLength := 0;
     Paste.uriList := [];
     Paste.text := [34%N] ++ str "C:\Users\me\a.txt" ++ [34; 13; 10]%N;
     Paste.textPlain := [] |}.

(** The text without its last character when that is a quote. *)
Fixpoint dropLastQuote (s : jsstring) : jsstring :=
  match s with
  | [] => []
  | c :: tl =>
      match tl with
      | [] => if Paste.quote c then [] else [c]
      | _ :: _ => c :: dropLastQuote tl
      end
  end.

(** The text without a quote that is its first character and without a
    quote that is the last of the characters after the first. *)
Definition stripQuotes (s : jsstring) : jsstring :=
  match s with
  | [] => []
  | c :: tl => (if Paste.quote c then [] else [c]) ++ dropLastQuote tl
  end.

End Props.

(* ===================================================================== *)
(** * Properties *)
(* ===================================================================== *)

Import JS Everything Props.

(** ** Strings and lists *)

Lemma eqb_true_iff (a b : jsstring) : eqb a b = true <-> a = b.
Proof.
  unfold eqb. destruct (jsstring_eq_dec a b); split; congruence.
Qed.

Lemma eqb_false_iff (a b : jsstring) : eqb a b = false <-> a <> b.
Proof.
  unfold eqb. destruct (jsstring_eq_dec a b); split; congruence.
Qed.

Lemma eqb_refl (a : jsstring) : eqb a a = true.
Proof. now apply eqb_true_iff. Qed.

Lemma has_In (p : jsstring) (seen : list jsstring) :
  has p seen = true <-> In p seen.
Proof.
  unfold has. rewrite existsb_exists. split.
  - intros [x [Hin Heq]]. apply eqb_true_iff in Heq. now subst.
  - intros Hin. exists p. split; [assumption | apply eqb_refl].
Qed.

Lemma has_app (p : jsstring) (a b : list jsstring) :
  has p (a ++ b) = has p a || has p b.
Proof. unfold has. apply existsb_app. Qed.

Lemma filter_twice {A : Type} (f g : A -> bool) (l : list A) :
  filter f (filter g l) = filter (fun x => g x && f x) l.
Proof.
  induction l as [|a l IH]; simpl; [reflexivity|].
  destruct (g a); simpl; [destruct (f a)|]; now rewrite IH.
Qed.

(** ** Batch merging (EverythingSearchWindow) *)

Lemma countNovelEntries_filter (seen : list jsstring)
  (batch : list EverythingResult) :
  length (filter (fun r => negb (has (path r) seen)) batch)
  = countNovelEntries seen batch.
Proof.
  induction batch as [|r tl IH]; simpl; [reflexivity|].
  destruct (in_dec jsstring_eq_dec (path r) seen) as [Hin|Hnin].
  - apply has_In in Hin. rewrite Hin. simpl. exact IH.
  - destruct (has (path r) seen) eqn:Hh.
    + apply has_In in Hh. contradiction.
    + simpl. now rewrite IH.
Qed.

Lemma merge_known_batch (prev batch : list EverythingResult) :
  (forall r, In r batch -> In (path r) (map path prev)) ->
  ESW.mergeBatch prev batch = prev.
Proof.
  intros Hall. unfold ESW.mergeBatch.
  rewrite <- (app_nil_r prev) at 2. f_equal.
  induction batch as [|r tl IH]; simpl; [reflexivity|].
  assert (Hr : has (path r) (map path prev) = true).
  { apply has_In. apply Hall. now left. }
  rewrite Hr. simpl. apply IH. intros x Hx. apply Hall. now right.
Qed.

Lemma merge_paths_known (prev batch : list EverythingResult) :
  forall r, In r batch -> In (path r) (map path (ESW.mergeBatch prev batch)).
Proof.
  intros r Hin. unfold ESW.mergeBatch. rewrite map_app. apply in_or_app.
  destruct (has (path r) (map path prev)) eqn:Hh.
  - left. now apply has_In.
  - right. apply in_map. apply filter_In. split; [assumption|].
    now rewrite Hh.
Qed.

(** A batch that repeats no path keeps the accumulated paths distinct. *)
Lemma merge_keeps_paths_distinct (prev batch : list EverythingResult) :
  NoDup (map path prev) -> NoDup (map path batch) ->
  NoDup (map path (ESW.mergeBatch prev batch)).
Proof.
  intros Hp Hb. unfold ESW.mergeBatch. rewrite map_app.
  induction batch as [|r tl IH]; simpl; [now rewrite app_nil_r|].
  inversion Hb as [|p ps Hnin Hb']; subst.
  destruct (has (path r) (map path prev)) eqn:Hr; simpl; [now apply IH|].
  apply NoDup_Add with (a := path r)
                       (l := map path prev
                             ++ map path
                                  (filter (fun x =>
                                             negb (has (path x) (map path prev)))
                                          tl)).
  - apply Add_app.
  - split; [now apply IH|].
    intros Hin. apply in_app_or in Hin. destruct Hin as [Hin|Hin].
    + apply has_In in Hin. congruence.
    + apply Hnin. apply in_map_iff in Hin. destruct Hin as [x [Hx Hin]].
      apply filter_In in Hin. apply in_map_iff. exists x. tauto.
Qed.

(** The filter looks at the previous items only: a path that occurs twice
    within one batch is appended twice. *)
Lemma merge_repeated_in_batch :
  ESW.mergeBatch [] [fileNo 1; fileNo 1] = [fileNo 1; fileNo 1].
Proof. reflexivity. Qed.

Lemma filter_paths (seen : list jsstring) (batch : list EverythingResult) :
  filter (fun p => negb (has p seen)) (map path batch)
  = map path (filter (fun r => negb (has (path r) seen)) batch).
Proof.
  induction batch as [|r tl IH]; simpl; [reflexivity|].
  destruct (negb (has (path r) seen)); simpl; now rewrite IH.
Qed.

Lemma nodup_shorter (l : list jsstring) :
  length (nodup jsstring_eq_dec l) <= length l.
Proof.
  induction l as [|x l IH]; simpl; [lia|].
  destruct (in_dec jsstring_eq_dec x l); simpl; lia.
Qed.

(** Each new path once is never more than each new entry once; the two
    counts agree on a batch that holds no path twice. *)
Lemma novel_paths_entries (seen : list jsstring)
  (batch : list EverythingResult) :
  countNovelPaths seen batch <= countNovelEntries seen batch
  /\ (NoDup (map path batch) ->
      countNovelPaths seen batch = countNovelEntries seen batch).
Proof.
  unfold countNovelPaths. rewrite <- countNovelEntries_filter.
  rewrite <- (length_map path (filter _ batch)), <- filter_paths. split.
  - apply nodup_shorter.
  - intros Hnd. f_equal. apply nodup_fixed_point. now apply NoDup_filter.
Qed.

(** C4 (the code departs from the claim). The batch listener, unless the
    current request is cancelled, replaces the items by the merge of the
    batch into them. The merge lengthens the items by the number of
    batch entries whose path was not present before, every entry counted
    as often as it occurs. That is the number of paths not previously
    present, which the claim names, only when the batch holds no path
    twice; in general it is at least that number. A batch that brings
    one new path twice lengthens the items by two and leaves them with a
    repeated path. What the claim says of known paths holds: a batch
    whose paths are all present changes nothing, and merging the same
    batch a second time changes nothing. *)
Theorem C4_batch_merge_counts_entries :
  (forall prev batch,
      length (ESW.mergeBatch prev batch)
      = length prev + countNovelEntries (map path prev) batch
      /\ countNovelPaths (map path prev) batch
         <= countNovelEntries (map path prev) batch
      /\ (NoDup (map path batch) ->
          length (ESW.mergeBatch prev batch)
          = length prev + countNovelPaths (map path prev) batch)
      /\ ((forall r, In r batch -> In (path r) (map path prev)) ->
          ESW.mergeBatch prev batch = prev
          /\ length (ESW.mergeBatch prev batch) = length prev)
      /\ ESW.mergeBatch (ESW.mergeBatch prev batch) batch
         = ESW.mergeBatch prev batch)
  /\ (forall s p,
      ESW.items (ESW.onBatch p s)
      = if ESW.currentCancelled s then ESW.items s
        else ESW.mergeBatch (ESW.items s) (batch_results p))
  /\ (ESW.items (windowSearching "a") = []
      /\ ESW.items
           (ESW.step (windowSearching "a")
              (ESW.Batch (batchOf [fileNo 1; fileNo 1] 1)))
         = [fileNo 1; fileNo 1]
      /\ countNovelPaths (map path (ESW.items (windowSearching "a")))
                         [fileNo 1; fileNo 1] = 1
      /\ length (ESW.items
                   (ESW.step (windowSearching "a")
                      (ESW.Batch (batchOf [fileNo 1; fileNo 1] 1)))) = 2
      /\ ~ NoDup (map path
                    (ESW.items
                       (ESW.step (windowSearching "a")
                          (ESW.Batch (batchOf [fileNo 1; fileNo 1] 1)))))).
Proof.
  split; [|split].
  - intros prev batch.
    assert (Hlen : length (ESW.mergeBatch prev batch)
                   = length prev + countNovelEntries (map path prev) batch).
    { unfold ESW.mergeBatch. rewrite length_app. f_equal.
      apply countNovelEntries_filter. }
    destruct (novel_paths_entries (map path prev) batch) as [Hle Heq].
    split; [exact Hlen|]. split; [exact Hle|]. split; [|split].
    + intros Hnd. now rewrite Hlen, (Heq Hnd).
    + intros Hall. rewrite (merge_known_batch prev batch Hall). now split.
    + apply merge_known_batch. apply merge_paths_known.
  - intros s p. unfold ESW.onBatch.
    destruct (ESW.currentCancelled s); reflexivity.
  - assert (Hi : ESW.items
                   (ESW.step (windowSearching "a")
                      (ESW.Batch (batchOf [fileNo 1; fileNo 1] 1)))
                 = [fileNo 1; fileNo 1]) by (vm_compute; reflexivity).
    rewrite Hi. repeat split; try (vm_compute; reflexivity).
    intros Hnd. inversion Hnd as [|x l Hnin _]. apply Hnin. now left.
Qed.

Lemma C4_batch_merge_counts_entries_witness :
  NoDup (map path [fileNo 2; fileNo 3])
  /\ length (ESW.mergeBatch [fileNo 1; fileNo 2] [fileNo 2; fileNo 3])
     = length [fileNo 1; fileNo 2]
       + countNovelPaths (map path [fileNo 1; fileNo 2]) [fileNo 2; fileNo 3]
  /\ (forall r, In r [fileNo 2; fileNo 1] ->
                In (path r) (map path [fileNo 1; fileNo 2]))
  /\ ESW.mergeBatch [fileNo 1; fileNo 2] [fileNo 2; fileNo 1]
     = [fileNo 1; fileNo 2].
Proof.
  assert (Hnd : NoDup (map path [fileNo 2; fileNo 3])).
  { repeat constructor; cbn; intros H;
      repeat (destruct H as [H|H]; [discriminate H|]); exact H. }
  assert (H : forall r, In r [fileNo 2; fileNo 1] ->
                        In (path r) (map path [fileNo 1; fileNo 2])).
  { intros r [Hr|[Hr|[]]]; subst r; simpl; auto. }
  split; [exact Hnd|]. split; [|split; [exact H|]].
  - exact (proj1 (proj2 (proj2
             (proj1 C4_batch_merge_counts_entries
                [fileNo 1; fileNo 2] [fileNo 2; fileNo 3]))) Hnd).
  - exact (proj1 (proj1 (proj2 (proj2 (proj2
             (proj1 C4_batch_merge_counts_entries
                [fileNo 1; fileNo 2] [fileNo 2; fileNo 1])))) H)).
Defined.

(** ** The final response replaces the accumulation *)

Lemma uniqueResults_from (rs : list EverythingResult) :
  forall seen uniq,
    snd (fold_left ESW.dedupStep rs (seen, uniq))
    = uniq ++ filter (fun x => negb (has (path x) seen))
                     (dedupByPathFirstWins rs).
Proof.
  induction rs as [|r tl IH]; intros seen uniq; simpl.
  - now rewrite app_nil_r.
  - destruct (has (path r) seen) eqn:Hr; simpl; rewrite IH.
    + f_equal. rewrite filter_twice. apply filter_ext_in. intros x _.
      destruct (eqb (path x) (path r)) eqn:He; simpl; [|reflexivity].
      apply eqb_true_iff in He. rewrite He, Hr. reflexivity.
    + rewrite <- app_assoc. simpl. do 2 f_equal.
      rewrite filter_twice. apply filter_ext. intros x.
      rewrite has_app. simpl. unfold has at 2. simpl.
      rewrite orb_false_r, negb_orb. apply andb_comm.
Qed.

(** The loop of the search window computes the de-duplication the
    specification describes. *)
Lemma uniqueResults_dedup (rs : list EverythingResult) :
  ESW.uniqueResults rs = dedupByPathFirstWins rs.
Proof.
  unfold ESW.uniqueResults. rewrite uniqueResults_from. simpl.
  induction (dedupByPathFirstWins rs) as [|x l IH]; simpl; congruence.
Qed.

Lemma batchesE_refs (bs : list BatchPayload) : forall s,
  ESW.requests (batchesE s bs) = ESW.requests s
  /\ ESW.currentSearchRef (batchesE s bs) = ESW.currentSearchRef s.
Proof.
  induction bs as [|p bs IH]; intros s; simpl; [now split|].
  destruct (IH (ESW.onBatch p s)) as [H1 H2]. unfold batchesE in *.
  rewrite H1, H2. unfold ESW.onBatch.
  destruct (ESW.currentCancelled s); now split.
Qed.

Lemma batchesL_refs (bs : list BatchPayload) : forall s,
  Launcher.requests (batchesL s bs) = Launcher.requests s
  /\ Launcher.currentSearchRef (batchesL s bs) = Launcher.currentSearchRef s.
Proof.
  induction bs as [|p bs IH]; intros s; simpl; [now split|].
  destruct (IH (Launcher.onBatch p s)) as [H1 H2]. unfold batchesL in *.
  rewrite H1, H2. unfold Launcher.onBatch.
  destruct (Launcher.currentCancelled s); now split.
Qed.

Lemma finallyE_results (q : jsstring) (s : ESW.State) :
  ESW.items (ESW.finallyBlock q s) = ESW.items s
  /\ ESW.totalCount (ESW.finallyBlock q s) = ESW.totalCount s
  /\ ESW.currentCount (ESW.finallyBlock q s) = ESW.currentCount s.
Proof.
  unfold ESW.finallyBlock.
  destruct (ESW.currentQueryIs q s && negb (ESW.currentCancelled s));
    now repeat split.
Qed.

Lemma finallyL_results (q : jsstring) (s : Launcher.State) :
  Launcher.everythingResults (Launcher.finallyBlock q s)
  = Launcher.everythingResults s
  /\ Launcher.everythingTotalCount (Launcher.finallyBlock q s)
     = Launcher.everythingTotalCount s
  /\ Launcher.everythingCurrentCount (Launcher.finallyBlock q s)
     = Launcher.everythingCurrentCount s
  /\ Launcher.displayedResultsCount (Launcher.finallyBlock q s)
     = Launcher.displayedResultsCount s.
Proof.
  unfold Launcher.finallyBlock.
  destruct (Launcher.currentQueryIs q s && negb (Launcher.currentCancelled s));
    now repeat split.
Qed.

(** In the search window: whatever batches came first, the response of
    the current request leaves its de-duplicated result list and its
    count. *)
Lemma final_overrides_window (s : ESW.State) (q : jsstring)
  (bs : list BatchPayload) (resp : SearchResponse) :
  ESW.currentCancelled s = false ->
  ESW.currentQueryIs q s = true ->
  ESW.items (ESW.searchResolved q resp (batchesE s bs))
  = dedupByPathFirstWins (results resp)
  /\ ESW.totalCount (ESW.searchResolved q resp (batchesE s bs))
     = Some (total_count resp).
Proof.
  intros Hc Hq. destruct (batchesE_refs bs s) as [Hh Hr].
  unfold ESW.searchResolved, ESW.currentCancelled, ESW.currentQueryIs in *.
  rewrite Hh, Hr, Hc, Hq. simpl.
  match goal with |- context [ESW.finallyBlock q ?t] =>
    destruct (finallyE_results q t) as [H1 [H2 _]] end.
  rewrite H1, H2. simpl. split; [apply uniqueResults_dedup | reflexivity].
Qed.

(** In the launcher: the response of the current request leaves its
    result list as it came, and its count. *)
Lemma final_overrides_launcher (s : Launcher.State) (q : jsstring)
  (bs : list BatchPayload) (resp : SearchResponse) :
  Launcher.currentCancelled s = false ->
  Launcher.currentQueryIs q s = true ->
  Launcher.everythingResults (Launcher.searchResolved q resp (batchesL s bs))
  = results resp
  /\ Launcher.everythingTotalCount
       (Launcher.searchResolved q resp (batchesL s bs))
     = Some (total_count resp).
Proof.
  intros Hc Hq. destruct (batchesL_refs bs s) as [Hh Hr].
  unfold Launcher.searchResolved, Launcher.currentCancelled,
    Launcher.currentQueryIs in *.
  rewrite Hh, Hr, Hc, Hq. simpl.
  match goal with |- context [Launcher.finallyBlock q ?t] =>
    destruct (finallyL_results q t) as [H1 [H2 _]] end.
  rewrite H1, H2. simpl. now split.
Qed.

(** A list without repeated paths is its own de-duplication. *)
Lemma dedup_NoDup_id (l : list EverythingResult) :
  NoDup (map path l) -> dedupByPathFirstWins l = l.
Proof.
  induction l as [|r tl IH]; simpl; [reflexivity|].
  intros Hnd. inversion Hnd as [|p ps Hnin Hnd']; subst.
  rewrite (IH Hnd'). f_equal.
  clear IH Hnd Hnd'. induction tl as [|x tl IH]; simpl; [reflexivity|].
  destruct (eqb (path x) (path r)) eqn:He; simpl.
  - apply eqb_true_iff in He. exfalso. apply Hnin. simpl. now left.
  - f_equal. apply IH. intros Hin. apply Hnin. simpl. now right.
Qed.

(** The de-duplication keeps no path twice. *)
Lemma dedup_NoDup (l : list EverythingResult) :
  NoDup (map path (dedupByPathFirstWins l)).
Proof.
  induction l as [|r tl IH]; simpl; [constructor|].
  constructor.
  - intros Hin. apply in_map_iff in Hin. destruct Hin as [x [Hp Hx]].
    apply filter_In in Hx. destruct Hx as [_ Hne].
    apply negb_true_iff, eqb_false_iff in Hne. contradiction.
  - induction (dedupByPathFirstWins tl) as [|x l IHl]; simpl; [constructor|].
    inversion IH as [|p ps Hnin Hnd]; subst.
    destruct (negb (eqb (path x) (path r))); simpl; [|now apply IHl].
    constructor; [|now apply IHl].
    intros Hin. apply Hnin. apply in_map_iff in Hin.
    destruct Hin as [y [Hp Hy]]. apply filter_In in Hy.
    apply in_map_iff. exists y. tauto.
Qed.

(** C1 (amended). For a request that is still the current one, and
    whatever batch events arrived before its response: the search window
    ends with the response's result list de-duplicated by path (first
    occurrence wins) and the response's count; the launcher ends with the
    response's result list as it came (it does not de-duplicate, so this
    is the de-duplicated list exactly when the response repeats no path)
    and the response's count. *)
Theorem C1_final_overrides_partial :
  (forall (s : ESW.State) q bs resp,
      ESW.currentCancelled s = false ->
      ESW.currentQueryIs q s = true ->
      ESW.items (ESW.searchResolved q resp (batchesE s bs))
      = dedupByPathFirstWins (results resp)
      /\ ESW.totalCount (ESW.searchResolved q resp (batchesE s bs))
         = Some (total_count resp))
  /\ (forall (s : Launcher.State) q bs resp,
      Launcher.currentCancelled s = false ->
      Launcher.currentQueryIs q s = true ->
      Launcher.everythingResults
        (Launcher.searchResolved q resp (batchesL s bs))
      = results resp
      /\ (NoDup (map path (results resp)) ->
          Launcher.everythingResults
            (Launcher.searchResolved q resp (batchesL s bs))
          = dedupByPathFirstWins (results resp))
      /\ Launcher.everythingTotalCount
           (Launcher.searchResolved q resp (batchesL s bs))
         = Some (total_count resp)).
Proof.
  split.
  - intros s q bs resp Hc Hq. now apply final_overrides_window.
  - intros s q bs resp Hc Hq.
    destruct (final_overrides_launcher s q bs resp Hc Hq) as [H1 H2].
    split; [exact H1|]. split; [|exact H2].
    intros Hnd. rewrite H1. symmetry. now apply dedup_NoDup_id.
Qed.

Lemma C1_final_overrides_partial_witness :
  (ESW.currentCancelled (windowSearching "a") = false
   /\ ESW.currentQueryIs (str "a") (windowSearching "a") = true
   /\ ESW.items
        (ESW.searchResolved (str "a") (responseOf [fileNo 1; fileNo 1; fileNo 2])
           (batchesE (windowSearching "a") [batchOf [fileNo 3] 9]))
      = dedupByPathFirstWins [fileNo 1; fileNo 1; fileNo 2])
  /\ (Launcher.currentCancelled (launcherSearching "a") = false
      /\ Launcher.currentQueryIs (str "a") (launcherSearching "a") = true
      /\ Launcher.everythingResults
           (Launcher.searchResolved (str "a") (responseOf [fileNo 1; fileNo 2])
              (batchesL (launcherSearching "a") [batchOf [fileNo 3] 9]))
         = [fileNo 1; fileNo 2]).
Proof.
  assert (Hw : ESW.currentCancelled (windowSearching "a") = false)
    by reflexivity.
  assert (Hwq : ESW.currentQueryIs (str "a") (windowSearching "a") = true)
    by reflexivity.
  assert (Hl : Launcher.currentCancelled (launcherSearching "a") = false)
    by reflexivity.
  assert (Hlq : Launcher.currentQueryIs (str "a") (launcherSearching "a") = true)
    by reflexivity.
  split.
  - split; [exact Hw|]. split; [exact Hwq|].
    exact (proj1 (proj1 C1_final_overrides_partial
                    (windowSearching "a") (str "a") [batchOf [fileNo 3] 9]
                    (responseOf [fileNo 1; fileNo 1; fileNo 2]) Hw Hwq)).
  - split; [exact Hl|]. split; [exact Hlq|].
    exact (proj1 (proj2 C1_final_overrides_partial
                    (launcherSearching "a") (str "a") [batchOf [fileNo 3] 9]
                    (responseOf [fileNo 1; fileNo 2]) Hl Hlq)).
Defined.

(** C1 as stated fails in the launcher: for a current request whose
    response repeats a path, the launcher keeps both entries. *)
Lemma C1_counterexample :
  Launcher.currentCancelled (launcherSearching "a") = false
  /\ Launcher.currentQueryIs (str "a") (launcherSearching "a") = true
  /\ Launcher.everythingResults
       (Launcher.searchResolved (str "a") (responseOf [fileNo 1; fileNo 1])
          (batchesL (launcherSearching "a") [batchOf [fileNo 1] 2]))
     = [fileNo 1; fileNo 1]
  /\ dedupByPathFirstWins [fileNo 1; fileNo 1] = [fileNo 1]
  /\ Launcher.everythingResults
       (Launcher.searchResolved (str "a") (responseOf [fileNo 1; fileNo 1])
          (batchesL (launcherSearching "a") [batchOf [fileNo 1] 2]))
     <> dedupByPathFirstWins (results (responseOf [fileNo 1; fileNo 1])).
Proof.
  repeat split; try reflexivity.
  vm_compute. discriminate.
Qed.

(** ** Superseded requests *)

Lemma finallyL_stale (q : jsstring) (s : Launcher.State) :
  Launcher.currentQueryIs q s = false -> Launcher.finallyBlock q s = s.
Proof. intros H. unfold Launcher.finallyBlock. now rewrite H. Qed.

Lemma finallyE_stale (q : jsstring) (s : ESW.State) :
  ESW.currentQueryIs q s = false -> ESW.finallyBlock q s = s.
Proof. intros H. unfold ESW.finallyBlock. now rewrite H. Qed.

(** In the launcher, the response or the failure of a call whose query is
    not the current request's changes nothing at all. *)
Lemma launcher_stale_noop (q : jsstring) (s : Launcher.State) :
  Launcher.currentQueryIs q s = false ->
  (forall resp, Launcher.searchResolved q resp s = s)
  /\ (forall err, Launcher.searchRejected q err s = s).
Proof.
  intros H. split; intros x.
  - unfold Launcher.searchResolved. rewrite H, orb_true_r.
    now apply finallyL_stale.
  - unfold Launcher.searchRejected. rewrite H, orb_true_r.
    now apply finallyL_stale.
Qed.

(** In the search window the response of such a call changes nothing. *)
Lemma window_stale_response_noop (q : jsstring) (s : ESW.State) :
  ESW.currentQueryIs q s = false ->
  forall resp, ESW.searchResolved q resp s = s.
Proof.
  intros H resp. unfold ESW.searchResolved. rewrite H, orb_true_r.
  now apply finallyE_stale.
Qed.

(** Its failure, however, is checked against the cancelled flag of the
    current request only, so it empties the result state whenever the
    newer request is live. *)
Lemma window_stale_rejection_clears (q err : jsstring) (s : ESW.State) :
  ESW.currentCancelled s = false ->
  observableE (ESW.searchRejected q err s) = ([], None, 0%Z).
Proof.
  intros H. unfold ESW.searchRejected, observableE. rewrite H.
  destruct (ESW.needsRecheck err); [reflexivity|].
  match goal with |- context [ESW.finallyBlock q ?t] =>
    destruct (finallyE_results q t) as [H1 [H2 H3]] end.
  now rewrite H1, H2, H3.
Qed.

(** Committing a query other than the current request's marks that
    request cancelled and makes the new one current. *)
Lemma launcher_commit_cancels (q : jsstring) (s : Launcher.State) (i : nat)
  (r : SearchRequest) :
  Launcher.currentSearchRef s = Some i ->
  nth_error (Launcher.requests s) i = Some r ->
  nth_error (Launcher.requests (Launcher.searchEverything true q s)) i
  = Some {| query := query r; cancelled := true |}
  /\ deref (Launcher.requests (Launcher.searchEverything true q s))
           (Launcher.currentSearchRef (Launcher.searchEverything true q s))
     = Some {| query := q; cancelled := false |}.
Proof.
  intros Hi Hr. unfold Launcher.searchEverything. simpl. rewrite Hi.
  assert (Hc : forall h j x, nth_error h j = Some x ->
             nth_error (cancel j h) j
             = Some {| query := query x; cancelled := true |}).
  { induction h as [|y h IH]; intros [|j] x; simpl; intros Hx;
      try discriminate.
    - injection Hx as ->. reflexivity.
    - now apply IH. }
  assert (Hl : forall h j, length (cancel j h) = length h).
  { unfold cancel. induction h as [|y h IH]; intros [|j]; simpl;
      try reflexivity. now rewrite IH. }
  split.
  - rewrite nth_error_app1.
    + now apply Hc.
    + rewrite Hl. apply nth_error_Some. congruence.
  - rewrite nth_error_app2 by lia. now rewrite Nat.sub_diag.
Qed.

(** The launcher's handlers look at the current request, not at their
    own: when the same query is committed twice, the first request is
    marked cancelled, yet its response passes both tests and is applied. *)
Lemma launcher_requery_applies_first_response :
  Launcher.requests launcherRequeried
  = [{| query := str "a"; cancelled := true |};
     {| query := str "a"; cancelled := false |}]
  /\ Launcher.currentSearchRef launcherRequeried = Some 1
  /\ observableL launcherRequeried = ([], None, 0%Z)
  /\ observableL
       (Launcher.searchResolved (str "a") (responseOf [fileNo 1])
          launcherRequeried)
     = ([fileNo 1], Some 1%Z, 1%Z).
Proof.
  repeat split; vm_compute; reflexivity.
Qed.

(** C2 at the failing input. In the search window "a" is committed, then
    "ab" is committed before the call for "a" returns, and a batch of the
    search for "ab" arrives: the request for "a" is marked cancelled and
    the results of "ab" are on display. When the call for "a" then fails,
    the handler empties items, totalCount and currentCount; the launcher's
    handler in the same situation changes nothing. *)
Theorem C2_stale_rejection_clears_results :
  nth_error (ESW.requests windowSuperseded) 0
  = Some {| query := str "a"; cancelled := true |}
  /\ deref (ESW.requests windowSuperseded)
           (ESW.currentSearchRef windowSuperseded)
     = Some {| query := str "ab"; cancelled := false |}
  /\ observableE windowSuperseded = ([fileNo 1], Some 5%Z, 1%Z)
  /\ observableE (ESW.searchRejected (str "a") (str "boom") windowSuperseded)
     = ([], None, 0%Z)
  /\ observableL launcherSuperseded = ([fileNo 1], Some 1%Z, 1%Z)
  /\ Launcher.searchRejected (str "a") (str "boom") launcherSuperseded
     = launcherSuperseded.
Proof.
  repeat split; vm_compute; reflexivity.
Qed.

(** ** Batches that arrive after the final response *)

(** The batch listener of the launcher never reads [finalResultsSetRef]:
    unless the current request is cancelled it overwrites both counts. *)
Lemma launcher_batch_overwrites (p : BatchPayload) (s : Launcher.State) :
  Launcher.currentCancelled s = false ->
  Launcher.everythingTotalCount (Launcher.onBatch p s)
  = Some (batch_total_count p)
  /\ Launcher.everythingCurrentCount (Launcher.onBatch p s)
     = batch_current_count p
  /\ Launcher.everythingResults (Launcher.onBatch p s)
     = Launcher.everythingResults s.
Proof.
  intros H. unfold Launcher.onBatch. rewrite H. now repeat split.
Qed.

(** C5 at the failing input. The response for "a" (two results, count 2)
    has been applied and the final-result flag is set; a batch event of
    the same search that arrives afterwards replaces totalCount by 9 and
    currentCount by 1 in the launcher. The search window, which has no
    such flag, also appends the batch's new result to the items. *)
Theorem C5_batch_after_final_overwrites_counts :
  Launcher.finalResultsSetRef launcherFinal = true
  /\ Launcher.currentCancelled launcherFinal = false
  /\ observableL launcherFinal = ([fileNo 1; fileNo 2], Some 2%Z, 2%Z)
  /\ observableL
       (Launcher.onBatch
          {| batch_results := [fileNo 3]; batch_total_count := 9;
             batch_current_count := 1 |} launcherFinal)
     = ([fileNo 1; fileNo 2], Some 9%Z, 1%Z)
  /\ observableE windowFinal = ([fileNo 1; fileNo 2], Some 2%Z, 2%Z)
  /\ observableE
       (ESW.onBatch
          {| batch_results := [fileNo 3]; batch_total_count := 9;
             batch_current_count := 1 |} windowFinal)
     = ([fileNo 1; fileNo 2; fileNo 3], Some 9%Z, 1%Z).
Proof.
  repeat split; vm_compute; reflexivity.
Qed.

(** ** The display window of the launcher *)




(** The [onScroll] handler in one equation: what it does to the display
    window, and that it leaves results, counts and query alone. *)
Lemma onScroll_spec (m : Launcher.ScrollMetrics) (s : Launcher.State) :
  Launcher.displayedResultsCount (Launcher.onScroll m s)
  = (if Launcher.isNearBottom m
        && (knownTotal s >? Launcher.displayedResultsCount s)%Z
     then Z.min (Launcher.displayedResultsCount s + 500)
                (Z.min (knownTotal s)
                       (if (resultCount s =? 0)%Z then knownTotal s
                        else resultCount s))
     else Launcher.displayedResultsCount s)
  /\ Launcher.everythingResults (Launcher.onScroll m s)
     = Launcher.everythingResults s
  /\ Launcher.everythingTotalCount (Launcher.onScroll m s)
     = Launcher.everythingTotalCount s
  /\ Launcher.queryText (Launcher.onScroll m s) = Launcher.queryText s.
Proof.
  unfold Launcher.onScroll, knownTotal, resultCount.
  destruct (Launcher.isNearBottom m); cbn; [|now repeat split].
  destruct (Launcher.everythingTotalCount s) as [t|] eqn:Ht;
    match goal with |- context [(?a >? ?b)%Z] => destruct (a >? b)%Z end;
    cbn; repeat split; assumption || reflexivity.
Qed.












(** C6 (amended). The capacity is set to 500 when the debounce timer of
    a query fires with the disk search available, and when the input is
    changed to a blank value. When the timer fires with the disk search
    unavailable no disk search starts, and the capacity and the disk
    results of the earlier query stay as they are. A scroll event near
    the bottom, with the known total (totalCount, or the number of
    accumulated results when totalCount is null) above the capacity,
    raises the capacity by 500 clamped to the known total and to the
    number of results held, so that it never exceeds the known total.
    With 1200 results announced and returned the capacity is 500, then
    1000 after one such event, then 1200 after a second. *)
Theorem C6_display_window_growth :
  (forall s t dt,
      Launcher.timer s = Some t -> Launcher.timerAvailable t = true ->
      (Launcher.remaining t <= dt)%Z ->
      Launcher.displayedResultsCount (Launcher.elapse dt s) = 500%Z)
  /\ (forall m s,
      Launcher.isNearBottom m = true ->
      (knownTotal s > Launcher.displayedResultsCount s)%Z ->
      Launcher.displayedResultsCount (Launcher.onScroll m s)
      = Z.min (Launcher.displayedResultsCount s + 500)
              (Z.min (knownTotal s)
                     (if (resultCount s =? 0)%Z then knownTotal s
                      else resultCount s))
      /\ (Launcher.displayedResultsCount (Launcher.onScroll m s)
          <= knownTotal s)%Z)
  /\ (resultCount launcher1200 = 1200%Z
      /\ Launcher.everythingTotalCount launcher1200 = Some 1200%Z
      /\ Launcher.displayedResultsCount launcher1200 = 500%Z
      /\ Launcher.displayedResultsCount
           (Launcher.run launcher1200 [Launcher.Scroll atBottom]) = 1000%Z
      /\ Launcher.displayedResultsCount
           (Launcher.run launcher1200
              [Launcher.Scroll atBottom; Launcher.Scroll atBottom])
         = 1200%Z)
  /\ (forall s t dt,
      Launcher.timer s = Some t -> Launcher.timerAvailable t = false ->
      (Launcher.remaining t <= dt)%Z ->
      Launcher.displayedResultsCount (Launcher.elapse dt s)
      = Launcher.displayedResultsCount s
      /\ Launcher.everythingResults (Launcher.elapse dt s)
         = Launcher.everythingResults s
      /\ Launcher.fired (Launcher.elapse dt s)
         = Launcher.fired s ++ [Launcher.timerQuery t]
      /\ Launcher.calls (Launcher.elapse dt s)
         = Launcher.calls s
           ++ [Launcher.AppsCall (Launcher.timerQuery t);
               Launcher.FilesCall (Launcher.timerQuery t)])
  /\ (forall s v,
      v <> Launcher.queryText s -> blank v = true ->
      Launcher.displayedResultsCount (Launcher.onQueryChange v s) = 500%Z).
Proof.
  split; [|split; [|split; [|split]]].
  - intros s t dt Ht Ha Hdue. unfold Launcher.elapse. rewrite Ht.
    apply Z.leb_le in Hdue. rewrite Hdue.
    unfold Launcher.timerCallback. rewrite Ha. reflexivity.
  - intros m s Hm Hgt. destruct (onScroll_spec m s) as [Hd _].
    rewrite Hd, Hm. apply Z.gt_lt, Z.gtb_lt in Hgt. rewrite Hgt. cbn [andb].
    split; [reflexivity | lia].
  - repeat split; vm_compute; reflexivity.
  - intros s t dt Ht Ha Hdue. unfold Launcher.elapse. rewrite Ht.
    apply Z.leb_le in Hdue. rewrite Hdue.
    unfold Launcher.timerCallback. rewrite Ha. cbn.
    rewrite <- app_assoc. now repeat split.
  - intros s v Hv Hb. unfold Launcher.onQueryChange.
    destruct (eqb v (Launcher.queryText s)) eqn:E;
      [apply eqb_true_iff in E; contradiction|].
    unfold Launcher.queryEffect. cbv zeta.
    change (eqb (trim (Launcher.queryText
                         (Launcher.setTimer None
                            (Launcher.setQueryAndUrls v
                               (Launcher.detectedUrls s) s)))) [])
      with (blank v).
    rewrite Hb. cbn. now destruct (Launcher.currentSearchRef s).
Qed.

(** A query committed while the disk search is unavailable does not
    start at 500: the capacity reached for the earlier query and its
    1200 results stay. *)
Lemma C6_counterexample :
  Launcher.displayedResultsCount
    (Launcher.run launcher1200 [Launcher.Scroll atBottom]) = 1000%Z
  /\ Launcher.queryText launcherCommitsUnavailable = str "b"
  /\ Launcher.fired launcherCommitsUnavailable = [str "a"; str "b"]
  /\ Launcher.timer launcherCommitsUnavailable = None
  /\ Launcher.displayedResultsCount launcherCommitsUnavailable = 1000%Z
  /\ resultCount launcherCommitsUnavailable = 1200%Z.
Proof.
  repeat split; vm_compute; reflexivity.
Qed.

Lemma C6_display_window_growth_witness :
  Launcher.isNearBottom atBottom = true
  /\ (knownTotal launcher1200
      > Launcher.displayedResultsCount launcher1200)%Z
  /\ Launcher.displayedResultsCount (Launcher.onScroll atBottom launcher1200)
     = Z.min (Launcher.displayedResultsCount launcher1200 + 500)
             (Z.min (knownTotal launcher1200)
                    (if (resultCount launcher1200 =? 0)%Z
                     then knownTotal launcher1200
                     else resultCount launcher1200))
  /\ (Launcher.displayedResultsCount (Launcher.onScroll atBottom launcher1200)
      <= knownTotal launcher1200)%Z.
Proof.
  assert (Hm : Launcher.isNearBottom atBottom = true) by reflexivity.
  assert (Hgt : (knownTotal launcher1200
                 > Launcher.displayedResultsCount launcher1200)%Z)
    by (vm_compute; reflexivity).
  split; [exact Hm|]. split; [exact Hgt|].
  exact (proj1 (proj2 C6_display_window_growth) atBottom launcher1200 Hm Hgt).
Defined.

(** ** Debounced dispatch *)

Lemma trimStart_head (s : jsstring) :
  trimStart s = []
  \/ exists c t, trimStart s = c :: t /\ isWhiteSpace c = false.
Proof.
  induction s as [|c s IH]; simpl; [now left|].
  destruct (isWhiteSpace c) eqn:Hc; [exact IH|].
  right. now exists c, s.
Qed.

Lemma trimStart_snoc (c : N) (l : jsstring) :
  isWhiteSpace c = false ->
  exists t, trimStart (l ++ [c]) = t ++ [c]
            /\ (t = [] \/ exists x t', t = x :: t' /\ isWhiteSpace x = false).
Proof.
  intros Hc. induction l as [|x l IH]; simpl.
  - rewrite Hc. exists []. split; [reflexivity | now left].
  - destruct (isWhiteSpace x) eqn:Hx; [exact IH|].
    exists (x :: l). split; [reflexivity|]. right. now exists x, l.
Qed.

(** Trimming a trimmed string changes nothing. *)
Lemma trim_idempotent (s : jsstring) : trim (trim s) = trim s.
Proof.
  unfold trim, trimEnd.
  destruct (trimStart_head s) as [H|[c [t [H Hc]]]]; rewrite H.
  - reflexivity.
  - simpl rev.
    destruct (trimStart_snoc c (rev t) Hc) as [u [Hu Hhead]].
    rewrite !Hu, rev_app_distr. simpl. rewrite Hc. simpl.
    rewrite rev_involutive. f_equal.
    destruct Hhead as [->|[x [u' [-> Hx]]]]; simpl.
    + now rewrite Hc.
    + rewrite Hx. simpl. now rewrite rev_app_distr.
Qed.

Lemma launcher_keystroke (s : Launcher.State) (v : jsstring) (d : Z) :
  v <> Launcher.queryText s ->
  Launcher.queryText (Launcher.elapse d (Launcher.onQueryChange v s)) = v
  /\ Launcher.isEverythingAvailable
       (Launcher.elapse d (Launcher.onQueryChange v s))
     = Launcher.isEverythingAvailable s
  /\ Launcher.fired (Launcher.elapse d (Launcher.onQueryChange v s))
     = Launcher.fired s
       ++ (if (500 <=? d)%Z && negb (blank v) then [v] else [])
  /\ Launcher.calls (Launcher.elapse d (Launcher.onQueryChange v s))
     = Launcher.calls s
       ++ (if (500 <=? d)%Z && negb (blank v)
           then Launcher.AppsCall v :: Launcher.FilesCall v
                :: (if Launcher.isEverythingAvailable s
                    then [Launcher.EverythingCall v] else [])
           else [])
  /\ ((500 <=? d)%Z = true ->
      Launcher.timer (Launcher.elapse d (Launcher.onQueryChange v s)) = None).
Proof.
  intros Hne. apply eqb_false_iff in Hne.
  unfold Launcher.onQueryChange. rewrite Hne.
  unfold Launcher.queryEffect, blank.
  change (Launcher.queryText
            (Launcher.setTimer None
               (Launcher.setQueryAndUrls v (Launcher.detectedUrls s) s)))
    with v.
  destruct (eqb (trim v) []) eqn:Hb.
  - rewrite andb_false_r, !app_nil_r. unfold Launcher.elapse.
    destruct (Launcher.currentSearchRef
       (Launcher.setTimer None
          (Launcher.setQueryAndUrls v (Launcher.detectedUrls s) s)));
      cbn; repeat split; reflexivity.
  - rewrite andb_true_r. unfold Launcher.elapse, Launcher.debounceMs. cbn.
    destruct (500 <=? d)%Z eqn:Hd.
    + unfold Launcher.timerCallback, Launcher.searchEverything. cbn.
      destruct (Launcher.isEverythingAvailable s) eqn:Ha; cbn;
        rewrite ?Ha, <- ?app_assoc; repeat split; reflexivity.
    + cbn. rewrite !app_nil_r. repeat split; try reflexivity. discriminate.
Qed.

Lemma window_keystroke (s : ESW.State) (v : jsstring) (d : Z) :
  v <> ESW.queryText s ->
  ESW.queryText (ESW.elapse d (ESW.onQueryChange v s)) = v
  /\ ESW.isEverythingAvailable (ESW.elapse d (ESW.onQueryChange v s))
     = ESW.isEverythingAvailable s
  /\ ((300 <=? d)%Z = false ->
      ESW.requests (ESW.elapse d (ESW.onQueryChange v s)) = ESW.requests s
      /\ ESW.currentSearchRef (ESW.elapse d (ESW.onQueryChange v s))
         = ESW.currentSearchRef s)
  /\ ESW.fired (ESW.elapse d (ESW.onQueryChange v s))
     = ESW.fired s
       ++ (if (300 <=? d)%Z && negb (blank v) then [trim v] else [])
  /\ ESW.calls (ESW.elapse d (ESW.onQueryChange v s))
     = ESW.calls s
       ++ (if (300 <=? d)%Z && negb (blank v)
              && ESW.isEverythingAvailable s
              && negb (ESW.currentQueryIs (trim v) s)
           then [trim v] else [])
  /\ ((300 <=? d)%Z = true ->
      ESW.timer (ESW.elapse d (ESW.onQueryChange v s)) = None).
Proof.
  intros Hne. apply eqb_false_iff in Hne.
  unfold ESW.onQueryChange. rewrite Hne.
  unfold ESW.queryEffect, blank.
  change (ESW.queryText (ESW.setTimer None (ESW.setQueryText v s))) with v.
  destruct (eqb (trim v) []) eqn:Hb.
  - rewrite andb_false_r, !app_nil_r. unfold ESW.elapse. cbn.
    repeat split; reflexivity.
  - rewrite andb_true_r. unfold ESW.elapse, ESW.debounceMs. cbn.
    destruct (300 <=? d)%Z eqn:Hd; cbn.
    + unfold ESW.searchEverything.
      rewrite trim_idempotent, Hb.
      destruct (trim v) as [|c t] eqn:Ht; [discriminate|]. cbn.
      unfold ESW.currentQueryIs. cbn.
      destruct (ESW.isEverythingAvailable s) eqn:Ha; cbn.
      * destruct (refQueryIs (ESW.requests s) (ESW.currentSearchRef s)
                             (c :: t)) eqn:Hq; cbn;
          rewrite ?Ha, ?app_nil_r; repeat split; try reflexivity;
          discriminate.
      * rewrite ?Ha, ?app_nil_r. repeat split; try reflexivity;
          discriminate.
    + rewrite !app_nil_r. repeat split; try reflexivity. discriminate.
Qed.

Lemma launcher_debounce (earlier : typing) :
  forall (s : Launcher.State) (last : jsstring) (pause : Z),
    realChanges (Launcher.queryText s) (map fst earlier ++ [last]) ->
    pausesBelow 500 earlier -> (500 <= pause)%Z ->
    Launcher.fired (Launcher.run s (typingL (earlier ++ [(last, pause)])))
    = Launcher.fired s ++ firedL last
    /\ Launcher.calls (Launcher.run s (typingL (earlier ++ [(last, pause)])))
       = Launcher.calls s ++ callsL s last
    /\ Launcher.timer (Launcher.run s (typingL (earlier ++ [(last, pause)])))
       = None.
Proof.
  induction earlier as [|[v d] earlier IH]; intros s last pause Hch Hp Hlast.
  - simpl in *. destruct Hch as [Hne _].
    destruct (launcher_keystroke s last pause Hne) as [_ [_ [Hf [Hc Ht]]]].
    assert (Hdue : (500 <=? pause)%Z = true) by now apply Z.leb_le.
    rewrite Hdue in *. unfold firedL, callsL. rewrite Hf, Hc.
    destruct (blank last); cbn; auto.
  - simpl in Hch. destruct Hch as [Hne Hch].
    inversion Hp as [|k ks Hd Hp']; subst. simpl in Hd.
    destruct (launcher_keystroke s v d Hne) as [Hq [Ha [Hf [Hc _]]]].
    assert (Hnot : (500 <=? d)%Z = false) by (apply Z.leb_gt; lia).
    rewrite Hnot in *. cbn [andb] in *. rewrite app_nil_r in *.
    change (Launcher.run s (typingL (((v, d) :: earlier) ++ [(last, pause)])))
      with (Launcher.run (Launcher.elapse d (Launcher.onQueryChange v s))
              (typingL (earlier ++ [(last, pause)]))).
    rewrite <- Hq in Hch.
    destruct (IH _ last pause Hch Hp' Hlast) as [H1 [H2 H3]].
    rewrite H1, H2, H3, Hf, Hc. unfold callsL. rewrite Ha. now repeat split.
Qed.

Lemma window_debounce (earlier : typing) :
  forall (s : ESW.State) (last : jsstring) (pause : Z),
    realChanges (ESW.queryText s) (map fst earlier ++ [last]) ->
    pausesBelow 300 earlier -> (300 <= pause)%Z ->
    ESW.fired (ESW.run s (typingE (earlier ++ [(last, pause)])))
    = ESW.fired s ++ firedE last
    /\ ESW.calls (ESW.run s (typingE (earlier ++ [(last, pause)])))
       = ESW.calls s ++ callsE s last
    /\ ESW.timer (ESW.run s (typingE (earlier ++ [(last, pause)]))) = None.
Proof.
  induction earlier as [|[v d] earlier IH]; intros s last pause Hch Hp Hlast.
  - simpl in *. destruct Hch as [Hne _].
    destruct (window_keystroke s last pause Hne) as [_ [_ [_ [Hf [Hc Ht]]]]].
    assert (Hdue : (300 <=? pause)%Z = true) by now apply Z.leb_le.
    rewrite Hdue in *. unfold firedE, callsE. rewrite Hf, Hc.
    destruct (blank last); cbn; auto.
  - simpl in Hch. destruct Hch as [Hne Hch].
    inversion Hp as [|k ks Hd Hp']; subst. simpl in Hd.
    destruct (window_keystroke s v d Hne) as [Hq [Ha [Hr [Hf [Hc _]]]]].
    assert (Hnot : (300 <=? d)%Z = false) by (apply Z.leb_gt; lia).
    destruct (Hr Hnot) as [Hr1 Hr2].
    rewrite Hnot in *. cbn [andb] in *. rewrite app_nil_r in *.
    change (ESW.run s (typingE (((v, d) :: earlier) ++ [(last, pause)])))
      with (ESW.run (ESW.elapse d (ESW.onQueryChange v s))
              (typingE (earlier ++ [(last, pause)]))).
    rewrite <- Hq in Hch.
    destruct (IH _ last pause Hch Hp' Hlast) as [H1 [H2 H3]].
    rewrite H1, H2, H3, Hf, Hc. unfold callsE, ESW.currentQueryIs.
    rewrite Ha, Hr1, Hr2. now repeat split.
Qed.

(** C7 (amended). For every sequence of query changes that follow one
    another within the debounce delay, once the delay has passed after
    the last of them: each change replaces the pending timer by one for
    the new value (by none when the new value is blank); no search is
    committed for a superseded value; if the last value is not blank
    exactly one committed search fires, for the last value (the launcher
    passes it on as typed, the search window trimmed); if the last value
    is blank no search fires at all. *)
Theorem C7_debounced_dispatch :
  (forall (s : Launcher.State) earlier last pause,
      realChanges (Launcher.queryText s) (map fst earlier ++ [last]) ->
      pausesBelow 500 earlier -> (500 <= pause)%Z ->
      Launcher.fired (Launcher.run s (typingL (earlier ++ [(last, pause)])))
      = Launcher.fired s ++ firedL last
      /\ Launcher.calls
           (Launcher.run s (typingL (earlier ++ [(last, pause)])))
         = Launcher.calls s ++ callsL s last
      /\ Launcher.timer
           (Launcher.run s (typingL (earlier ++ [(last, pause)]))) = None)
  /\ (forall (s : ESW.State) earlier last pause,
      realChanges (ESW.queryText s) (map fst earlier ++ [last]) ->
      pausesBelow 300 earlier -> (300 <= pause)%Z ->
      ESW.fired (ESW.run s (typingE (earlier ++ [(last, pause)])))
      = ESW.fired s ++ firedE last
      /\ ESW.calls (ESW.run s (typingE (earlier ++ [(last, pause)])))
         = ESW.calls s ++ callsE s last
      /\ ESW.timer (ESW.run s (typingE (earlier ++ [(last, pause)]))) = None)
  /\ (forall (s : Launcher.State) v,
      v <> Launcher.queryText s ->
      Launcher.timer (Launcher.onQueryChange v s)
      = if blank v then None
        else Some {| Launcher.timerQuery := v;
                     Launcher.timerAvailable := Launcher.isEverythingAvailable s;
                     Launcher.remaining := 500 |})
  /\ (forall (s : ESW.State) v,
      v <> ESW.queryText s ->
      ESW.timer (ESW.onQueryChange v s)
      = if blank v then None
        else Some {| ESW.timerQuery := trim v; ESW.remaining := 300 |}).
Proof.
  split; [|split; [|split]].
  - intros s earlier last pause. apply launcher_debounce.
  - intros s earlier last pause. apply window_debounce.
  - intros s v Hne. apply eqb_false_iff in Hne.
    unfold Launcher.onQueryChange, Launcher.queryEffect, blank.
    rewrite Hne.
    change (Launcher.queryText
              (Launcher.setTimer None
                 (Launcher.setQueryAndUrls v (Launcher.detectedUrls s) s)))
      with v.
    destruct (eqb (trim v) []); [|reflexivity].
    destruct (Launcher.currentSearchRef
                (Launcher.setTimer None
                   (Launcher.setQueryAndUrls v (Launcher.detectedUrls s) s)));
      reflexivity.
  - intros s v Hne. apply eqb_false_iff in Hne.
    unfold ESW.onQueryChange, ESW.queryEffect, blank. rewrite Hne.
    change (ESW.queryText (ESW.setTimer None (ESW.setQueryText v s))) with v.
    destruct (eqb (trim v) []); reflexivity.
Qed.

Lemma C7_debounced_dispatch_witness :
  (realChanges (Launcher.queryText launcherIdle)
     (map fst [(str "a", 120%Z)] ++ [str "ab"])
   /\ pausesBelow 500 [(str "a", 120%Z)]
   /\ (500 <= 500)%Z
   /\ Launcher.fired
        (Launcher.run launcherIdle
           (typingL ([(str "a", 120%Z)] ++ [(str "ab", 500%Z)])))
      = Launcher.fired launcherIdle ++ firedL (str "ab")
   /\ Launcher.calls
        (Launcher.run launcherIdle
           (typingL ([(str "a", 120%Z)] ++ [(str "ab", 500%Z)])))
      = Launcher.calls launcherIdle ++ callsL launcherIdle (str "ab")
   /\ Launcher.timer
        (Launcher.run launcherIdle
           (typingL ([(str "a", 120%Z)] ++ [(str "ab", 500%Z)])))
      = None)
  /\ firedL (str "ab") = [str "ab"]
  /\ callsL launcherIdle (str "ab")
     = [Launcher.AppsCall (str "ab"); Launcher.FilesCall (str "ab");
        Launcher.EverythingCall (str "ab")].
Proof.
  assert (H1 : realChanges (Launcher.queryText launcherIdle)
                 (map fst [(str "a", 120%Z)] ++ [str "ab"])).
  { simpl. repeat split; discriminate. }
  assert (H2 : pausesBelow 500 [(str "a", 120%Z)]).
  { repeat constructor; simpl; lia. }
  assert (H3 : (500 <= 500)%Z) by lia.
  split; [|split; reflexivity].
  split; [exact H1|]. split; [exact H2|]. split; [exact H3|].
  exact (proj1 C7_debounced_dispatch launcherIdle
           [(str "a", 120%Z)] (str "ab") 500%Z H1 H2 H3).
Defined.

(** C7 as stated fails when the last value typed is blank: "a" is typed
    and, 120 ms later, deleted again; however long one waits, no
    committed search fires. *)
Lemma C7_counterexample :
  Launcher.fired
    (Launcher.run launcherIdle (typingL [(str "a", 120%Z); ([], 5000%Z)]))
  = []
  /\ Launcher.calls
       (Launcher.run launcherIdle (typingL [(str "a", 120%Z); ([], 5000%Z)]))
     = []
  /\ ESW.fired
       (ESW.run windowIdle (typingE [(str "a", 120%Z); ([], 5000%Z)]))
     = []
  /\ ESW.calls
       (ESW.run windowIdle (typingE [(str "a", 120%Z); ([], 5000%Z)]))
     = [].
Proof.
  repeat split; vm_compute; reflexivity.
Qed.

(** ** Keyboard navigation *)

Ltac zbool :=
  repeat match goal with
         | H : (_ >? _)%Z = true |- _ => apply Z.gtb_lt in H
         | H : (_ >? _)%Z = false |- _ => rewrite Z.gtb_ltb in H
         | H : (_ <? _)%Z = true |- _ => apply Z.ltb_lt in H
         | H : (_ <? _)%Z = false |- _ => apply Z.ltb_ge in H
         | H : (_ =? _)%Z = true |- _ => apply Z.eqb_eq in H
         | H : (_ =? _)%Z = false |- _ => apply Z.eqb_neq in H
         end.

(** Only the two indices and the lists matter to the invariant. *)
Lemma selectionOk_same (s s' : Keyboard.State) :
  Keyboard.selectedHorizontalIndex s' = Keyboard.selectedHorizontalIndex s ->
  Keyboard.selectedVerticalIndex s' = Keyboard.selectedVerticalIndex s ->
  Keyboard.lists s' = Keyboard.lists s ->
  Keyboard.selectionOk s -> Keyboard.selectionOk s'.
Proof.
  unfold Keyboard.selectionOk. intros -> -> ->. tauto.
Qed.

Ltac selection_cases :=
  unfold Keyboard.selectionOk; cbn;
  repeat split; try (now left); try (now right); try discriminate;
  repeat match goal with
         | H : Some _ = Some _ |- _ => injection H as H; subst
         end;
  try lia.

Lemma escape_ok (s : Keyboard.State) :
  Keyboard.selectionOk s ->
  Keyboard.selectionOk (fst (Keyboard.handleEscape s)).
Proof.
  intros H. unfold Keyboard.handleEscape.
  repeat match goal with
         | |- context [if ?b then _ else _] => destruct b
         end; cbn [fst]; (apply (selectionOk_same s); [reflexivity..|exact H]).
Qed.

Lemma arrowDown_ok (d : Keyboard.Dom) (s : Keyboard.State) :
  Keyboard.selectionOk s ->
  Keyboard.selectionOk (fst (Keyboard.handleArrowDown d s)).
Proof.
  intros H. pose proof H as [Hone [Hh Hv]]. unfold Keyboard.handleArrowDown.
  destruct (Keyboard.selectedHorizontalIndex s) as [i|] eqn:Hi.
  - destruct (_ >? 0)%Z eqn:Hlen; cbn [fst]; [|exact H].
    zbool. selection_cases.
  - destruct (Keyboard.selectedVerticalIndex s) as [j|] eqn:Hj.
    + destruct (j <? _)%Z eqn:Hlt; cbn [fst]; [|exact H].
      zbool. specialize (Hv j eq_refl).
      unfold Keyboard.selectionOk. cbn. rewrite Hi. selection_cases.
    + destruct (Keyboard.inputIsActive d); cbn [andb]; [|exact H].
      destruct (Keyboard.len (Keyboard.horizontalResults (Keyboard.lists s))
                >? 0)%Z eqn:HlenH; cbn [fst]; [zbool; selection_cases|].
      destruct (Keyboard.len (Keyboard.verticalResults (Keyboard.lists s))
                >? 0)%Z eqn:HlenV; cbn [fst]; [|exact H].
      zbool. selection_cases.
Qed.

Lemma arrowUp_ok (d : Keyboard.Dom) (s : Keyboard.State) :
  Keyboard.selectionOk s ->
  Keyboard.selectionOk (fst (Keyboard.handleArrowUp d s)).
Proof.
  intros H. pose proof H as [Hone [Hh Hv]]. unfold Keyboard.handleArrowUp.
  destruct (Keyboard.isZero (Keyboard.selectedHorizontalIndex s)) eqn:Hz;
    [selection_cases|].
  destruct (Keyboard.isZero (Keyboard.selectedVerticalIndex s)) eqn:Hzv.
  - destruct (_ >? 0)%Z eqn:Hlen; [|selection_cases].
    zbool. selection_cases.
  - destruct (Keyboard.isPositive (Keyboard.selectedVerticalIndex s)) eqn:Hp.
    + destruct (Keyboard.selectedVerticalIndex s) as [j|] eqn:Hj;
        [|discriminate].
      cbn in Hp. zbool. specialize (Hv j eq_refl).
      destruct Hone as [Hone|Hone]; [|discriminate].
      unfold Keyboard.selectionOk. cbn. rewrite Hone. selection_cases.
    + destruct (Keyboard.isPositive (Keyboard.selectedHorizontalIndex s))
        eqn:Hph; cbn [fst]; [|exact H].
      destruct (Keyboard.selectedHorizontalIndex s) as [i|] eqn:Hi;
        [|discriminate].
      cbn in Hph. zbool. specialize (Hh i eq_refl). selection_cases.
Qed.

Lemma arrowLeftRight_ok (isRight : bool) (d : Keyboard.Dom)
  (s : Keyboard.State) :
  Keyboard.selectionOk s ->
  Keyboard.selectionOk (fst (Keyboard.handleArrowLeftRight isRight d s)).
Proof.
  intros H. pose proof H as [Hone [Hh Hv]].
  unfold Keyboard.handleArrowLeftRight.
  destruct (Keyboard.inputKeepsArrow isRight d s); [exact H|].
  destruct (_ =? 0)%Z eqn:Hlen; [exact H|].
  zbool.
  assert (Hpos : (0 < Keyboard.len
                        (Keyboard.horizontalResults (Keyboard.lists s)))%Z).
  { unfold Keyboard.len in *. lia. }
  change (Keyboard.selectedHorizontalIndex
            (Keyboard.setIsHorizontalNavigationRef true s))
    with (Keyboard.selectedHorizontalIndex s).
  destruct (Keyboard.selectedHorizontalIndex s) as [i|] eqn:Hi.
  - specialize (Hh i eq_refl). destruct isRight.
    + destruct (i <? _)%Z eqn:Hlt; zbool; selection_cases.
    + destruct (i =? 0)%Z eqn:Hz; [zbool; selection_cases|].
      destruct (i >? 0)%Z eqn:Hgt; zbool; selection_cases.
  - destruct isRight; selection_cases.
Qed.

Lemma handleKeyDown_ok (e : Keyboard.KeyEvent) (d : Keyboard.Dom)
  (s : Keyboard.State) :
  Keyboard.selectionOk s ->
  Keyboard.selectionOk (fst (Keyboard.handleKeyDown e d s)).
Proof.
  intros H. unfold Keyboard.handleKeyDown.
  destruct (_ || _); [now apply escape_ok|].
  destruct (_ && _); [selection_cases|].
  destruct (Keyboard.keyIs e "ArrowDown"); [now apply arrowDown_ok|].
  destruct (Keyboard.keyIs e "ArrowUp"); [now apply arrowUp_ok|].
  destruct (Keyboard.keyIs e "ArrowLeft"); [now apply arrowLeftRight_ok|].
  destruct (Keyboard.keyIs e "ArrowRight"); [now apply arrowLeftRight_ok|].
  destruct (Keyboard.keyIs e "Enter"); [|exact H].
  unfold Keyboard.handleEnter.
  repeat match goal with
         | |- context [match ?o with Some _ => _ | None => _ end] =>
             destruct o
         end; exact H.
Qed.

Lemma step_ok (s : Keyboard.State) (ev : Keyboard.event) :
  Keyboard.selectionOk s -> Keyboard.selectionOk (Keyboard.step s ev).
Proof.
  intros H. destruct ev as [e d|t]; cbn [Keyboard.step].
  - now apply handleKeyDown_ok.
  - destruct t; cbn; exact H.
Qed.

(** C8. Whatever keys are pressed and whatever timers of the handler
    run, from a state in which at most one of the two indices is set and
    a set index lies within its list, the state reached has the same
    property: at most one of selectedHorizontalIndex and
    selectedVerticalIndex is non-null, a horizontal index is below the
    number of horizontal results and a vertical index below the number of
    vertical results. *)
Theorem C8_navigation_selection_invariant
  (s : Keyboard.State) (evs : list Keyboard.event) :
  Keyboard.selectionOk s -> Keyboard.selectionOk (Keyboard.run s evs).
Proof.
  revert s. induction evs as [|ev evs IH]; intros s H; [exact H|].
  apply IH. now apply step_ok.
Qed.

Lemma C8_navigation_selection_invariant_witness :
  Keyboard.selectionOk (navState 3 5 (Keyboard.horizontal 2))
  /\ Keyboard.selectionOk
       (Keyboard.run (navState 3 5 (Keyboard.horizontal 2))
          [keyDown "ArrowDown" 40 inputBlurred;
           Keyboard.Timeout Keyboard.ResetJustJumped;
           keyDown "ArrowDown" 40 inputBlurred;
           keyDown "ArrowLeft" 37 inputBlurred;
           keyDown "ArrowUp" 38 inputBlurred]).
Proof.
  assert (H : Keyboard.selectionOk (navState 3 5 (Keyboard.horizontal 2))).
  { selection_cases. }
  split; [exact H|].
  exact (C8_navigation_selection_invariant
           (navState 3 5 (Keyboard.horizontal 2))
           [keyDown "ArrowDown" 40 inputBlurred;
            Keyboard.Timeout Keyboard.ResetJustJumped;
            keyDown "ArrowDown" 40 inputBlurred;
            keyDown "ArrowLeft" 37 inputBlurred;
            keyDown "ArrowUp" 38 inputBlurred] H).
Defined.

Lemma keyIs_of_key (e : Keyboard.KeyEvent) (k k' : string) :
  Keyboard.key e = str k -> Keyboard.keyIs e k' = eqb (str k) (str k').
Proof. intros H. unfold Keyboard.keyIs. now rewrite H. Qed.

(** An ArrowDown event goes to the ArrowDown branch. *)
Lemma handleKeyDown_ArrowDown (e : Keyboard.KeyEvent) (d : Keyboard.Dom)
  (s : Keyboard.State) :
  Keyboard.key e = str "ArrowDown" -> Keyboard.keyCode e <> 27%Z ->
  Keyboard.handleKeyDown e d s = Keyboard.handleArrowDown d s.
Proof.
  intros Hk Hc. apply Z.eqb_neq in Hc. unfold Keyboard.handleKeyDown.
  rewrite !(keyIs_of_key e "ArrowDown" _ Hk), Hc. reflexivity.
Qed.

(** An ArrowUp event goes to the ArrowUp branch. *)
Lemma handleKeyDown_ArrowUp (e : Keyboard.KeyEvent) (d : Keyboard.Dom)
  (s : Keyboard.State) :
  Keyboard.key e = str "ArrowUp" -> Keyboard.keyCode e <> 27%Z ->
  Keyboard.handleKeyDown e d s = Keyboard.handleArrowUp d s.
Proof.
  intros Hk Hc. apply Z.eqb_neq in Hc. unfold Keyboard.handleKeyDown.
  rewrite !(keyIs_of_key e "ArrowUp" _ Hk), Hc. reflexivity.
Qed.

(** C9. Down from horizontal(i), for any i, with a non-empty vertical
    list selects vertical(0). Up from vertical(0) with a non-empty
    horizontal list selects horizontal(0), whatever horizontal index the
    selection came from. Up from vertical(0) with an empty horizontal list
    clears the selection and focuses the input (the focus call is made
    whenever the input element is mounted). From horizontal(2) with three
    horizontal and five vertical results, Down gives vertical(0) and Up
    then gives horizontal(0). *)
Theorem C9_two_axis_transitions :
  (forall e d s i,
      Keyboard.key e = str "ArrowDown" -> Keyboard.keyCode e <> 27%Z ->
      Keyboard.hasSelection (Keyboard.horizontal i) s ->
      (0 < Keyboard.len (Keyboard.verticalResults (Keyboard.lists s)))%Z ->
      Keyboard.hasSelection (Keyboard.vertical 0)
        (fst (Keyboard.handleKeyDown e d s)))
  /\ (forall e d s,
      Keyboard.key e = str "ArrowUp" -> Keyboard.keyCode e <> 27%Z ->
      Keyboard.hasSelection (Keyboard.vertical 0) s ->
      (0 < Keyboard.len (Keyboard.horizontalResults (Keyboard.lists s)))%Z ->
      Keyboard.hasSelection (Keyboard.horizontal 0)
        (fst (Keyboard.handleKeyDown e d s)))
  /\ (forall e d s,
      Keyboard.key e = str "ArrowUp" -> Keyboard.keyCode e <> 27%Z ->
      Keyboard.hasSelection (Keyboard.vertical 0) s ->
      Keyboard.horizontalResults (Keyboard.lists s) = [] ->
      Keyboard.hasSelection Keyboard.none
        (fst (Keyboard.handleKeyDown e d s))
      /\ snd (Keyboard.handleKeyDown e d s)
         = Keyboard.PreventDefault
           :: (if Keyboard.inputMounted d
               then [Keyboard.FocusInput;
                     Keyboard.SetSelectionRange (Keyboard.valueLength d)
                       (Keyboard.valueLength d)]
               else []))
  /\ (Keyboard.hasSelection (Keyboard.vertical 0)
        (Keyboard.run (navState 3 5 (Keyboard.horizontal 2))
           [keyDown "ArrowDown" 40 inputBlurred])
      /\ Keyboard.hasSelection (Keyboard.horizontal 0)
           (Keyboard.run (navState 3 5 (Keyboard.horizontal 2))
              [keyDown "ArrowDown" 40 inputBlurred;
               keyDown "ArrowUp" 38 inputBlurred])).
Proof.
  unfold Keyboard.hasSelection. split; [|split; [|split]].
  - intros e d s i Hk Hc Hsel Hlen. rewrite handleKeyDown_ArrowDown by assumption.
    cbn in Hsel. injection Hsel as Hh Hv.
    unfold Keyboard.handleArrowDown. rewrite Hh.
    apply Z.gtb_lt in Hlen. rewrite Hlen. reflexivity.
  - intros e d s Hk Hc Hsel Hlen. rewrite handleKeyDown_ArrowUp by assumption.
    cbn in Hsel. injection Hsel as Hh Hv.
    unfold Keyboard.handleArrowUp. rewrite Hh, Hv. cbn.
    apply Z.gtb_lt in Hlen. rewrite Hlen. reflexivity.
  - intros e d s Hk Hc Hsel Hnil. rewrite handleKeyDown_ArrowUp by assumption.
    cbn in Hsel. injection Hsel as Hh Hv.
    unfold Keyboard.handleArrowUp. rewrite Hh, Hv, Hnil. cbn.
    split; reflexivity.
  - split; vm_compute; reflexivity.
Qed.

Lemma C9_two_axis_transitions_witness :
  Keyboard.key (pressed "ArrowDown" 40) = str "ArrowDown"
  /\ Keyboard.keyCode (pressed "ArrowDown" 40) <> 27%Z
  /\ Keyboard.hasSelection (Keyboard.horizontal 1)
       (navState 3 5 (Keyboard.horizontal 1))
  /\ (0 < Keyboard.len
            (Keyboard.verticalResults
               (Keyboard.lists (navState 3 5 (Keyboard.horizontal 1)))))%Z
  /\ Keyboard.hasSelection (Keyboard.vertical 0)
       (fst (Keyboard.handleKeyDown (pressed "ArrowDown" 40) inputFocused
               (navState 3 5 (Keyboard.horizontal 1)))).
Proof.
  assert (H1 : Keyboard.key (pressed "ArrowDown" 40) = str "ArrowDown")
    by reflexivity.
  assert (H2 : Keyboard.keyCode (pressed "ArrowDown" 40) <> 27%Z)
    by discriminate.
  assert (H3 : Keyboard.hasSelection (Keyboard.horizontal 1)
                 (navState 3 5 (Keyboard.horizontal 1))) by reflexivity.
  assert (H4 : (0 < Keyboard.len
                      (Keyboard.verticalResults
                         (Keyboard.lists
                            (navState 3 5 (Keyboard.horizontal 1)))))%Z)
    by reflexivity.
  repeat (split; [assumption|]).
  exact (proj1 C9_two_axis_transitions (pressed "ArrowDown" 40) inputFocused
           (navState 3 5 (Keyboard.horizontal 1)) 1%Z H1 H2 H3 H4).
Defined.

(** ** The fuel of the matcher is never exhausted *)

Import Regex.

Lemma within_refl (x : pos) : within x x.
Proof. split; lia. Qed.

Lemma within_trans (x y z : pos) : within x y -> within y z -> within x z.
Proof. unfold within. intros [H1 H2] [H3 H4]. split; lia. Qed.

Lemma repeatMatcher_respects (m : pos -> cont -> option pos) :
  respects m -> forall fuel lo hi, respects (repeatMatcher fuel m lo hi).
Proof.
  intros Hm. induction fuel as [|fuel IH]; intros lo hi x c c' H; simpl;
    [reflexivity|].
  assert (Hx : c x = c' x) by (apply H, within_refl).
  assert (Hd : forall y, within x y ->
      (if Nat.eqb lo 0 && Nat.eqb (idx y) (idx x) then None
       else repeatMatcher fuel m (Nat.pred lo) (option_map Nat.pred hi) y c)
      = (if Nat.eqb lo 0 && Nat.eqb (idx y) (idx x) then None
         else repeatMatcher fuel m (Nat.pred lo) (option_map Nat.pred hi) y c')).
  { intros y Hy. destruct (_ && _); [reflexivity|].
    apply IH. intros z Hz. apply H. now apply within_trans with y. }
  destruct hi as [[|h]|]; try exact Hx;
    rewrite (Hm x _ _ Hd); destruct lo; try reflexivity;
    now rewrite Hx.
Qed.

Lemma matcher_respects (r : re) : respects (matcher r).
Proof.
  induction r as [p|a IHa b IHb|a IHa b IHb|lo hi a IHa|a IHa| | |];
    intros x c c' H; cbn [matcher];
    try (now rewrite (H x (within_refl x))).
  - destruct (rest x) as [|ch tl] eqn:Hr; [reflexivity|].
    destruct (p ch); [|reflexivity]. apply H.
    unfold within. cbn. rewrite Hr. cbn. split; lia.
  - apply IHa. intros y Hy. apply IHb. intros z Hz. apply H.
    now apply within_trans with y.
  - rewrite (IHa x c c' H), (IHb x c c' H). reflexivity.
  - now apply repeatMatcher_respects.
Qed.

(** More fuel than [lo + length (rest x) + 1] changes nothing: the
    exhausted-fuel case of [repeatMatcher] is never the one that decides. *)
Lemma repeatMatcher_fuel (m : pos -> cont -> option pos) :
  respects m ->
  forall fuel fuel' lo hi x c,
    lo + length (rest x) + 1 <= fuel ->
    lo + length (rest x) + 1 <= fuel' ->
    repeatMatcher fuel m lo hi x c = repeatMatcher fuel' m lo hi x c.
Proof.
  intros Hm. induction fuel as [|fuel IH]; intros fuel' lo hi x c H1 H2;
    [lia|]. destruct fuel' as [|fuel']; [lia|]. simpl.
  assert (Hd : forall y, within x y ->
      (if Nat.eqb lo 0 && Nat.eqb (idx y) (idx x) then None
       else repeatMatcher fuel m (Nat.pred lo) (option_map Nat.pred hi) y c)
      = (if Nat.eqb lo 0 && Nat.eqb (idx y) (idx x) then None
         else repeatMatcher fuel' m (Nat.pred lo) (option_map Nat.pred hi) y c)).
  { intros y [Hy1 Hy2]. destruct (Nat.eqb lo 0 && Nat.eqb (idx y) (idx x)) eqn:E;
      [reflexivity|].
    apply IH.
    - destruct lo as [|lo]; cbn in *; [|lia].
      apply Nat.eqb_neq in E. lia.
    - destruct lo as [|lo]; cbn in *; [|lia].
      apply Nat.eqb_neq in E. lia. }
  destruct hi as [[|h]|]; try reflexivity;
    rewrite (Hm x _ _ Hd); reflexivity.
Qed.

Lemma quantifier_fuel (a : re) (lo : nat) (hi : option nat) (x : pos)
  (c : cont) (fuel : nat) :
  lo + length (rest x) + 1 <= fuel ->
  repeatMatcher fuel (matcher a) lo hi x c = matcher (Rep lo hi a) x c.
Proof.
  intros H. cbn [matcher]. apply repeatMatcher_fuel;
    [apply matcher_respects | assumption | lia].
Qed.

Lemma repeatMatcher_answers (m : pos -> cont -> option pos) :
  answers m -> forall fuel lo hi, answers (repeatMatcher fuel m lo hi).
Proof.
  intros Hm. induction fuel as [|fuel IH]; intros lo hi x c e; simpl;
    [discriminate|].
  assert (Hx : c x = Some e -> exists y, within x y /\ c y = Some e).
  { intros H. exists x. split; [apply within_refl | exact H]. }
  assert (Hd : m x (fun y =>
      if Nat.eqb lo 0 && Nat.eqb (idx y) (idx x) then None
      else repeatMatcher fuel m (Nat.pred lo) (option_map Nat.pred hi) y c)
      = Some e -> exists y, within x y /\ c y = Some e).
  { intros H. apply Hm in H. destruct H as [y [Hy H]].
    destruct (_ && _); [discriminate|].
    apply IH in H. destruct H as [z [Hz H]].
    exists z. split; [now apply within_trans with y | exact H]. }
  destruct hi as [[|h]|]; try exact Hx;
    (destruct lo; [|exact Hd]);
    match goal with |- context [m x ?d] => destruct (m x d) end;
    [exact Hd | exact Hx | exact Hd | exact Hx].
Qed.

Lemma matcher_answers (r : re) : answers (matcher r).
Proof.
  induction r as [p|a IHa b IHb|a IHa b IHb|lo hi a IHa|a IHa| | |];
    intros x c e; cbn [matcher].
  - destruct (rest x) as [|ch tl] eqn:Hr; [discriminate|].
    destruct (p ch); [|discriminate]. intros H.
    exists {| idx := S (idx x); rest := tl |}. split; [|exact H].
    unfold within. cbn. rewrite Hr. cbn. split; lia.
  - intros H. apply IHa in H. destruct H as [y [Hy H]].
    apply IHb in H. destruct H as [z [Hz H]].
    exists z. split; [now apply within_trans with y | exact H].
  - destruct (matcher a x c) eqn:E.
    + intros H. apply IHa. now rewrite E.
    + apply IHb.
  - now apply repeatMatcher_answers.
  - destruct (matcher a x Some); [discriminate|]. intros H.
    exists x. split; [apply within_refl | exact H].
  - destruct (Nat.eqb (idx x) 0); [|discriminate]. intros H.
    exists x. split; [apply within_refl | exact H].
  - destruct (rest x); [|discriminate]. intros H.
    exists x. split; [apply within_refl | exact H].
  - intros H. exists x. split; [apply within_refl | exact H].
Qed.

(** What [exec] finds: a start index [k] code units further on, and an
    end state within the state at that start. *)
Lemma exec_found (r : re) (s : jsstring) :
  forall i st e,
    exec r i s = Some (st, e) ->
    exists k, st = i + k /\ k <= length s
              /\ within {| idx := st; rest := skipn k s |} e.
Proof.
  induction s as [|c s IH]; intros i st e; simpl.
  - destruct (matcher r _ Some) as [e'|] eqn:E; [|discriminate].
    intros H. injection H as <- <-. exists 0. rewrite Nat.add_0_r.
    split; [reflexivity|]. split; [lia|].
    apply matcher_answers in E. destruct E as [y [Hy E]].
    injection E as <-. exact Hy.
  - destruct (matcher r _ Some) as [e'|] eqn:E.
    + intros H. injection H as <- <-. exists 0. rewrite Nat.add_0_r.
      split; [reflexivity|]. split; [lia|].
      apply matcher_answers in E. destruct E as [y [Hy E]].
      injection E as <-. exact Hy.
    + intros H. apply IH in H. destruct H as [k [-> [Hk Hw]]].
      exists (S k). split; [lia|]. split; [lia|]. exact Hw.
Qed.

(** More rounds than [length s + 1] change nothing: the global match
    never stops for lack of fuel. *)
Lemma matchesFrom_fuel (r : re) :
  forall fuel fuel' i s,
    length s + 1 <= fuel -> length s + 1 <= fuel' ->
    matchesFrom fuel r i s = matchesFrom fuel' r i s.
Proof.
  induction fuel as [|fuel IH]; intros fuel' i s H1 H2; [lia|].
  destruct fuel' as [|fuel']; [lia|]. simpl.
  destruct (exec r i s) as [[st e]|] eqn:E; [|reflexivity].
  apply exec_found in E. destruct E as [k [-> [Hk [Hw1 Hw2]]]].
  cbn [idx rest] in Hw1, Hw2.
  replace (i + k - i) with k by lia.
  assert (Hlen : length (skipn k s) <= length s)
    by (rewrite length_skipn; lia).
  destruct (Nat.eqb (idx e) (i + k)) eqn:Eq; f_equal.
  - destruct (skipn k s) as [|c tl] eqn:Hs; [reflexivity|].
    cbn [length] in Hlen. apply IH; lia.
  - apply Nat.eqb_neq in Eq. apply IH; lia.
Qed.

(** ** URL detection *)

Lemma map_fst_combine_seq (l : list jsstring) (a : nat) :
  map fst (combine (seq a (length l)) l) = seq a (length l).
Proof.
  revert a. induction l as [|x l IH]; intros a; simpl; [reflexivity|].
  now rewrite IH.
Qed.

(** Keeping the entries that sit at their own first index removes every
    repetition. *)
Lemma filterFirstIndex_NoDup (l : list jsstring) : NoDup (filterFirstIndex l).
Proof.
  unfold filterFirstIndex. apply NoDup_map_NoDup_ForallPairs.
  - intros [i x] [j y] Hx Hy Heq. simpl in Heq. subst y.
    apply filter_In in Hx. apply filter_In in Hy.
    destruct Hx as [_ Hx]. destruct Hy as [_ Hy]. simpl in Hx, Hy.
    destruct (indexOf x l) as [k|]; [|discriminate].
    apply Nat.eqb_eq in Hx. apply Nat.eqb_eq in Hy. congruence.
  - apply NoDup_filter. apply (NoDup_map_inv fst).
    rewrite map_fst_combine_seq. apply seq_NoDup.
Qed.

Lemma filterFirstIndex_In (l : list jsstring) (u : jsstring) :
  In u (filterFirstIndex l) -> In u l.
Proof.
  unfold filterFirstIndex. intros H. apply in_map_iff in H.
  destruct H as [[i x] [Hu Hin]]. simpl in Hu. subst x.
  apply filter_In in Hin. destruct Hin as [Hin _].
  now apply in_combine_r in Hin.
Qed.

Lemma dropNullAndEmpty_In (l : list (option jsstring)) (u : jsstring) :
  In u (Urls.dropNullAndEmpty l) -> In (Some u) l.
Proof.
  induction l as [|[[|c x]|] l IH]; simpl; try tauto.
  intros [H|H]; [left; now rewrite H | right; now apply IH].
Qed.

(** An anchored pattern only matches at index 0. *)
Lemma exec_anchored_later (r : re) (s : jsstring) :
  forall i, exec (Seq Bol r) (S i) s = None.
Proof.
  induction s as [|c s IH]; intros i; simpl; [reflexivity|apply IH].
Qed.

Lemma test_anchored (r : re) (s : jsstring) :
  test (Seq Bol r) s = true ->
  exists e, matcher r {| idx := 0; rest := s |} Some = Some e.
Proof.
  unfold test. destruct s as [|c s]; simpl.
  - destruct (matcher r _ Some) as [e|]; [now exists e | discriminate].
  - destruct (matcher r _ Some) as [e|]; [now exists e |].
    now rewrite exec_anchored_later.
Qed.

(** The optional single character, unfolded. *)
Lemma matcher_opt_class (p : N -> bool) (x : pos) (c : cont) :
  matcher (opt (Class p)) x c
  = match rest x with
    | ch :: tl =>
        if p ch
        then match c {| idx := S (idx x); rest := tl |} with
             | Some z => Some z
             | None => c x
             end
        else c x
    | [] => c x
    end.
Proof.
  unfold opt. cbn [matcher]. destruct (rest x) as [|ch tl] eqn:Hr.
  - cbn. now rewrite Hr.
  - cbn [length Nat.add repeatMatcher]. cbn [matcher]. rewrite Hr.
    destruct (p ch); [|reflexivity].
    cbn [idx].
    replace (Nat.eqb (S (idx x)) (idx x)) with false
      by (symmetry; apply Nat.eqb_neq; lia).
    rewrite Nat.add_1_r. reflexivity.
Qed.

Lemma upper_is_lower (c k : N) :
  (65 <= k <= 90)%N -> (upperAscii c =? k)%N = true ->
  lowerAscii c = (k + 32)%N.
Proof.
  intros Hk H. apply N.eqb_eq in H. unfold upperAscii, lowerAscii in *.
  destruct (97 <=? c)%N eqn:H1; destruct (c <=? 122)%N eqn:H2;
    destruct (65 <=? c)%N eqn:H3; destruct (c <=? 90)%N eqn:H4;
    cbn [andb] in *;
    repeat match goal with
           | E : (_ <=? _)%N = true |- _ => apply N.leb_le in E
           | E : (_ <=? _)%N = false |- _ => apply N.leb_gt in E
           end; lia.
Qed.

Lemma exact_is_lower (c k : N) :
  (k < 65)%N -> (k =? c)%N = true -> lowerAscii c = k.
Proof.
  intros Hk H. apply N.eqb_eq in H. subst c. unfold lowerAscii.
  destruct (65 <=? k)%N eqn:H3; [apply N.leb_le in H3; lia | reflexivity].
Qed.

Ltac lower_fact E :=
  match type of E with
  | (upperAscii ?c =? ?k)%N = true =>
      let k' := eval vm_compute in k in
      let k32 := eval vm_compute in (k' + 32)%N in
      let L := fresh "L" in
      assert (L : lowerAscii c = k32)
        by (apply (upper_is_lower c k'); [lia | exact E]);
      clear E
  | (?k =? ?c)%N = true =>
      let k' := eval vm_compute in k in
      let L := fresh "L" in
      assert (L : lowerAscii c = k')
        by (apply (exact_is_lower c k'); [lia | exact E]);
      clear E
  end.

(** Whatever the scheme pattern matches at the start of a string begins,
    up to the case of its letters, with one of the two schemes. *)
Lemma scheme_match_prefix (u : jsstring) (e : pos) :
  matcher Urls.schemeRe {| idx := 0; rest := u |} Some = Some e ->
  hasHttpScheme u = true.
Proof.
  unfold Urls.schemeRe, cat, ci, lit. intros H.
  cbn [matcher rest idx] in H.
  destruct u as [|c0 u]; [discriminate|].
  destruct (upperAscii c0 =? upperAscii (chr "h"))%N eqn:E0; [|discriminate].
  destruct u as [|c1 u]; [discriminate|].
  destruct (upperAscii c1 =? upperAscii (chr "t"))%N eqn:E1; [|discriminate].
  destruct u as [|c2 u]; [discriminate|].
  destruct (upperAscii c2 =? upperAscii (chr "t"))%N eqn:E2; [|discriminate].
  destruct u as [|c3 u]; [discriminate|].
  destruct (upperAscii c3 =? upperAscii (chr "p"))%N eqn:E3; [|discriminate].
  rewrite matcher_opt_class in H. cbn [matcher rest idx] in H.
  repeat match type of H with
         | context [match ?l with [] => _ | _ :: _ => _ end] =>
             is_var l; destruct l as [|? ?]; try discriminate H
         | context [if ?b then _ else _] =>
             destruct b eqn:?; try discriminate H
         end;
    clear H;
    repeat match goal with
           | E : (_ =? _)%N = true |- _ => lower_fact E
           end;
    try congruence;
    unfold hasHttpScheme; cbn [map];
    repeat match goal with
           | L : lowerAscii _ = _ |- _ => rewrite L; clear L
           end;
    reflexivity.
Qed.

Lemma https_prefix_scheme (url : jsstring) :
  hasHttpScheme (Urls.httpsPrefix ++ url) = true.
Proof. reflexivity. Qed.

(** What the normalising callback returns either carries a scheme already
    or is the rest with https:// put in front. *)
Lemma normalizeUrl_scheme (m u : jsstring) :
  Urls.normalizeUrl m = Some u ->
  hasHttpScheme u = true
  /\ (test Urls.hasSchemeRe u = true
      \/ exists url, u = Urls.httpsPrefix ++ url
                     /\ test Urls.hasSchemeRe url = false).
Proof.
  unfold Urls.normalizeUrl.
  set (url := replaceFirstWithEmpty Urls.trailingRe (trim m)).
  destruct (test Urls.hasSchemeRe url) eqn:Hs; cbn [negb].
  - intros H. injection H as <-. split; [|now left].
    destruct (test_anchored _ _ Hs) as [e He].
    now apply (scheme_match_prefix url e).
  - destruct (startsWith (str "www.") url);
      [|destruct (test Urls.looksLikeDomainRe url); [|discriminate]];
      intros H; injection H as <-;
      (split; [apply https_prefix_scheme | right; now exists url]).
Qed.

Lemma trimStart_blank (s : jsstring) :
  Forall (fun c => isWhiteSpace c = true) s -> trimStart s = [].
Proof.
  induction 1 as [|c s Hc _ IH]; simpl; [reflexivity|]. now rewrite Hc.
Qed.

(** C10 (amended). For every input string, extractUrls returns a list
    without repeated entries, every element of which begins with http://
    or https:// when the case of letters is disregarded (an element
    either matched with its own scheme, in whatever case it was written,
    or is a scheme-less match with https:// put in front); and it returns
    the empty list for an input that is empty or consists of white space
    only. *)
Theorem C10_extractUrls_scheme_and_nodup (text : jsstring) :
  NoDup (Urls.extractUrls text)
  /\ Forall (fun u =>
               hasHttpScheme u = true
               /\ (test Urls.hasSchemeRe u = true
                   \/ exists url, u = Urls.httpsPrefix ++ url
                                  /\ test Urls.hasSchemeRe url = false))
            (Urls.extractUrls text)
  /\ (Forall (fun c => isWhiteSpace c = true) text ->
      Urls.extractUrls text = []).
Proof.
  unfold Urls.extractUrls. split; [|split].
  - destruct (_ || _); [constructor|].
    destruct (matchGlobal Urls.urlPattern text); [|constructor].
    apply filterFirstIndex_NoDup.
  - destruct (_ || _); [constructor|].
    destruct (matchGlobal Urls.urlPattern text) as [matches|]; [|constructor].
    apply Forall_forall. intros u Hu.
    apply filterFirstIndex_In, dropNullAndEmpty_In, in_map_iff in Hu.
    destruct Hu as [m [Hm _]]. now apply (normalizeUrl_scheme m).
  - intros Hws. unfold trim, trimEnd.
    rewrite (trimStart_blank text Hws). cbn. now rewrite orb_true_r.
Qed.

Lemma C10_extractUrls_scheme_and_nodup_witness :
  Forall (fun c => isWhiteSpace c = true) (str "   ")
  /\ Urls.extractUrls (str "   ") = [].
Proof.
  assert (H : Forall (fun c => isWhiteSpace c = true) (str "   ")).
  { repeat constructor. }
  split; [exact H|].
  exact (proj2 (proj2 (C10_extractUrls_scheme_and_nodup (str "   "))) H).
Defined.

(** C10 as stated fails for a scheme written in capitals: the pattern
    and the scheme test ignore case, and the match is returned as
    written. *)
Lemma C10_counterexample :
  Urls.extractUrls (str "see HTTP://a.bc") = [str "HTTP://a.bc"]
  /\ beginsWithHttp (str "HTTP://a.bc") = false
  /\ Forall (fun u => beginsWithHttp u = false)
            (Urls.extractUrls (str "see HTTP://a.bc"))
  /\ hasHttpScheme (str "HTTP://a.bc") = true.
Proof.
  repeat split; try (vm_compute; reflexivity).
  vm_compute. repeat constructor.
Qed.

(* ===================================================================== *)
(** * Further properties of the sources *)
(* ===================================================================== *)

(** ** What the matcher consumes *)

Lemma consumed_refl (x : pos) : consumed x x [].
Proof. split; [reflexivity | cbn; lia]. Qed.

Lemma consumed_trans (x y z : pos) (s1 s2 : jsstring) :
  consumed x y s1 -> consumed y z s2 -> consumed x z (s1 ++ s2).
Proof.
  unfold consumed. intros [H1 H2] [H3 H4]. split.
  - now rewrite H1, H3, app_assoc.
  - rewrite length_app. lia.
Qed.

Lemma repeatMatcher_emits (P : N -> bool) (m : pos -> cont -> option pos) :
  emits P m -> forall fuel lo hi, emits P (repeatMatcher fuel m lo hi).
Proof.
  intros Hm. induction fuel as [|fuel IH]; intros lo hi x c e; simpl;
    [discriminate|].
  assert (Hx : c x = Some e ->
               exists y seg, consumed x y seg /\ forallb P seg = true
                             /\ c y = Some e).
  { intros H. exists x, []. split; [apply consumed_refl|]. now split. }
  assert (Hd : m x (fun y =>
      if Nat.eqb lo 0 && Nat.eqb (idx y) (idx x) then None
      else repeatMatcher fuel m (Nat.pred lo) (option_map Nat.pred hi) y c)
      = Some e ->
      exists y seg, consumed x y seg /\ forallb P seg = true
                    /\ c y = Some e).
  { intros H. apply Hm in H. destruct H as [y [s1 [Hy [Hs1 H]]]].
    destruct (_ && _); [discriminate|].
    apply IH in H. destruct H as [z [s2 [Hz [Hs2 H]]]].
    exists z, (s1 ++ s2). split; [now apply consumed_trans with y|].
    split; [|exact H]. rewrite forallb_app. now rewrite Hs1, Hs2. }
  destruct hi as [[|h]|]; try exact Hx;
    (destruct lo; [|exact Hd]);
    match goal with |- context [m x ?d] => destruct (m x d) end;
    [exact Hd | exact Hx | exact Hd | exact Hx].
Qed.

Lemma matcher_emits (P : N -> bool) (r : re) :
  classesWithin P r -> emits P (matcher r).
Proof.
  induction r as [p|a IHa b IHb|a IHa b IHb|lo hi a IHa|a IHa| | |];
    intros Hr x c e; cbn [matcher]; cbn [classesWithin] in Hr;
    try (intros H; exists x, []; split; [apply consumed_refl|]; now split).
  - destruct x as [i l]. cbn [rest idx].
    destruct l as [|ch tl]; [discriminate|].
    destruct (p ch) eqn:Hp; [|discriminate]. intros H.
    exists {| idx := S i; rest := tl |}, [ch]. split; [|split].
    + split; cbn; [reflexivity | lia].
    + cbn. now rewrite (Hr ch Hp).
    + exact H.
  - destruct Hr as [Ha Hb]. intros H.
    apply (IHa Ha) in H. destruct H as [y [s1 [Hy [Hs1 H]]]].
    apply (IHb Hb) in H. destruct H as [z [s2 [Hz [Hs2 H]]]].
    exists z, (s1 ++ s2). split; [now apply consumed_trans with y|].
    split; [|exact H]. rewrite forallb_app. now rewrite Hs1, Hs2.
  - destruct Hr as [Ha Hb]. destruct (matcher a x c) eqn:E.
    + intros H. apply (IHa Ha). now rewrite E.
    + now apply IHb.
  - apply repeatMatcher_emits. now apply IHa.
  - destruct (matcher a x Some); [discriminate|]. intros H.
    exists x, []. split; [apply consumed_refl|]. now split.
  - destruct (Nat.eqb (idx x) 0); [|discriminate]. intros H.
    exists x, []. split; [apply consumed_refl|]. now split.
  - destruct (rest x); [|discriminate]. intros H.
    exists x, []. split; [apply consumed_refl|]. now split.
Qed.

(** What [exec] finds, with the text of the match. *)
Lemma exec_segment (P : N -> bool) (r : re) (s : jsstring) :
  classesWithin P r ->
  forall i st e,
    exec r i s = Some (st, e) ->
    exists k seg,
      st = i + k /\ skipn k s = seg ++ rest e
      /\ idx e = st + length seg /\ forallb P seg = true.
Proof.
  intros Hr. induction s as [|c s IH]; intros i st e; simpl.
  - destruct (matcher r _ Some) as [e'|] eqn:E; [|discriminate].
    intros H. injection H as <- <-.
    apply (matcher_emits P r Hr) in E.
    destruct E as [y [seg [[H1 H2] [Hs E]]]]. injection E as <-.
    exists 0, seg. cbn in *. repeat split; try assumption; lia.
  - destruct (matcher r _ Some) as [e'|] eqn:E.
    + intros H. injection H as <- <-.
      apply (matcher_emits P r Hr) in E.
      destruct E as [y [seg [[H1 H2] [Hs E]]]]. injection E as <-.
      exists 0, seg. cbn in *. repeat split; try assumption; lia.
    + intros H. apply IH in H. destruct H as [k [seg [-> [H1 [H2 H3]]]]].
      exists (S k), seg. cbn. repeat split; try assumption; lia.
Qed.

Lemma substringOf_skipn (m s : jsstring) (k : nat) :
  substringOf m (skipn k s) -> substringOf m s.
Proof.
  intros [pre [post H]]. exists (firstn k s ++ pre), post.
  rewrite <- app_assoc, <- H. symmetry. apply firstn_skipn.
Qed.

(** Every match of a global match is a run of the input made of
    characters the pattern's classes accept. *)
Lemma matchesFrom_segments (P : N -> bool) (r : re) :
  classesWithin P r ->
  forall fuel i s m,
    In m (matchesFrom fuel r i s) ->
    forallb P m = true /\ substringOf m s.
Proof.
  intros Hr. induction fuel as [|fuel IH]; intros i s m; simpl; [tauto|].
  destruct (exec r i s) as [[st e]|] eqn:E; [|simpl; tauto].
  apply (exec_segment P r s Hr) in E.
  destruct E as [k [seg [-> [Hk [He Hseg]]]]].
  replace (i + k - i) with k by lia.
  replace (idx e - (i + k)) with (length seg) by lia.
  rewrite Hk, firstn_app, Nat.sub_diag, firstn_all, firstn_O, app_nil_r.
  assert (Hsub : substringOf seg s).
  { apply substringOf_skipn with k. exists [], (rest e). now rewrite Hk. }
  destruct (Nat.eqb (idx e) (i + k)) eqn:Eq.
  - intros [<-|Hin]; [now split|].
    destruct (seg ++ rest e) as [|c tl] eqn:Hs; [destruct Hin|].
    apply IH in Hin. destruct Hin as [H1 H2]. split; [exact H1|].
    apply substringOf_skipn with (1 + k).
    rewrite <- skipn_skipn, Hk. exact H2.
  - intros [<-|Hin]; [now split|].
    apply IH in Hin. destruct Hin as [H1 H2]. split; [exact H1|].
    apply substringOf_skipn with k. rewrite Hk.
    destruct H2 as [pre [post H2]]. exists (seg ++ pre), post.
    now rewrite H2, <- app_assoc.
Qed.


(** ** The trailing-punctuation pattern *)

Lemma repeatMatcher_S (fuel : nat) (m : pos -> cont -> option pos)
  (lo : nat) (hi : option nat) (x : pos) (c : cont) :
  repeatMatcher (S fuel) m lo hi x c
  = match hi with
    | Some O => c x
    | _ =>
        let d := fun y : pos =>
          if Nat.eqb lo 0 && Nat.eqb (idx y) (idx x) then None
          else repeatMatcher fuel m (Nat.pred lo) (option_map Nat.pred hi) y c in
        match lo with
        | S _ => m x d
        | O => match m x d with
               | Some z => Some z
               | None => c x
               end
        end
    end.
Proof. reflexivity. Qed.

Lemma matcher_class (p : N -> bool) (x : pos) (c : cont) :
  matcher (Class p) x c
  = match rest x with
    | ch :: tl => if p ch then c {| idx := S (idx x); rest := tl |} else None
    | [] => None
    end.
Proof. reflexivity. Qed.

Lemma star_class_cons (p : N -> bool) (i : nat) (ch : N) (tl : jsstring)
  (c : cont) :
  matcher (star (Class p)) {| idx := i; rest := ch :: tl |} c
  = if p ch
    then match matcher (star (Class p)) {| idx := S i; rest := tl |} c with
         | Some z => Some z
         | None => c {| idx := i; rest := ch :: tl |}
         end
    else c {| idx := i; rest := ch :: tl |}.
Proof.
  unfold star.
  rewrite <- (quantifier_fuel (Class p) 0 None
                {| idx := i; rest := ch :: tl |} c (S (S (length tl))))
    by (cbn [rest length]; lia).
  rewrite repeatMatcher_S. cbv zeta. rewrite matcher_class.
  cbn [rest idx]. destruct (p ch); [|reflexivity].
  change (Nat.eqb 0 0) with true. cbn [andb Nat.pred option_map].
  replace (Nat.eqb (S i) i) with false by (symmetry; apply Nat.eqb_neq; lia).
  rewrite (quantifier_fuel (Class p) 0 None {| idx := S i; rest := tl |} c
             (S (length tl))) by (cbn [rest]; lia).
  reflexivity.
Qed.

Lemma plus_class_cons (p : N -> bool) (i : nat) (ch : N) (tl : jsstring)
  (c : cont) :
  matcher (plus (Class p)) {| idx := i; rest := ch :: tl |} c
  = if p ch
    then matcher (star (Class p)) {| idx := S i; rest := tl |} c
    else None.
Proof.
  unfold plus, star.
  rewrite <- (quantifier_fuel (Class p) 1 None
                {| idx := i; rest := ch :: tl |} c (S (S (S (length tl)))))
    by (cbn [rest length]; lia).
  rewrite repeatMatcher_S. cbv zeta. rewrite matcher_class.
  cbn [rest idx]. destruct (p ch); [|reflexivity].
  change (Nat.eqb 1 0) with false. cbn [andb Nat.pred option_map].
  rewrite (quantifier_fuel (Class p) 0 None {| idx := S i; rest := tl |} c
             (S (S (length tl)))) by (cbn [rest]; lia).
  reflexivity.
Qed.

(** A greedy run of one class followed by a continuation that accepts
    the end of the input only: it succeeds exactly when the whole rest
    of the input is in the class. *)
Lemma star_class_to_end (p : N -> bool) (c : cont) :
  (forall y, rest y <> [] -> c y = None) ->
  forall l i,
    matcher (star (Class p)) {| idx := i; rest := l |} c
    = if forallb p l then c {| idx := i + length l; rest := [] |} else None.
Proof.
  intros Hc. induction l as [|ch tl IH]; intros i.
  - unfold star. cbn. now rewrite Nat.add_0_r.
  - rewrite star_class_cons, IH. cbn [forallb length].
    destruct (p ch); cbn [andb].
    + rewrite (Hc {| idx := i; rest := ch :: tl |}) by discriminate.
      replace (S i + length tl) with (i + S (length tl)) by lia.
      destruct (forallb p tl); [|reflexivity].
      now destruct (c _).
    + apply Hc. discriminate.
Qed.

Lemma trailingRe_at (i : nat) (l : jsstring) :
  matcher Urls.trailingRe {| idx := i; rest := l |} Some
  = match l with
    | [] => None
    | _ :: _ =>
        if forallb Urls.trailingPunct l
        then Some {| idx := i + length l; rest := [] |}
        else None
    end.
Proof.
  unfold Urls.trailingRe. cbn [cat matcher].
  destruct l as [|ch tl].
  - reflexivity.
  - rewrite plus_class_cons. cbn [forallb].
    destruct (Urls.trailingPunct ch); [|reflexivity]. cbn [andb].
    rewrite star_class_to_end.
    + destruct (forallb Urls.trailingPunct tl); [|reflexivity].
      cbn. f_equal. f_equal. lia.
    + intros [j [|d r]] Hy; [now destruct Hy|]. cbn.
      now destruct (Urls.urlDelim d).
Qed.

(** The replacement that cleans a match cuts the final run of
    punctuation marks, and nothing else. *)
Lemma exec_trailingRe (s : jsstring) :
  forall i,
    match exec Urls.trailingRe i s with
    | Some (st, e) =>
        exists k, st = i + k /\ firstn k s ++ rest e = stripTrailing s
    | None => stripTrailing s = s
    end.
Proof.
  induction s as [|c s IH]; intros i.
  - reflexivity.
  - cbn [exec]. rewrite trailingRe_at. cbn [stripTrailing].
    destruct (forallb Urls.trailingPunct (c :: s)).
    + exists 0. split; [lia | reflexivity].
    + specialize (IH (S i)). destruct (exec Urls.trailingRe (S i) s) as [[st e]|].
      * destruct IH as [k [-> Hk]]. exists (S k). split; [lia|].
        cbn. now rewrite Hk.
      * now rewrite IH.
Qed.

Lemma replace_trailing (s : jsstring) :
  replaceFirstWithEmpty Urls.trailingRe s = stripTrailing s.
Proof.
  unfold replaceFirstWithEmpty. pose proof (exec_trailingRe s 0) as H.
  destruct (exec Urls.trailingRe 0 s) as [[st e]|].
  - destruct H as [k [-> H]]. exact H.
  - now rewrite H.
Qed.

Lemma stripTrailing_nil (s : jsstring) :
  stripTrailing s = [] -> forallb Urls.trailingPunct s = true.
Proof.
  destruct s as [|c s]; [reflexivity|]. cbn [stripTrailing].
  destruct (forallb Urls.trailingPunct (c :: s)); [reflexivity|discriminate].
Qed.

Lemma endsClean_cons (c : N) (u : jsstring) :
  endsClean u = true -> endsClean (c :: u) = true.
Proof.
  unfold endsClean. cbn [rev]. destruct (rev u) as [|d r]; [discriminate|].
  now cbn.
Qed.

Lemma endsClean_app (p u : jsstring) :
  endsClean u = true -> endsClean (p ++ u) = true.
Proof.
  intros H. induction p as [|c p IH]; [exact H|]. now apply endsClean_cons.
Qed.

Lemma stripTrailing_clean (s : jsstring) :
  stripTrailing s = [] \/ endsClean (stripTrailing s) = true.
Proof.
  induction s as [|c s IH]; [now left|]. cbn [stripTrailing].
  destruct (forallb Urls.trailingPunct (c :: s)) eqn:E; [now left|]. right.
  destruct IH as [IH|IH].
  - rewrite IH. apply stripTrailing_nil in IH. cbn [forallb] in E.
    rewrite IH, andb_true_r in E. unfold endsClean. cbn. now rewrite E.
  - now apply endsClean_cons.
Qed.

Lemma stripTrailing_prefix (s : jsstring) :
  exists t, s = stripTrailing s ++ t.
Proof.
  induction s as [|c s [t IH]]; [now exists []|]. cbn [stripTrailing].
  destruct (forallb Urls.trailingPunct (c :: s)).
  - now exists (c :: s).
  - exists t. cbn. now rewrite <- IH.
Qed.

(** A string without white space at either end is its own trim. *)
Lemma trim_urlChars (m : jsstring) :
  forallb urlChar m = true -> trim m = m.
Proof.
  assert (Hw : forall c, urlChar c = true -> isWhiteSpace c = false).
  { intros c H. unfold urlChar in H. apply negb_true_iff in H.
    destruct (isWhiteSpace c); [discriminate|reflexivity]. }
  assert (Hs : forall l, forallb urlChar l = true -> trimStart l = l).
  { intros [|c l] H; [reflexivity|]. cbn in *.
    apply andb_true_iff in H. now rewrite (Hw c (proj1 H)). }
  intros H. unfold trim, trimEnd. rewrite (Hs m H), Hs.
  - apply rev_involutive.
  - rewrite forallb_forall in *. intros c Hc. apply H. now apply in_rev.
Qed.

(** What the callback makes of a match of the pattern. *)
Lemma normalizeUrl_shape (m u : jsstring) :
  forallb urlChar m = true ->
  Urls.normalizeUrl m = Some u ->
  u = stripTrailing m \/ u = Urls.httpsPrefix ++ stripTrailing m.
Proof.
  intros Hm. unfold Urls.normalizeUrl.
  rewrite (trim_urlChars m Hm), replace_trailing.
  destruct (negb _).
  - destruct (startsWith _ _); [intros H; injection H as <-; now right|].
    destruct (test _ _); [intros H; injection H as <-; now right|discriminate].
  - intros H; injection H as <-; now left.
Qed.

Ltac n_facts :=
  repeat match goal with
         | E : _ && _ = true |- _ => apply andb_true_iff in E; destruct E
         | E : _ || _ = true |- _ => apply orb_true_iff in E; destruct E
         | E : (_ <=? _)%N = true |- _ => apply N.leb_le in E
         | E : (_ =? _)%N = true |- _ => apply N.eqb_eq in E
         end.

Lemma urlChar_range (c : N) :
  (45 <= c <= 122)%N -> c <> 60%N -> c <> 62%N -> urlChar c = true.
Proof.
  intros Hr H1 H2. unfold urlChar, isWhiteSpace, chr.
  apply negb_true_iff. cbn [N_of_ascii N.add N.mul Pos.add Pos.mul].
  repeat (apply orb_false_iff; split);
    try (apply N.eqb_neq; cbn; lia);
    apply andb_false_iff; left + right; apply N.leb_gt; lia.
Qed.

Lemma ci_letter (c k : N) :
  (65 <= k <= 90)%N -> (upperAscii c =? k)%N = true ->
  c = k \/ c = (k + 32)%N.
Proof.
  intros Hk H. apply N.eqb_eq in H. unfold upperAscii in H.
  destruct (97 <=? c)%N eqn:H1; destruct (c <=? 122)%N eqn:H2;
    cbn [andb] in H;
    repeat match goal with
           | E : (_ <=? _)%N = true |- _ => apply N.leb_le in E
           | E : (_ <=? _)%N = false |- _ => apply N.leb_gt in E
           end; lia.
Qed.

Ltac chr_values H :=
  repeat match type of H with
         | context [upperAscii (chr ?a)] =>
             let v := eval vm_compute in (upperAscii (chr a)) in
             change (upperAscii (chr a)) with v in H
         | context [chr ?a] =>
             let v := eval vm_compute in (chr a) in
             change (chr a) with v in H
         end.

Lemma urlPattern_classes : classesWithin urlChar Urls.urlPattern.
Proof.
  unfold Urls.urlPattern, Urls.schemeRe, Urls.domainRe, plus, star, opt,
    lit, ci.
  cbn [cat classesWithin].
  repeat split; try (intros ch H; exact H);
    intros ch H;
    unfold alnumDash, alnum, alpha, inRange in H; chr_values H.
  all: try (apply ci_letter in H; [|lia];
            destruct H as [->| ->]; reflexivity).
  all: n_facts; subst; try reflexivity; apply urlChar_range; lia.
Qed.

Lemma extractUrls_In (text u : jsstring) :
  In u (Urls.extractUrls text) ->
  u <> []
  /\ exists m,
       forallb urlChar m = true /\ substringOf m text
       /\ (u = stripTrailing m \/ u = Urls.httpsPrefix ++ stripTrailing m).
Proof.
  unfold Urls.extractUrls. destruct (_ || _); [intros []|].
  unfold matchGlobal.
  destruct (matchesFrom _ _ _ _) as [|m0 ms] eqn:E; [intros []|].
  intros H. apply filterFirstIndex_In in H.
  assert (Hne : u <> []).
  { clear E. revert H. generalize (map Urls.normalizeUrl (m0 :: ms)).
    induction l as [|[[|c x]|] l IH]; simpl; try tauto.
    intros [<-|H]; [discriminate | now apply IH]. }
  split; [exact Hne|].
  apply dropNullAndEmpty_In in H. apply in_map_iff in H.
  destruct H as [m [Hn Hin]]. rewrite <- E in Hin.
  apply (matchesFrom_segments urlChar Urls.urlPattern urlPattern_classes)
    in Hin.
  destruct Hin as [Hm Hsub]. exists m. repeat split; try assumption.
  now apply normalizeUrl_shape.
Qed.

(** X1. No web address that extractUrls returns ends with one of the
    punctuation marks full stop, comma, semicolon, colon, exclamation
    mark or question mark: the final run of such marks is cut from every
    match before it is returned, whatever the text around it. *)
Theorem X1_extractUrls_no_trailing_punctuation (text : jsstring) :
  Forall (fun u => endsClean u = true) (Urls.extractUrls text).
Proof.
  apply Forall_forall. intros u Hu. apply extractUrls_In in Hu.
  destruct Hu as [Hne [m [_ [_ Hu]]]].
  destruct (stripTrailing_clean m) as [Hs|Hs].
  - rewrite Hs in Hu. destruct Hu as [->| ->]; [now destruct Hne|].
    reflexivity.
  - destruct Hu as [->| ->]; [exact Hs | now apply endsClean_app].
Qed.

(** X2. Every web address that extractUrls returns is free of white
    space, of the angle brackets and of both quote characters: it is
    made of characters of the pattern's negated class only. *)
Theorem X2_extractUrls_characters (text : jsstring) :
  Forall (fun u => forallb urlChar u = true) (Urls.extractUrls text).
Proof.
  apply Forall_forall. intros u Hu. apply extractUrls_In in Hu.
  destruct Hu as [_ [m [Hm [_ Hu]]]].
  assert (Hs : forallb urlChar (stripTrailing m) = true).
  { destruct (stripTrailing_prefix m) as [t Ht]. rewrite Ht in Hm.
    rewrite forallb_app in Hm. now apply andb_true_iff in Hm. }
  destruct Hu as [->| ->]; [exact Hs|].
  rewrite forallb_app, Hs. reflexivity.
Qed.

(** X3. Every web address that extractUrls returns is read off the text:
    it is a run of consecutive characters of the input, or such a run
    with https:// put in front of it. Nothing is lower-cased, decoded or
    otherwise rewritten. *)
Theorem X3_extractUrls_substring (text : jsstring) :
  Forall (fun u =>
            substringOf u text
            \/ exists v, u = Urls.httpsPrefix ++ v /\ substringOf v text)
         (Urls.extractUrls text).
Proof.
  apply Forall_forall. intros u Hu. apply extractUrls_In in Hu.
  destruct Hu as [_ [m [_ [[pre [post Hsub]] Hu]]]].
  assert (Hs : substringOf (stripTrailing m) text).
  { destruct (stripTrailing_prefix m) as [t Ht].
    exists pre, (t ++ post). rewrite Hsub, Ht at 1.
    now rewrite <- !app_assoc. }
  destruct Hu as [->| ->]; [now left|].
  right. now exists (stripTrailing m).
Qed.


(** ** The request store *)

Lemma nth_error_updateAt (f : SearchRequest -> SearchRequest) (h : store) :
  forall i j,
    nth_error (updateAt i f h) j
    = if Nat.eqb j i then option_map f (nth_error h j) else nth_error h j.
Proof.
  induction h as [|r h IH]; intros i j.
  - destruct i, j; cbn; try reflexivity; now destruct (Nat.eqb j i).
  - destruct i, j; cbn; try reflexivity. apply IH.
Qed.

Lemma length_updateAt (f : SearchRequest -> SearchRequest) (h : store) :
  forall i, length (updateAt i f h) = length h.
Proof.
  induction h as [|r h IH]; intros [|i]; cbn; try reflexivity.
  now rewrite IH.
Qed.

Lemma live_cancel (h : store) (i : nat) :
  liveIsCurrent h (Some i) -> liveIsCurrent (cancel i h) None.
Proof.
  intros [_ H]. split; [discriminate|]. intros j r. unfold cancel.
  rewrite nth_error_updateAt. destruct (Nat.eqb j i) eqn:E.
  - destruct (nth_error h j); [|discriminate]. cbn. intros Hr.
    injection Hr as <-. cbn. split; discriminate.
  - intros Hr. apply H in Hr. apply Nat.eqb_neq in E.
    split; [|discriminate].
    intros Hc. apply Hr in Hc. injection Hc as Hc. now destruct E.
Qed.

Lemma live_push (h : store) (q : jsstring) :
  liveIsCurrent h None ->
  liveIsCurrent (h ++ [{| query := q; cancelled := false |}])
                (Some (length h)).
Proof.
  intros [_ H]. split.
  - intros i Hi. injection Hi as Hi. subst i. rewrite length_app. cbn. lia.
  - intros j r Hr. destruct (Nat.lt_ge_cases j (length h)) as [Hj|Hj].
    + rewrite nth_error_app1 in Hr by assumption. apply H in Hr.
      split; [intros Hc; apply Hr in Hc; discriminate|].
      intros E. injection E as E. lia.
    + rewrite nth_error_app2 in Hr by assumption.
      destruct (j - length h) as [|k] eqn:Ek.
      * cbn in Hr. injection Hr as <-. cbn.
        split; [intros _; f_equal; lia | reflexivity].
      * cbn in Hr. destruct k; discriminate.
Qed.

Lemma live_move (h : store) (ref : option nat) (h' : store)
  (ref' : option nat) :
  refsMove h ref h' ref' -> liveIsCurrent h ref -> liveIsCurrent h' ref'.
Proof.
  intros [[-> ->]|[[i [-> [-> ->]]]|[q [-> ->]]]] H.
  - exact H.
  - now apply live_cancel.
  - apply live_push. destruct ref as [i|]; [now apply live_cancel | exact H].
Qed.

Lemma move_none (h : store) (ref : option nat) : refsMove h ref h ref.
Proof. left. now split. Qed.

Lemma finallyE_refs (q : jsstring) (s : ESW.State) :
  ESW.requests (ESW.finallyBlock q s) = ESW.requests s
  /\ ESW.currentSearchRef (ESW.finallyBlock q s) = ESW.currentSearchRef s.
Proof. unfold ESW.finallyBlock. now destruct (_ && _). Qed.

Lemma queryEffectE_refs (s : ESW.State) :
  ESW.requests (ESW.queryEffect s) = ESW.requests s
  /\ ESW.currentSearchRef (ESW.queryEffect s) = ESW.currentSearchRef s.
Proof. unfold ESW.queryEffect. cbn. now destruct (eqb _ _). Qed.

Lemma searchEverythingE_refs (q : jsstring) (s : ESW.State) :
  refsMove (ESW.requests s) (ESW.currentSearchRef s)
           (ESW.requests (ESW.searchEverything q s))
           (ESW.currentSearchRef (ESW.searchEverything q s)).
Proof.
  unfold ESW.searchEverything.
  destruct (_ || _).
  - cbn. destruct (ESW.currentSearchRef s) as [i|] eqn:E; cbn.
    + right. left. now exists i.
    + left. now split.
  - destruct (negb _); [apply move_none|].
    destruct (ESW.currentQueryIs q s); [apply move_none|].
    right. right. exists q. cbn. now split.
Qed.

Lemma stepE_refs (s : ESW.State) (e : ESW.event) :
  refsMove (ESW.requests s) (ESW.currentSearchRef s)
           (ESW.requests (ESW.step s e))
           (ESW.currentSearchRef (ESW.step s e)).
Proof.
  destruct e; cbn [ESW.step].
  - unfold ESW.onQueryChange. destruct (eqb _ _); [apply move_none|].
    destruct (queryEffectE_refs (ESW.setQueryText value s)) as [-> ->].
    apply move_none.
  - unfold ESW.elapse. destruct (ESW.timer s) as [t|]; [|apply move_none].
    destruct (_ <=? _)%Z; [|apply move_none].
    apply (searchEverythingE_refs (ESW.timerQuery t)
             (ESW.logFired (ESW.timerQuery t) (ESW.setTimer None s))).
  - unfold ESW.onBatch. destruct (ESW.currentCancelled s); apply move_none.
  - unfold ESW.searchResolved. destruct (_ || _).
    + destruct (finallyE_refs searchQuery s) as [-> ->]. apply move_none.
    + match goal with |- context [ESW.finallyBlock ?q ?x] =>
        destruct (finallyE_refs q x) as [-> ->] end. apply move_none.
  - unfold ESW.searchRejected. destruct (ESW.currentCancelled s).
    + destruct (finallyE_refs searchQuery s) as [-> ->]. apply move_none.
    + destruct (ESW.needsRecheck errorStr); [apply move_none|].
      match goal with |- context [ESW.finallyBlock ?q ?x] =>
        destruct (finallyE_refs q x) as [-> ->] end. apply move_none.
  - unfold ESW.statusRechecked.
    destruct (negb _).
    + match goal with |- context [ESW.queryEffect ?x] =>
        destruct (queryEffectE_refs x) as [-> ->] end.
      match goal with |- context [ESW.finallyBlock ?q ?x] =>
        destruct (finallyE_refs q x) as [-> ->] end. apply move_none.
    + match goal with |- context [ESW.finallyBlock ?q ?x] =>
        destruct (finallyE_refs q x) as [-> ->] end. apply move_none.
  - unfold ESW.statusRecheckFailed.
    destruct (finallyE_refs searchQuery s) as [-> ->]. apply move_none.
  - unfold ESW.applyStatus. destruct (negb _); [|apply move_none].
    match goal with |- context [ESW.queryEffect ?x] =>
      destruct (queryEffectE_refs x) as [-> ->] end. apply move_none.
Qed.

Lemma runE_invariant (P : ESW.State -> Prop) :
  (forall s e, P s -> P (ESW.step s e)) ->
  forall es s, P s -> P (ESW.run s es).
Proof.
  intros Hstep. induction es as [|e es IH]; intros s H; [exact H|].
  apply IH. now apply Hstep.
Qed.

Lemma runL_invariant (P : Launcher.State -> Prop) :
  (forall s e, P s -> P (Launcher.step s e)) ->
  forall es s, P s -> P (Launcher.run s es).
Proof.
  intros Hstep. induction es as [|e es IH]; intros s H; [exact H|].
  apply IH. now apply Hstep.
Qed.

Lemma live_init : liveIsCurrent [] None.
Proof.
  split; [discriminate|]. intros [|j] r H; discriminate.
Qed.

Lemma window_live (es : list ESW.event) :
  liveIsCurrent (ESW.requests (ESW.run ESW.init es))
                (ESW.currentSearchRef (ESW.run ESW.init es)).
Proof.
  apply (runE_invariant
           (fun s => liveIsCurrent (ESW.requests s) (ESW.currentSearchRef s))).
  - intros s e H. exact (live_move _ _ _ _ (stepE_refs s e) H).
  - exact live_init.
Qed.

Lemma live_not_cancelled (h : store) (ref : option nat) :
  liveIsCurrent h ref -> refCancelled h ref = false.
Proof.
  intros [H1 H2]. unfold refCancelled, deref. destruct ref as [i|]; [|reflexivity].
  destruct (nth_error h i) as [r|] eqn:E; [|reflexivity].
  now apply (H2 i r E).
Qed.

(** X4. In the search window, whatever events arrive in whatever order,
    at most one request object is not cancelled, and it is the one
    currentSearchRef holds: every request the ref has moved away from was
    cancelled first, and the request the ref holds is never a cancelled
    one. *)
Theorem X4_window_single_live_request (es : list ESW.event) :
  liveIsCurrent (ESW.requests (ESW.run ESW.init es))
                (ESW.currentSearchRef (ESW.run ESW.init es)).
Proof. apply window_live. Qed.

(** X5. The batch listener of the search window never drops a batch: in
    every state the window can reach its cancellation test is false, so
    the results of the batch are merged into the list and both counts
    are overwritten, whichever search the batch belongs to. *)
Theorem X5_window_batch_always_merged (es : list ESW.event)
  (p : BatchPayload) :
  let s := ESW.run ESW.init es in
  ESW.step s (ESW.Batch p)
  = ESW.setResultState (ESW.mergeBatch (ESW.items s) (batch_results p))
                       (Some (batch_total_count p)) (batch_current_count p) s.
Proof.
  cbn [ESW.step]. unfold ESW.onBatch, ESW.currentCancelled.
  now rewrite (live_not_cancelled _ _ (window_live es)).
Qed.

(** ** Invariants of the launcher *)

Lemma extractUrls_blank (q : jsstring) :
  blank q = true -> Urls.extractUrls q = [].
Proof.
  unfold blank, Urls.extractUrls. intros H. apply eqb_true_iff in H.
  rewrite H. cbn. now rewrite orb_true_r.
Qed.

Lemma finallyL_cases (q : jsstring) (s : Launcher.State) :
  Launcher.finallyBlock q s = s
  \/ Launcher.finallyBlock q s = Launcher.setIsSearchingEverything false s.
Proof. unfold Launcher.finallyBlock. destruct (_ && _); auto. Qed.

Ltac inv_split := split; [|split; [|split; [|split]]].

Lemma finallyL_inv (q : jsstring) (s : Launcher.State) :
  launcherInv s -> launcherInv (Launcher.finallyBlock q s).
Proof.
  intros H. destruct (finallyL_cases q s) as [-> | ->]; [exact H|].
  destruct H as [H1 [H2 [H3 [H4 H5]]]]. inv_split; cbn; try assumption.
  intros Hb. destruct (H4 Hb) as [Ha [Hc _]]. now repeat split.
Qed.

Lemma queryEffect_inv (s : Launcher.State) :
  liveIsCurrent (Launcher.requests s) (Launcher.currentSearchRef s) ->
  (blank (Launcher.queryText s) = false ->
   (0 <= Launcher.displayedResultsCount s)%Z) ->
  launcherInv (Launcher.queryEffect s).
Proof.
  intros H1 H2. unfold Launcher.queryEffect.
  fold (blank (Launcher.queryText (Launcher.setTimer None s))).
  change (Launcher.queryText (Launcher.setTimer None s))
    with (Launcher.queryText s).
  destruct (blank (Launcher.queryText s)) eqn:Hb.
  - destruct (Launcher.currentSearchRef s) as [i|] eqn:Hr;
      inv_split; cbn -[Urls.extractUrls blank]; rewrite ?Hr;
      cbn -[Urls.extractUrls blank];
      try (now rewrite extractUrls_blank); try discriminate;
      try (now repeat split); try (now apply live_cancel);
      try assumption; try (rewrite Hr; assumption).
  - inv_split; cbn -[Urls.extractUrls blank]; try assumption;
      try reflexivity; try (now apply H2).
    + intros t Ht. injection Ht as <-. now split.
    + rewrite Hb. discriminate.
Qed.

Lemma onScroll_cases (m : Launcher.ScrollMetrics) (s : Launcher.State) :
  Launcher.onScroll m s = s
  \/ exists n,
       ((0 <= Launcher.displayedResultsCount s)%Z -> (0 < n)%Z)
       /\ Launcher.onScroll m s
          = Launcher.setDisplayedResultsCount n
              (Launcher.setShouldPreserveScrollRef true s).
Proof.
  unfold Launcher.onScroll. destruct (Launcher.isNearBottom m); [|now left].
  cbv zeta.
  set (len := Z.of_nat (length (Launcher.everythingResults s))).
  set (total := match Launcher.everythingTotalCount s with
                | Some t => t
                | None => len
                end).
  destruct (total >? Launcher.displayedResultsCount s)%Z eqn:E; [|now left].
  right. eexists. split; [|reflexivity].
  change (Launcher.displayedResultsCount
            (Launcher.setShouldPreserveScrollRef true s))
    with (Launcher.displayedResultsCount s).
  unfold Launcher.MAX_DISPLAY_RESULTS.
  assert (0 <= len)%Z by (unfold len; lia).
  apply Z.gtb_lt in E. intros Hd.
  destruct (len =? 0)%Z eqn:E0;
    [apply Z.eqb_eq in E0 | apply Z.eqb_neq in E0]; lia.
Qed.

Lemma currentQueryIs_ref (q : jsstring) (s : Launcher.State) :
  Launcher.currentQueryIs q s = true -> Launcher.currentSearchRef s <> None.
Proof.
  unfold Launcher.currentQueryIs, refQueryIs, deref.
  now destruct (Launcher.currentSearchRef s).
Qed.

Lemma stepL_inv (s : Launcher.State) (e : Launcher.event) :
  launcherInv s -> launcherInv (Launcher.step s e).
Proof.
  intros H. pose proof H as [H1 [H2 [H3 [H4 H5]]]].
  destruct e; cbn [Launcher.step].
  - unfold Launcher.onQueryChange. destruct (eqb _ _); [exact H|].
    apply queryEffect_inv; [exact H1 | intros _; exact H5].
  - unfold Launcher.elapse. destruct (Launcher.timer s) as [t|] eqn:Ht;
      [|exact H].
    destruct (H3 t eq_refl) as [Hq Hb].
    destruct (_ <=? _)%Z.
    + unfold Launcher.timerCallback, Launcher.searchEverything.
      destruct (Launcher.timerAvailable t);
        cbn -[Urls.extractUrls blank];
        (inv_split; cbn -[Urls.extractUrls blank]; try assumption;
         try discriminate; try (rewrite Hb; discriminate);
         try (unfold Launcher.MAX_DISPLAY_RESULTS; lia)).
      apply live_push.
      destruct (Launcher.currentSearchRef s);
        [now apply live_cancel | assumption].
    + inv_split; cbn -[Urls.extractUrls blank]; try assumption.
      intros t' Ht'. injection Ht' as <-. now split.
  - unfold Launcher.onBatch. destruct (Launcher.currentCancelled s);
      [exact H|]. inv_split; cbn -[Urls.extractUrls blank]; assumption.
  - unfold Launcher.searchResolved.
    destruct (Launcher.currentCancelled s) eqn:Hc; cbn [orb];
      [now apply finallyL_inv|].
    destruct (Launcher.currentQueryIs searchQuery s) eqn:Hq; cbn [negb];
      [|now apply finallyL_inv].
    apply finallyL_inv. apply currentQueryIs_ref in Hq.
    inv_split; cbn -[Urls.extractUrls blank]; try assumption.
    + intros Hb. destruct (H4 Hb) as [Hn _]. now destruct Hq.
    + unfold Launcher.MAX_DISPLAY_RESULTS. lia.
  - unfold Launcher.searchRejected.
    destruct (Launcher.currentCancelled s) eqn:Hc; cbn [orb];
      [now apply finallyL_inv|].
    destruct (Launcher.currentQueryIs searchQuery s) eqn:Hq; cbn [negb];
      [|now apply finallyL_inv].
    assert (Hi : launcherInv
                   (Launcher.setEverythingCurrentCount 0
                      (Launcher.setEverythingTotalCount None
                         (Launcher.setEverythingResults [] s)))).
    { inv_split; cbn -[Urls.extractUrls blank]; try assumption.
      intros Hb. destruct (H4 Hb) as [Hn [_ Hs]]. now repeat split. }
    destruct (Launcher.needsRecheck errorStr);
      [exact Hi | now apply finallyL_inv].
  - unfold Launcher.statusRechecked.
    assert (Hi : launcherInv
                   (Launcher.finallyBlock searchQuery
                      (Launcher.setStatus (available st) (errorOrNull st) s))).
    { apply finallyL_inv. inv_split; cbn -[Urls.extractUrls blank];
        assumption. }
    destruct (negb _); [|exact Hi].
    destruct Hi as [Hi1 [_ [_ [_ Hi5]]]].
    apply queryEffect_inv; [exact Hi1 | intros _; exact Hi5].
  - unfold Launcher.statusRecheckFailed.
    assert (Hi : launcherInv
                   (Launcher.finallyBlock searchQuery
                      (Launcher.setStatus false
                         (Some Launcher.recheckFailedMessage) s))).
    { apply finallyL_inv. inv_split; cbn -[Urls.extractUrls blank];
        assumption. }
    destruct (Launcher.isEverythingAvailable s); [|exact Hi].
    destruct Hi as [Hi1 [_ [_ [_ Hi5]]]].
    apply queryEffect_inv; [exact Hi1 | intros _; exact Hi5].
  - unfold Launcher.applyStatus.
    destruct (negb _).
    + apply queryEffect_inv; [exact H1 | intros _; exact H5].
    + inv_split; cbn -[Urls.extractUrls blank]; assumption.
  - destruct (onScroll_cases m s) as [-> | [n [Hn ->]]]; [exact H|].
    inv_split; cbn -[Urls.extractUrls blank]; try assumption.
    specialize (Hn H5). lia.
Qed.

Lemma launcher_invariant (es : list Launcher.event) :
  launcherInv (Launcher.run Launcher.init es).
Proof.
  apply (runL_invariant launcherInv stepL_inv).
  inv_split; cbn -[Urls.extractUrls blank];
    try reflexivity; try discriminate; try (now repeat split).
  exact live_init.
Qed.

(** X6. In the launcher, whatever events arrive in whatever order, at
    most one request object is not cancelled, and it is the one
    currentSearchRef holds; the request the ref holds is never a
    cancelled one. *)
Theorem X6_launcher_single_live_request (es : list Launcher.event) :
  liveIsCurrent (Launcher.requests (Launcher.run Launcher.init es))
                (Launcher.currentSearchRef (Launcher.run Launcher.init es)).
Proof. exact (proj1 (launcher_invariant es)). Qed.

(** X7. In every state the launcher reaches, the detected URLs are the
    URLs of the text now in the input field: they follow every change of
    the input at once, without waiting for the debounce delay, and no
    search result or status event alters them. *)
Theorem X7_launcher_urls_follow_input (es : list Launcher.event) :
  let s := Launcher.run Launcher.init es in
  Launcher.detectedUrls s = Urls.extractUrls (Launcher.queryText s).
Proof. exact (proj1 (proj2 (launcher_invariant es))). Qed.

(** X8. Whenever the input of the launcher is blank, after any run of
    events, nothing of a disk search is left: there is no current
    request and no pending timer, the list of disk results and the list
    of detected URLs are empty, and the launcher does not show itself as
    searching. Late responses and failures of earlier searches cannot
    bring results back while the input stays blank. *)
Theorem X8_launcher_blank_input_is_cleared (es : list Launcher.event) :
  let s := Launcher.run Launcher.init es in
  blank (Launcher.queryText s) = true -> launcherCleared s.
Proof.
  intros s Hb. destruct (launcher_invariant es) as [_ [H2 [H3 [H4 _]]]].
  fold s in H2, H3, H4. destruct (H4 Hb) as [Hr [He Hs]].
  unfold launcherCleared. repeat split; try assumption.
  - destruct (Launcher.timer s) as [t|] eqn:Ht; [|reflexivity].
    destruct (H3 t eq_refl) as [_ Hn]. congruence.
  - rewrite H2. now apply extractUrls_blank.
Qed.

Lemma X8_launcher_blank_input_is_cleared_witness :
  launcherCleared
    (Launcher.run Launcher.init
       [Launcher.StatusChecked statusAvailable;
        Launcher.QueryChange (str "a"); Launcher.Elapse 500;
        Launcher.QueryChange (str " ");
        Launcher.Resolved (str "a") (responseOf (files 2))]).
Proof.
  apply (X8_launcher_blank_input_is_cleared
           [Launcher.StatusChecked statusAvailable;
            Launcher.QueryChange (str "a"); Launcher.Elapse 500;
            Launcher.QueryChange (str " ");
            Launcher.Resolved (str "a") (responseOf (files 2))]).
  vm_compute. reflexivity.
Defined.

(** ** Invariants of the search window *)

Ltac win_split := split; [|split; [|split]].

Lemma finallyE_cases (q : jsstring) (s : ESW.State) :
  ESW.finallyBlock q s = s
  \/ ESW.finallyBlock q s = ESW.setIsSearching false s.
Proof. unfold ESW.finallyBlock. destruct (_ && _); auto. Qed.

Lemma finallyE_inv (q : jsstring) (s : ESW.State) :
  windowInv s -> windowInv (ESW.finallyBlock q s).
Proof.
  intros H. destruct (finallyE_cases q s) as [-> | ->]; exact H.
Qed.

Lemma queryEffectE_inv (s : ESW.State) :
  windowInv s -> windowInv (ESW.queryEffect s).
Proof.
  intros [H1 [H2 [H3 H4]]]. unfold ESW.queryEffect. cbv zeta.
  change (ESW.queryText (ESW.setTimer None s)) with (ESW.queryText s).
  destruct (eqb (trim (ESW.queryText s)) []) eqn:Hb.
  - win_split; try assumption. cbn. discriminate.
  - win_split; try assumption. cbn. intros t Ht. injection Ht as <-. cbn.
    split; [apply trim_idempotent|]. now apply eqb_false_iff in Hb.
Qed.

Lemma noRepeat_snoc (l : list jsstring) (a b : jsstring) :
  noRepeat (l ++ [a]) -> a <> b -> noRepeat ((l ++ [a]) ++ [b]).
Proof.
  intros H Hab. induction l as [|x l IH].
  - cbn. now repeat split.
  - cbn [app noRepeat] in *. destruct H as [Hx H]. split; [|now apply IH].
    destruct l; exact Hx.
Qed.

Lemma query_cancel (h : store) (i j : nat) :
  option_map query (nth_error (cancel i h) j)
  = option_map query (nth_error h j).
Proof.
  unfold cancel. rewrite nth_error_updateAt.
  destruct (Nat.eqb j i); [|reflexivity]. now destruct (nth_error h j).
Qed.

Lemma searchEverythingE_inv (q : jsstring) (s : ESW.State) :
  trimmedQuery q -> windowInv s -> windowInv (ESW.searchEverything q s).
Proof.
  intros [Ht Hne] H. pose proof H as [H1 [H2 [H3 H4]]].
  unfold ESW.searchEverything.
  replace (match q with [] => true | _ => false end || eqb (trim q) [])
    with false.
  2:{ symmetry. apply orb_false_iff. split; [now destruct q|].
      rewrite Ht. now apply eqb_false_iff. }
  destruct (negb _); [exact H|].
  destruct (ESW.currentQueryIs q s) eqn:Hq; [exact H|].
  win_split; cbn.
  - exact H1.
  - apply Forall_app. split; [exact H2|]. constructor; [|constructor].
    now split.
  - exists {| query := q; cancelled := false |}, (ESW.calls s).
    split; [|reflexivity]. rewrite nth_error_app2 by lia.
    now rewrite Nat.sub_diag.
  - unfold lastCallIsCurrent in H3.
    unfold ESW.currentQueryIs, refQueryIs, deref in Hq.
    destruct (ESW.currentSearchRef s) as [i|].
    + destruct H3 as [r [l [Hr Hl]]]. rewrite Hr in Hq. rewrite Hl in *.
      apply noRepeat_snoc; [exact H4 | now apply eqb_false_iff].
    + rewrite H3. cbn. now split.
Qed.

Lemma stepE_inv (s : ESW.State) (e : ESW.event) :
  windowInv s -> windowInv (ESW.step s e).
Proof.
  intros H. pose proof H as [H1 [H2 [H3 H4]]].
  destruct e; cbn [ESW.step].
  - unfold ESW.onQueryChange. destruct (eqb _ _); [exact H|].
    now apply queryEffectE_inv.
  - unfold ESW.elapse. destruct (ESW.timer s) as [t|] eqn:Ht; [|exact H].
    destruct (_ <=? _)%Z.
    + apply searchEverythingE_inv; [now apply H1|].
      win_split; cbn; try assumption. discriminate.
    + win_split; try assumption. cbn. intros t' Ht'. injection Ht' as <-.
      cbn. now apply H1.
  - unfold ESW.onBatch. destruct (ESW.currentCancelled s); exact H.
  - unfold ESW.searchResolved. destruct (_ || _); now apply finallyE_inv.
  - unfold ESW.searchRejected. destruct (ESW.currentCancelled s);
      [now apply finallyE_inv|].
    destruct (ESW.needsRecheck errorStr); [exact H|now apply finallyE_inv].
  - unfold ESW.statusRechecked.
    destruct (negb _); [apply queryEffectE_inv|]; now apply finallyE_inv.
  - unfold ESW.statusRecheckFailed. now apply finallyE_inv.
  - unfold ESW.applyStatus. destruct (negb _); [|exact H].
    now apply queryEffectE_inv.
Qed.

Lemma window_invariant (es : list ESW.event) :
  windowInv (ESW.run ESW.init es).
Proof.
  apply (runE_invariant windowInv stepE_inv).
  win_split; cbn; try constructor; try reflexivity; try discriminate.
Qed.

(** X9. Every query the search window hands to the disk search is
    trimmed and not empty, whatever is typed and whenever the timer
    fires: the test for an empty query at the head of searchEverything
    never holds for a query that reaches it. *)
Theorem X9_window_calls_are_trimmed (es : list ESW.event) :
  Forall trimmedQuery (ESW.calls (ESW.run ESW.init es)).
Proof. exact (proj1 (proj2 (window_invariant es))). Qed.

(** X10. The search window never sends the same query twice in
    succession: a query equal to that of the request currentSearchRef
    holds is skipped, also when that request has failed or the input was
    cleared in between, so two neighbours in the sequence of calls always
    differ. *)
Theorem X10_window_no_repeated_call (es : list ESW.event) :
  noRepeat (ESW.calls (ESW.run ESW.init es)).
Proof. exact (proj2 (proj2 (proj2 (window_invariant es)))). Qed.

Lemma dedupStep_paths (rs : list EverythingResult) :
  NoDup (map path (ESW.uniqueResults rs)).
Proof. rewrite uniqueResults_dedup. apply dedup_NoDup. Qed.

Lemma stepE_distinct (s : ESW.State) (e : ESW.event) :
  match e with
  | ESW.Batch p => NoDup (map path (batch_results p))
  | _ => True
  end ->
  NoDup (map path (ESW.items s)) ->
  NoDup (map path (ESW.items (ESW.step s e))).
Proof.
  intros He H.
  assert (Hf : forall q x, NoDup (map path (ESW.items x)) ->
                           NoDup (map path (ESW.items (ESW.finallyBlock q x)))).
  { intros q x Hx. now destruct (finallyE_cases q x) as [-> | ->]. }
  assert (Hq : forall x, NoDup (map path (ESW.items x)) ->
                         NoDup (map path (ESW.items (ESW.queryEffect x)))).
  { intros x Hx. unfold ESW.queryEffect. cbv zeta.
    destruct (eqb _ _); cbn; [constructor | exact Hx]. }
  destruct e; cbn [ESW.step].
  - unfold ESW.onQueryChange. destruct (eqb _ _); [exact H | now apply Hq].
  - unfold ESW.elapse. destruct (ESW.timer s) as [t|]; [|exact H].
    destruct (_ <=? _)%Z; [|exact H].
    unfold ESW.searchEverything.
    destruct (_ || _).
    + cbn. destruct (ESW.currentSearchRef s); cbn; constructor.
    + destruct (negb _); [cbn; constructor|].
      destruct (ESW.currentQueryIs _ _); [exact H | cbn; constructor].
  - unfold ESW.onBatch. destruct (ESW.currentCancelled s); [exact H|].
    cbn. now apply merge_keeps_paths_distinct.
  - unfold ESW.searchResolved. destruct (_ || _); apply Hf; [exact H|].
    cbn. apply dedupStep_paths.
  - unfold ESW.searchRejected. destruct (ESW.currentCancelled s);
      [now apply Hf|].
    destruct (ESW.needsRecheck errorStr); [|apply Hf]; cbn; constructor.
  - unfold ESW.statusRechecked.
    destruct (negb _); [apply Hq|]; now apply Hf.
  - unfold ESW.statusRecheckFailed. now apply Hf.
  - unfold ESW.applyStatus. destruct (negb _); [now apply Hq | exact H].
Qed.

(** X11. When no batch carries the same path twice, the search window
    never lists a path twice: after any run of events the paths of the
    results are pairwise different, so the path can serve as the key of a
    row. The final response needs no such condition, it is de-duplicated
    on arrival. *)
Theorem X11_window_paths_distinct (es : list ESW.event) :
  distinctBatches es ->
  NoDup (map path (ESW.items (ESW.run ESW.init es))).
Proof.
  assert (G : forall s, distinctBatches es ->
                        NoDup (map path (ESW.items s)) ->
                        NoDup (map path (ESW.items (ESW.run s es)))).
  { induction es as [|e es IH]; intros s Hd Hs; [exact Hs|].
    inversion Hd as [|e' es' He Hes]; subst. cbn [ESW.run fold_left].
    apply IH; [exact Hes | now apply stepE_distinct]. }
  intros Hd. apply G; [exact Hd | constructor].
Qed.

Lemma X11_window_paths_distinct_witness :
  NoDup (map path
           (ESW.items
              (ESW.run ESW.init
                 [ESW.StatusChecked statusAvailable;
                  ESW.QueryChange (str "f"); ESW.Elapse 300;
                  ESW.Batch (batchOf (files 2) 3);
                  ESW.Batch (batchOf (files 3) 3)]))).
Proof.
  apply (X11_window_paths_distinct
           [ESW.StatusChecked statusAvailable;
            ESW.QueryChange (str "f"); ESW.Elapse 300;
            ESW.Batch (batchOf (files 2) 3);
            ESW.Batch (batchOf (files 3) 3)]).
  repeat constructor; cbn; intros H;
    repeat (destruct H as [H|H]; [discriminate H|]); exact H.
Defined.

Lemma finallyL_log (q : jsstring) (s : Launcher.State) :
  launcherLog s -> launcherLog (Launcher.finallyBlock q s).
Proof.
  intros H. destruct (finallyL_cases q s) as [-> | ->]; exact H.
Qed.

Lemma queryEffect_log (s : Launcher.State) :
  launcherLog s -> launcherLog (Launcher.queryEffect s).
Proof.
  intros H. unfold Launcher.queryEffect. cbv zeta.
  destruct (eqb _ _); [|exact H].
  destruct (Launcher.currentSearchRef (Launcher.setTimer None s)); exact H.
Qed.

Lemma stepL_log (s : Launcher.State) (e : Launcher.event) :
  launcherInv s -> launcherLog s -> launcherLog (Launcher.step s e).
Proof.
  intros [_ [_ [H3 _]]] H. pose proof H as [L1 [L2 [L3 L4]]].
  destruct e; cbn [Launcher.step].
  - unfold Launcher.onQueryChange. destruct (eqb _ _); [exact H|].
    now apply queryEffect_log.
  - unfold Launcher.elapse. destruct (Launcher.timer s) as [t|] eqn:Ht;
      [|exact H].
    destruct (H3 t eq_refl) as [Hq Hb]. rewrite <- Hq in Hb.
    destruct (_ <=? _)%Z; [|exact H].
    unfold Launcher.timerCallback, Launcher.searchEverything, launcherLog,
      appQueries, fileQueries, diskQueries.
    destruct (Launcher.timerAvailable t); cbn -[blank];
      rewrite ?flat_map_app; cbn -[blank]; rewrite ?app_nil_r;
      fold (appQueries (Launcher.calls s));
      fold (fileQueries (Launcher.calls s));
      fold (diskQueries (Launcher.calls s));
      rewrite ?L1, ?L2;
      (split; [reflexivity|]; split; [reflexivity|]; split;
       [|apply Forall_app; split; [exact L4 | now repeat constructor]]).
    + apply incl_app; [now apply incl_appl|].
      apply incl_appr, incl_refl.
    + now apply incl_appl.
  - unfold Launcher.onBatch. destruct (Launcher.currentCancelled s); exact H.
  - unfold Launcher.searchResolved.
    destruct (_ || _); now apply finallyL_log.
  - unfold Launcher.searchRejected. destruct (_ || _);
      [now apply finallyL_log|].
    destruct (Launcher.needsRecheck errorStr);
      [exact H | now apply finallyL_log].
  - unfold Launcher.statusRechecked.
    destruct (negb _); [apply queryEffect_log|]; now apply finallyL_log.
  - unfold Launcher.statusRecheckFailed.
    destruct (Launcher.isEverythingAvailable s);
      [apply queryEffect_log|]; now apply finallyL_log.
  - unfold Launcher.applyStatus.
    destruct (negb _); [now apply queryEffect_log | exact H].
  - destruct (onScroll_cases m s) as [-> | [n [_ ->]]]; exact H.
Qed.

(** X12. In the launcher, after any run of events: the application
    search and the file-history search have each been called exactly once
    per firing of the debounce timer, in the order of the firings and
    with the query of the firing as it was typed; the disk search has
    been called for fired queries only; and the timer never fires for a
    blank query. *)
Theorem X12_launcher_calls_follow_firings (es : list Launcher.event) :
  launcherLog (Launcher.run Launcher.init es).
Proof.
  apply (runL_invariant (fun s => launcherInv s /\ launcherLog s)).
  - intros s e [Hi Hl]. split; [now apply stepL_inv | now apply stepL_log].
  - split; [exact (launcher_invariant []) |].
    repeat split; cbn; try reflexivity; [intros x [] | constructor].
Qed.

(** ** The keyboard handler: cycling and launching *)

Lemma handleKeyDown_ArrowRight (e : Keyboard.KeyEvent) (d : Keyboard.Dom)
  (s : Keyboard.State) :
  Keyboard.key e = str "ArrowRight" -> Keyboard.keyCode e <> 27%Z ->
  Keyboard.handleKeyDown e d s = Keyboard.handleArrowLeftRight true d s.
Proof.
  intros Hk Hc. apply Z.eqb_neq in Hc. unfold Keyboard.handleKeyDown.
  rewrite !(keyIs_of_key e "ArrowRight" _ Hk), Hc. reflexivity.
Qed.

Lemma handleKeyDown_ArrowLeft (e : Keyboard.KeyEvent) (d : Keyboard.Dom)
  (s : Keyboard.State) :
  Keyboard.key e = str "ArrowLeft" -> Keyboard.keyCode e <> 27%Z ->
  Keyboard.handleKeyDown e d s = Keyboard.handleArrowLeftRight false d s.
Proof.
  intros Hk Hc. apply Z.eqb_neq in Hc. unfold Keyboard.handleKeyDown.
  rewrite !(keyIs_of_key e "ArrowLeft" _ Hk), Hc. reflexivity.
Qed.

Lemma handleKeyDown_Enter (e : Keyboard.KeyEvent) (d : Keyboard.Dom)
  (s : Keyboard.State) :
  Keyboard.key e = str "Enter" -> Keyboard.keyCode e <> 27%Z ->
  Keyboard.handleKeyDown e d s = Keyboard.handleEnter s.
Proof.
  intros Hk Hc. apply Z.eqb_neq in Hc. unfold Keyboard.handleKeyDown.
  rewrite !(keyIs_of_key e "Enter" _ Hk), Hc. reflexivity.
Qed.

(** ArrowLeft and ArrowRight on a horizontal selection when the input
    does not have the focus: one step round the list. *)
Lemma leftRight_mod (isRight : bool) (d : Keyboard.Dom) (s : Keyboard.State)
  (i : Z) :
  Keyboard.inputIsActive d = false ->
  Keyboard.selectedHorizontalIndex s = Some i ->
  (0 <= i < Keyboard.len (Keyboard.horizontalResults (Keyboard.lists s)))%Z ->
  fst (Keyboard.handleArrowLeftRight isRight d s)
  = Keyboard.setSelectedVerticalIndex None
      (Keyboard.setSelectedHorizontalIndex
         (Some ((if isRight then i + 1 else i - 1)
                mod Keyboard.len (Keyboard.horizontalResults (Keyboard.lists s)))%Z)
         (Keyboard.setIsHorizontalNavigationRef true s)).
Proof.
  intros Hd Hi Hr. unfold Keyboard.handleArrowLeftRight, Keyboard.inputKeepsArrow.
  rewrite Hd. cbn [andb].
  set (n := Keyboard.len (Keyboard.horizontalResults (Keyboard.lists s))) in *.
  replace (n =? 0)%Z with false by (symmetry; apply Z.eqb_neq; lia).
  cbn [Keyboard.selectedHorizontalIndex Keyboard.setIsHorizontalNavigationRef].
  rewrite Hi. destruct isRight.
  - destruct (i <? n - 1)%Z eqn:E; cbn [fst]; do 3 f_equal.
    + apply Z.ltb_lt in E. symmetry. apply Z.mod_small. lia.
    + apply Z.ltb_ge in E. replace (i + 1)%Z with n by lia.
      symmetry. apply Z.mod_same. lia.
  - destruct (i =? 0)%Z eqn:E; cbn [fst].
    + apply Z.eqb_eq in E. subst i. do 3 f_equal.
      symmetry. replace (0 - 1)%Z with (n - 1 + (-1) * n)%Z by lia.
      rewrite Z.mod_add by lia. apply Z.mod_small. lia.
    + apply Z.eqb_neq in E.
      replace (i >? 0)%Z with true by (symmetry; apply Z.gtb_lt; lia).
      do 3 f_equal. symmetry. apply Z.mod_small. lia.
Qed.

(** X13. With the focus outside the input, ArrowRight and ArrowLeft move
    a horizontal selection round the horizontal list: from index i of a
    list of n entries ArrowRight selects index (i + 1) mod n and
    ArrowLeft index (i - 1) mod n, the vertical index stays null, and the
    two keys undo one another in either order. *)
Theorem X13_horizontal_keys_cycle (eR eL : Keyboard.KeyEvent)
  (d : Keyboard.Dom) (s : Keyboard.State) (i : Z) :
  Keyboard.key eR = str "ArrowRight" -> Keyboard.keyCode eR <> 27%Z ->
  Keyboard.key eL = str "ArrowLeft" -> Keyboard.keyCode eL <> 27%Z ->
  Keyboard.inputIsActive d = false ->
  Keyboard.selectionOk s ->
  Keyboard.selectedHorizontalIndex s = Some i ->
  let n := Keyboard.len (Keyboard.horizontalResults (Keyboard.lists s)) in
  Keyboard.hasSelection (Keyboard.horizontal ((i + 1) mod n))
    (Keyboard.step s (Keyboard.KeyDown eR d))
  /\ Keyboard.hasSelection (Keyboard.horizontal ((i - 1) mod n))
       (Keyboard.step s (Keyboard.KeyDown eL d))
  /\ Keyboard.hasSelection (Keyboard.horizontal i)
       (Keyboard.run s [Keyboard.KeyDown eR d; Keyboard.KeyDown eL d])
  /\ Keyboard.hasSelection (Keyboard.horizontal i)
       (Keyboard.run s [Keyboard.KeyDown eL d; Keyboard.KeyDown eR d]).
Proof.
  intros HkR HcR HkL HcL Hd [_ [Hh _]] Hi n. specialize (Hh i Hi). fold n in Hh.
  cbn [Keyboard.run fold_left Keyboard.step].
  rewrite !(handleKeyDown_ArrowRight eR d) by assumption.
  rewrite !(handleKeyDown_ArrowLeft eL d) by assumption.
  rewrite (leftRight_mod true d s i Hd Hi Hh).
  rewrite (leftRight_mod false d s i Hd Hi Hh). fold n.
  assert (Hn : (0 < n)%Z) by lia.
  pose proof (Z.mod_pos_bound (i + 1) n Hn) as H1.
  pose proof (Z.mod_pos_bound (i - 1) n Hn) as H2.
  rewrite (leftRight_mod false d
             (Keyboard.setSelectedVerticalIndex None
                (Keyboard.setSelectedHorizontalIndex (Some ((i + 1) mod n)%Z)
                   (Keyboard.setIsHorizontalNavigationRef true s)))
             ((i + 1) mod n) Hd eq_refl H1).
  rewrite (leftRight_mod true d
             (Keyboard.setSelectedVerticalIndex None
                (Keyboard.setSelectedHorizontalIndex (Some ((i - 1) mod n)%Z)
                   (Keyboard.setIsHorizontalNavigationRef true s)))
             ((i - 1) mod n) Hd eq_refl H2).
  unfold Keyboard.hasSelection.
  cbn [Keyboard.selectedHorizontalIndex Keyboard.selectedVerticalIndex
       Keyboard.setSelectedVerticalIndex Keyboard.setSelectedHorizontalIndex
       Keyboard.setIsHorizontalNavigationRef Keyboard.lists
       Keyboard.indicesOf].
  fold n. repeat split; do 3 f_equal.
  - rewrite Zminus_mod_idemp_l. replace (i + 1 - 1)%Z with i by lia.
    apply Z.mod_small. lia.
  - rewrite Zplus_mod_idemp_l. replace (i - 1 + 1)%Z with i by lia.
    apply Z.mod_small. lia.
Qed.

Lemma X13_horizontal_keys_cycle_witness :
  Keyboard.hasSelection (Keyboard.horizontal 0)
    (Keyboard.step (navState 3 5 (Keyboard.horizontal 2))
       (Keyboard.KeyDown (pressed "ArrowRight" 39) inputBlurred))
  /\ Keyboard.hasSelection (Keyboard.horizontal 2)
       (Keyboard.run (navState 3 5 (Keyboard.horizontal 2))
          [Keyboard.KeyDown (pressed "ArrowRight" 39) inputBlurred;
           Keyboard.KeyDown (pressed "ArrowLeft" 37) inputBlurred]).
Proof.
  assert (Hok : Keyboard.selectionOk (navState 3 5 (Keyboard.horizontal 2))).
  { selection_cases. }
  pose proof (X13_horizontal_keys_cycle
                (pressed "ArrowRight" 39) (pressed "ArrowLeft" 37)
                inputBlurred (navState 3 5 (Keyboard.horizontal 2)) 2%Z
                eq_refl ltac:(discriminate) eq_refl ltac:(discriminate)
                eq_refl Hok eq_refl) as [H1 [_ [H3 _]]].
  split; [exact H1 | exact H3].
Defined.

(** X14. Enter launches what is selected and nothing else. In a state
    whose selection is within its lists, Enter calls handleLaunch with
    the entry under the selection, exactly once and after
    preventDefault; without a selection it calls nothing; in both cases
    the selection, the lists and the rest of the state stay as they
    are. *)
Theorem X14_enter_launches_selection (e : Keyboard.KeyEvent)
  (d : Keyboard.Dom) (s : Keyboard.State) :
  Keyboard.key e = str "Enter" -> Keyboard.keyCode e <> 27%Z ->
  Keyboard.selectionOk s ->
  fst (Keyboard.handleKeyDown e d s) = s
  /\ snd (Keyboard.handleKeyDown e d s)
     = Keyboard.PreventDefault
       :: match selectedEntry s with
          | Some r => [Keyboard.HandleLaunch r]
          | None => []
          end
  /\ (selectedEntry s = None <-> Keyboard.hasSelection Keyboard.none s).
Proof.
  intros Hk Hc [Hone [Hh Hv]]. rewrite (handleKeyDown_Enter e d s Hk Hc).
  unfold Keyboard.handleEnter, selectedEntry, Keyboard.hasSelection,
    Keyboard.at_.
  destruct (Keyboard.selectedHorizontalIndex s) as [i|] eqn:Ei;
    destruct (Keyboard.selectedVerticalIndex s) as [j|] eqn:Ej;
    try (destruct Hone; discriminate).
  - specialize (Hh i eq_refl).
    replace (i <? 0)%Z with false by (symmetry; apply Z.ltb_ge; lia).
    destruct (nth_error _ (Z.to_nat i)) as [r|] eqn:En.
    + cbn. repeat split; discriminate.
    + apply nth_error_None in En. unfold Keyboard.len in Hh. lia.
  - specialize (Hv j eq_refl).
    replace (j <? 0)%Z with false by (symmetry; apply Z.ltb_ge; lia).
    destruct (nth_error _ (Z.to_nat j)) as [r|] eqn:En.
    + cbn. repeat split; discriminate.
    + apply nth_error_None in En. unfold Keyboard.len in Hv. lia.
  - cbn. now repeat split.
Qed.

Lemma X14_enter_launches_selection_witness :
  snd (Keyboard.handleKeyDown (pressed "Enter" 13) inputFocused
         (navState 3 5 (Keyboard.vertical 4)))
  = [Keyboard.PreventDefault; Keyboard.HandleLaunch (entryNo 4)].
Proof.
  assert (Hok : Keyboard.selectionOk (navState 3 5 (Keyboard.vertical 4))).
  { selection_cases. }
  exact (proj1 (proj2 (X14_enter_launches_selection
                         (pressed "Enter" 13) inputFocused
                         (navState 3 5 (Keyboard.vertical 4))
                         eq_refl ltac:(discriminate) Hok))).
Defined.

(** ** Sorting and slicing *)

Lemma insertWith_perm {A : Type} (cmp : A -> A -> Z) (x : A) (l : list A) :
  Permutation (JSArray.insertWith cmp x l) (x :: l).
Proof.
  induction l as [|y l IH]; cbn; [reflexivity|].
  destruct (cmp x y <=? 0)%Z; [reflexivity|].
  rewrite IH. apply perm_swap.
Qed.

Lemma sortWith_perm {A : Type} (cmp : A -> A -> Z) (l : list A) :
  Permutation (JSArray.sortWith cmp l) l.
Proof.
  induction l as [|x l IH]; cbn; [reflexivity|].
  rewrite insertWith_perm. now constructor.
Qed.

Lemma sortWith_In {A : Type} (cmp : A -> A -> Z) (l : list A) (x : A) :
  In x (JSArray.sortWith cmp l) <-> In x l.
Proof.
  split; apply Permutation_in;
    [apply sortWith_perm | apply Permutation_sym, sortWith_perm].
Qed.

Lemma insertWith_desc {A : Type} (key : A -> Z) (cmp : A -> A -> Z) :
  (forall a b, cmp a b = (key b - key a)%Z) ->
  forall x l, descendingBy key l ->
              descendingBy key (JSArray.insertWith cmp x l).
Proof.
  intros Hcmp x l H. induction H as [|y l Hs IH Hy]; cbn.
  - constructor; constructor.
  - rewrite Hcmp. destruct (key y - key x <=? 0)%Z eqn:E.
    + apply Z.leb_le in E. constructor; [now constructor|].
      constructor; [lia|]. eapply Forall_impl; [|exact Hy].
      cbn. intros. lia.
    + apply Z.leb_gt in E. constructor; [exact IH|].
      apply (Permutation_Forall (Permutation_sym (insertWith_perm cmp x l))).
      constructor; [lia | exact Hy].
Qed.

Lemma sortWith_desc {A : Type} (key : A -> Z) (cmp : A -> A -> Z) :
  (forall a b, cmp a b = (key b - key a)%Z) ->
  forall l, descendingBy key (JSArray.sortWith cmp l).
Proof.
  intros Hcmp. induction l as [|x l IH]; cbn; [constructor|].
  now apply insertWith_desc.
Qed.

(** Stability: the elements of one key keep their order. *)
Lemma insertWith_stable {A : Type} (key : A -> Z) (cmp : A -> A -> Z) :
  (forall a b, cmp a b = (key b - key a)%Z) ->
  forall k x l,
    filter (fun a => (key a =? k)%Z) (JSArray.insertWith cmp x l)
    = filter (fun a => (key a =? k)%Z) (x :: l).
Proof.
  intros Hcmp k x. induction l as [|y l IH]; [reflexivity|].
  cbn [JSArray.insertWith]. rewrite Hcmp.
  destruct (key y - key x <=? 0)%Z eqn:E; [reflexivity|].
  apply Z.leb_gt in E. cbn [filter] in *. rewrite IH.
  destruct (key x =? k)%Z eqn:Ex; destruct (key y =? k)%Z eqn:Ey;
    try reflexivity.
  apply Z.eqb_eq in Ex, Ey. lia.
Qed.

Lemma sortWith_stable {A : Type} (key : A -> Z) (cmp : A -> A -> Z) :
  (forall a b, cmp a b = (key b - key a)%Z) ->
  forall k l,
    filter (fun a => (key a =? k)%Z) (JSArray.sortWith cmp l)
    = filter (fun a => (key a =? k)%Z) l.
Proof.
  intros Hcmp k. induction l as [|x l IH]; [reflexivity|].
  cbn [JSArray.sortWith fold_right].
  rewrite (insertWith_stable key cmp Hcmp). cbn [filter].
  fold (JSArray.sortWith cmp l). now rewrite IH.
Qed.

Lemma sliceTo_firstn {A : Type} (n : nat) (l : list A) :
  JSArray.sliceTo (Z.of_nat n) l = firstn n l.
Proof.
  unfold JSArray.sliceTo.
  replace (Z.of_nat n <? 0)%Z with false by (symmetry; apply Z.ltb_ge; lia).
  destruct (Nat.le_gt_cases n (length l)) as [H|H].
  - rewrite Z.min_l by lia. now rewrite Nat2Z.id.
  - rewrite Z.min_r by lia. rewrite Nat2Z.id.
    rewrite firstn_all. symmetry. apply firstn_all2. lia.
Qed.

Lemma descending_cross {A : Type} (key : A -> Z) (l1 l2 : list A) :
  descendingBy key (l1 ++ l2) ->
  forall a b, In a l1 -> In b l2 -> (key b <= key a)%Z.
Proof.
  induction l1 as [|x l1 IH]; intros H a b Ha Hb; [destruct Ha|].
  cbn in H. inversion H as [|y l Hs Hx]; subst.
  destruct Ha as [<-|Ha].
  - rewrite Forall_forall in Hx. apply Hx. apply in_or_app. now right.
  - now apply (IH Hs a b).
Qed.

Lemma firstn_sub {A : Type} (n : nat) (l : list A) (x : A) :
  In x (firstn n l) -> In x l.
Proof.
  intros H. rewrite <- (firstn_skipn n l). apply in_or_app. now left.
Qed.

Lemma descending_firstn {A : Type} (key : A -> Z) (n : nat) (l : list A) :
  descendingBy key l -> descendingBy key (firstn n l).
Proof.
  intros H. revert n. induction H as [|x l Hs IH Hx]; intros [|n]; cbn;
    try constructor.
  - apply IH.
  - rewrite Forall_forall in *. intros y Hy. apply Hx.
    now apply firstn_sub with n.
Qed.

(** The first [n] of a descending list are the greatest: an element left
    out is not above any of them, and then all [n] places are taken. *)
Lemma descending_top {A : Type} (key : A -> Z) (n : nat) (l : list A) :
  descendingBy key l ->
  forall x, In x l ->
    In x (firstn n l)
    \/ (length (firstn n l) = n
        /\ Forall (fun r => (key x <= key r)%Z) (firstn n l)).
Proof.
  intros H x Hx. rewrite <- (firstn_skipn n l) in Hx, H.
  apply in_app_or in Hx. destruct Hx as [Hx|Hx]; [now left|]. right. split.
  - apply firstn_length_le. destruct (Nat.le_gt_cases n (length l)); [assumption|].
    rewrite skipn_all2 in Hx by lia. destruct Hx.
  - apply Forall_forall. intros r Hr.
    exact (descending_cross key _ _ H r x Hr Hx).
Qed.

(** ** Search-engine prefixes *)

Lemma startsWith_app (p s : jsstring) :
  startsWith p s = true <-> exists rest, s = p ++ rest.
Proof.
  revert s. induction p as [|a p IH]; intros s; cbn.
  - split; [intros _; now exists s | reflexivity].
  - destruct s as [|b s].
    + split; [discriminate | intros [r Hr]; discriminate].
    + rewrite andb_true_iff, N.eqb_eq, IH. split.
      * intros [-> [r ->]]. now exists r.
      * intros [r Hr]. injection Hr as -> ->. split; [reflexivity|now exists r].
Qed.

Lemma firstMatch_split (q : jsstring) (l : list SearchUtils.SearchEngineConfig) :
  match SearchUtils.firstMatch q l with
  | Some (e, k) =>
      exists l1 l2,
        l = l1 ++ e :: l2
        /\ Forall (fun x => engineMatches q x = false) l1
        /\ engineMatches q e = true
        /\ k = trim (skipn (length (SearchUtils.prefixToMatch
                                      (SearchUtils.prefix e))) q)
  | None => Forall (fun x => engineMatches q x = false) l
  end.
Proof.
  induction l as [|e l IH]; cbn [SearchUtils.firstMatch]; [constructor|].
  assert (Hno : engineMatches q e = false ->
                match SearchUtils.firstMatch q l with
                | Some (e0, k) =>
                    exists l1 l2,
                      e :: l = l1 ++ e0 :: l2
                      /\ Forall (fun x => engineMatches q x = false) l1
                      /\ engineMatches q e0 = true
                      /\ k = trim (skipn (length (SearchUtils.prefixToMatch
                                                    (SearchUtils.prefix e0))) q)
                | None => Forall (fun x => engineMatches q x = false) (e :: l)
                end).
  { intros He. destruct (SearchUtils.firstMatch q l) as [[e0 k]|].
    - destruct IH as [l1 [l2 [-> [H1 [H2 H3]]]]].
      exists (e :: l1), l2. repeat split; try assumption. now constructor.
    - now constructor. }
  unfold engineMatches at 1 in Hno.
  destruct (SearchUtils.prefix e) as [|c p] eqn:Ep; [now apply Hno|].
  cbv zeta.
  destruct (startsWith (SearchUtils.prefixToMatch (c :: p)) q) eqn:Es;
    [|now apply Hno].
  exists [], l. repeat split; [constructor | |].
  - unfold engineMatches. now rewrite Ep.
  - now rewrite Ep.
Qed.

Lemma filter_split {A : Type} (P : A -> bool) (l f1 f2 : list A) (e : A) :
  filter P l = f1 ++ e :: f2 ->
  exists l1 l2, l = l1 ++ e :: l2 /\ filter P l1 = f1.
Proof.
  revert f1. induction l as [|x l IH]; intros f1 H; cbn in H.
  - destruct f1; discriminate.
  - destruct (P x) eqn:Px.
    + destruct f1 as [|y f1]; cbn in H; injection H as -> H.
      * exists [], l. now split.
      * destruct (IH f1 H) as [l1 [l2 [-> Hf]]].
        exists (y :: l1), l2. split; [reflexivity|]. cbn. now rewrite Px, Hf.
    + destruct (IH f1 H) as [l1 [l2 [-> Hf]]].
      exists (x :: l1), l2. split; [reflexivity|]. cbn. now rewrite Px.
Qed.

(** X16. What detectSearchIntent returns, when it returns an engine: an
    engine of the list with a non-empty prefix such that the query is
    the prefix with its closing space followed by some rest, and the
    keyword is that rest trimmed. Of all engines of the list that match
    the query in this way it is one with the longest prefix, and of
    those with a prefix of that length the first in the list. *)
Theorem X16_detectSearchIntent_longest_prefix (q : jsstring)
  (es : list SearchUtils.SearchEngineConfig)
  (e : SearchUtils.SearchEngineConfig) (k : jsstring) :
  SearchUtils.detectSearchIntent q es = Some (e, k) ->
  (SearchUtils.prefix e <> []
   /\ exists rest,
        q = SearchUtils.prefixToMatch (SearchUtils.prefix e) ++ rest
        /\ k = trim rest)
  /\ (forall e', In e' es -> engineMatches q e' = true ->
                 length (SearchUtils.prefix e')
                 <= length (SearchUtils.prefix e))
  /\ exists l1 l2,
       es = l1 ++ e :: l2
       /\ Forall (fun x => engineMatches q x = true ->
                           length (SearchUtils.prefix x)
                           < length (SearchUtils.prefix e)) l1.
Proof.
  unfold SearchUtils.detectSearchIntent. destruct (_ || _); [discriminate|].
  cbv zeta. intros H.
  set (key := fun x => SearchUtils.len (SearchUtils.prefix x)).
  set (cmp := fun a b : SearchUtils.SearchEngineConfig =>
                (SearchUtils.len (SearchUtils.prefix b)
                 - SearchUtils.len (SearchUtils.prefix a))%Z) in *.
  assert (Hcmp : forall a b, cmp a b = (key b - key a)%Z) by reflexivity.
  pose proof (firstMatch_split q (JSArray.sortWith cmp es)) as Hs.
  rewrite H in Hs. destruct Hs as [s1 [s2 [Hsplit [Hs1 [He Hk]]]]].
  pose proof (sortWith_desc key cmp Hcmp es) as Hd. rewrite Hsplit in Hd.
  assert (Hlong : forall e', In e' es -> engineMatches q e' = true ->
                             length (SearchUtils.prefix e')
                             <= length (SearchUtils.prefix e)).
  { intros e' Hin Hm. apply (sortWith_In cmp es e') in Hin.
    rewrite Hsplit in Hin. apply in_app_or in Hin.
    destruct Hin as [Hin|[<-|Hin]].
    - rewrite Forall_forall in Hs1. rewrite (Hs1 e' Hin) in Hm. discriminate.
    - lia.
    - pose proof (descending_cross key (s1 ++ [e]) s2) as Hc.
      rewrite <- app_assoc in Hc. specialize (Hc Hd e e').
      unfold key, SearchUtils.len in Hc.
      assert (In e (s1 ++ [e])) by (apply in_or_app; right; now left).
      specialize (Hc H0 Hin). lia. }
  split; [|split; [exact Hlong|]].
  - unfold engineMatches in He.
    destruct (SearchUtils.prefix e) as [|c p] eqn:Ep; [discriminate|].
    split; [discriminate|]. apply startsWith_app in He.
    destruct He as [rest Hr]. exists rest. split; [exact Hr|].
    rewrite Hk. f_equal. rewrite Hr.
    now rewrite skipn_app, skipn_all, Nat.sub_diag.
  - pose proof (sortWith_stable key cmp Hcmp (key e) es) as Hst.
    rewrite Hsplit, filter_app in Hst. cbn [filter] in Hst.
    rewrite Z.eqb_refl in Hst. symmetry in Hst.
    destruct (filter_split _ _ _ _ _ Hst) as [l1 [l2 [Hes Hf]]].
    exists l1, l2. split; [exact Hes|].
    apply Forall_forall. intros x Hx Hm.
    assert (Hle : length (SearchUtils.prefix x)
                  <= length (SearchUtils.prefix e)).
    { apply Hlong; [|exact Hm]. rewrite Hes. apply in_or_app. now left. }
    destruct (Nat.eq_dec (length (SearchUtils.prefix x))
                         (length (SearchUtils.prefix e))) as [Heq|Hne];
      [|lia].
    exfalso.
    assert (Hin : In x (filter (fun a => (key a =? key e)%Z) l1)).
    { apply filter_In. split; [exact Hx|]. apply Z.eqb_eq.
      unfold key, SearchUtils.len. lia. }
    rewrite Hf in Hin. apply filter_In in Hin. destruct Hin as [Hin _].
    rewrite Forall_forall in Hs1. rewrite (Hs1 x Hin) in Hm. discriminate.
Qed.

Lemma X16_detectSearchIntent_longest_prefix_witness :
  SearchUtils.detectSearchIntent (str "g h rust") [engineG; engineGh]
  = Some (engineGh, str "rust")
  /\ forall e', In e' [engineG; engineGh] ->
                engineMatches (str "g h rust") e' = true ->
                length (SearchUtils.prefix e') <= 4.
Proof.
  assert (H : SearchUtils.detectSearchIntent (str "g h rust")
                [engineG; engineGh] = Some (engineGh, str "rust"))
    by reflexivity.
  split; [exact H|].
  exact (proj1 (proj2 (X16_detectSearchIntent_longest_prefix
                         (str "g h rust") [engineG; engineGh]
                         engineGh (str "rust") H))).
Defined.

(** X17. detectSearchIntent returns null exactly when the query is blank
    or no engine of the list matches it, that is, has a non-empty prefix
    with which, a space added unless the prefix ends in one, the query
    begins. *)
Theorem X17_detectSearchIntent_null (q : jsstring)
  (es : list SearchUtils.SearchEngineConfig) :
  SearchUtils.detectSearchIntent q es = None
  <-> (blank q = true \/ Forall (fun e => engineMatches q e = false) es).
Proof.
  unfold SearchUtils.detectSearchIntent, blank.
  destruct q as [|c q]; cbn [orb].
  { split; [intros _; left; reflexivity | reflexivity]. }
  destruct (trim (c :: q)) as [|c' t] eqn:Et; cbn [orb].
  { split; [intros _; left; reflexivity | reflexivity]. }
  destruct es as [|e es]; cbn [length Nat.eqb].
  { split; [intros _; right; constructor | reflexivity]. }
  cbv zeta.
  set (cmp := fun a b : SearchUtils.SearchEngineConfig =>
                (SearchUtils.len (SearchUtils.prefix b)
                 - SearchUtils.len (SearchUtils.prefix a))%Z).
  pose proof (firstMatch_split (c :: q) (JSArray.sortWith cmp (e :: es))) as Hs.
  split.
  - intros H. rewrite H in Hs. right.
    apply (Permutation_Forall (sortWith_perm cmp (e :: es))). exact Hs.
  - intros [H|H]; [discriminate|].
    destruct (SearchUtils.firstMatch _ _) as [[e0 k]|]; [|reflexivity].
    destruct Hs as [s1 [s2 [Hsplit [_ [He _]]]]].
    assert (Hin : In e0 (e :: es)).
    { apply (sortWith_In cmp). rewrite Hsplit. apply in_or_app.
      right. now left. }
    rewrite Forall_forall in H. rewrite (H e0 Hin) in He. discriminate.
Qed.

(** ** Scoring and ranking *)

Lemma startsWith_includes (q f : jsstring) :
  startsWith q f = true -> includes q f = true.
Proof. intros H. destruct f; cbn; now rewrite H. Qed.

Lemma startsWith_refl (q : jsstring) : startsWith q q = true.
Proof. induction q as [|c q IH]; cbn; [reflexivity|]. now rewrite N.eqb_refl. Qed.

(** The score of one field is positive exactly when the field contains
    the query, and it is one of the three weights or zero. *)
Lemma matchScore_pos (a b c : Z) (f q : jsstring) :
  (0 < a)%Z -> (0 < b)%Z -> (0 < c)%Z ->
  (0 <= SearchUtils.matchScore a b c f q)%Z
  /\ ((0 <? SearchUtils.matchScore a b c f q)%Z = includes q f).
Proof.
  intros Ha Hb Hc. unfold SearchUtils.matchScore.
  destruct (eqb f q) eqn:E.
  - apply eqb_true_iff in E. subst f.
    rewrite (startsWith_includes q q (startsWith_refl q)).
    split; [lia | apply Z.ltb_lt; lia].
  - destruct (startsWith q f) eqn:Es.
    + rewrite (startsWith_includes q f Es). split; [lia | apply Z.ltb_lt; lia].
    + destruct (includes q f); split; try lia; try reflexivity.
Qed.

Section Ranking.

Variable toLowerCase : jsstring -> jsstring.
Variable containsChinese : jsstring -> bool.

Lemma appScore_mentions (ql : jsstring) (pin : bool) (app : SearchUtils.AppInfo) :
  (SearchUtils.appScore toLowerCase ql pin app >? 0)%Z
  = appMentions toLowerCase ql pin app.
Proof.
  unfold SearchUtils.appScore, appMentions. cbv zeta.
  destruct (matchScore_pos 1000 500 100 (toLowerCase (SearchUtils.name app)) ql)
    as [N0 N1]; try lia.
  set (m0 := SearchUtils.matchScore 1000 500 100 _ ql) in *.
  rewrite <- N1. clear N1.
  destruct (SearchUtils.name_pinyin app) as [[|c1 p1]|];
    destruct (SearchUtils.name_pinyin_initials app) as [[|c2 p2]|];
    destruct pin; cbn [SearchUtils.truthy andb orb];
    repeat match goal with
           | |- context [SearchUtils.matchScore ?a ?b ?c (?x :: ?y) ql] =>
               let P := fresh "P" in
               let Q := fresh "Q" in
               destruct (matchScore_pos a b c (x :: y) ql) as [P Q];
               try lia;
               let m := fresh "m" in
               set (m := SearchUtils.matchScore a b c (x :: y) ql) in *;
               rewrite <- Q; clear Q
           end;
    destruct (SearchUtils.description app) as [[|c3 d]|];
    repeat match goal with
           | |- context [includes ql ?f] => destruct (includes ql f)
           end;
    cbn [andb orb];
    repeat match goal with
           | |- context [(?a =? 0)%Z] =>
               let E := fresh "E" in
               destruct (a =? 0)%Z eqn:E;
               [apply Z.eqb_eq in E | apply Z.eqb_neq in E]
           end;
    cbn [andb orb];
    repeat match goal with
           | |- context [(0 <? ?a)%Z] =>
               let E := fresh "E" in
               destruct (0 <? a)%Z eqn:E;
               [apply Z.ltb_lt in E | apply Z.ltb_ge in E]
           end;
    cbn [andb orb];
    try (apply Z.gtb_lt; lia);
    try (apply not_true_is_false; intros G; apply Z.gtb_lt in G; lia).
Qed.

Lemma scoreApps_In (ql : jsstring) (pin : bool) (apps : list SearchUtils.AppInfo)
  (p : SearchUtils.AppInfo * Z) :
  In p (SearchUtils.scoreApps toLowerCase ql pin apps)
  <-> In (fst p) apps
      /\ snd p = SearchUtils.appScore toLowerCase ql pin (fst p)
      /\ (0 < snd p)%Z.
Proof.
  unfold SearchUtils.scoreApps. rewrite in_flat_map. split.
  - intros [a [Ha Hp]]. cbv zeta in Hp.
    destruct (_ >? 0)%Z eqn:E; [|destruct Hp].
    destruct Hp as [<-|[]]. cbn. apply Z.gtb_lt in E. now repeat split.
  - intros [Ha [Hs Hpos]]. exists (fst p). split; [exact Ha|]. cbv zeta.
    rewrite <- Hs. replace (snd p >? 0)%Z with true
      by (symmetry; apply Z.gtb_lt; lia).
    left. now destruct p.
Qed.

Lemma descending_map_fst {A : Type} (f : A -> Z) (l : list (A * Z)) :
  Forall (fun p => snd p = f (fst p)) l ->
  descendingBy snd l -> descendingBy f (map fst l).
Proof.
  intros Hf H. induction H as [|p l Hs IH Hp]; cbn; [constructor|].
  inversion Hf as [|p' l' Hp' Hl']; subst. constructor; [now apply IH|].
  apply Forall_map. rewrite Forall_forall in *. intros x Hx.
  rewrite <- Hp', <- (Hl' x Hx). now apply Hp.
Qed.

(** X18. The applications searchApplicationsFrontend returns for a query
    that is not blank: each is an application of the list one of whose
    fields mentions the query (the lower-cased name, for a query without
    Chinese characters the pinyin or the pinyin initials, or the
    lower-cased description); there are at most 50 of them; and they are
    in descending order of their score. For a blank query the first 10
    applications of the list are returned as they are. *)
Theorem X18_searchApplicationsFrontend_sound (q : jsstring)
  (apps : list SearchUtils.AppInfo) :
  let result :=
    SearchUtils.searchApplicationsFrontend toLowerCase containsChinese q apps in
  let ql := toLowerCase (trim q) in
  let pin := negb (containsChinese ql) in
  (blank q = true -> result = firstn 10 apps)
  /\ (blank q = false ->
      Forall (fun a => In a apps /\ appMentions toLowerCase ql pin a = true)
             result
      /\ length result <= 50
      /\ descendingBy (SearchUtils.appScore toLowerCase ql pin) result).
Proof.
  cbv zeta. unfold SearchUtils.searchApplicationsFrontend, blank.
  assert (Hq : (match q with [] => true | _ => false end || eqb (trim q) [])
               = eqb (trim q) []).
  { destruct q; reflexivity. }
  rewrite Hq. clear Hq. cbv zeta.
  change 10%Z with (Z.of_nat 10). change 50%Z with (Z.of_nat 50).
  rewrite !sliceTo_firstn.
  split; intros Hb; rewrite Hb; [reflexivity|].
  set (ql := toLowerCase (trim q)). set (pin := negb (containsChinese ql)).
  set (cmp := fun a b : SearchUtils.AppInfo * Z => (snd b - snd a)%Z).
  set (scored := SearchUtils.scoreApps toLowerCase ql pin apps).
  assert (Hall : forall p, In p (firstn 50 (JSArray.sortWith cmp scored)) ->
                           In (fst p) apps
                           /\ snd p = SearchUtils.appScore toLowerCase ql pin (fst p)
                           /\ (0 < snd p)%Z).
  { intros p Hp. apply firstn_sub in Hp. apply sortWith_In in Hp.
    now apply scoreApps_In. }
  split; [|split].
  - apply Forall_map, Forall_forall. intros p Hp.
    destruct (Hall p Hp) as [H1 [H2 H3]]. split; [exact H1|].
    rewrite <- appScore_mentions, <- H2. apply Z.gtb_lt. lia.
  - rewrite length_map. apply firstn_le_length.
  - apply descending_map_fst.
    + apply Forall_forall. intros p Hp. now apply Hall.
    + apply descending_firstn. now apply (sortWith_desc snd cmp).
Qed.

(** X19. searchApplicationsFrontend leaves out no better match: for a
    query that is not blank, an application of the list one of whose
    fields mentions the query is among the results, unless 50 results
    are returned and each of them has a score at least as high. Hence
    with at most 50 matching applications all of them are returned. *)
Theorem X19_searchApplicationsFrontend_complete (q : jsstring)
  (apps : list SearchUtils.AppInfo) (a : SearchUtils.AppInfo) :
  let result :=
    SearchUtils.searchApplicationsFrontend toLowerCase containsChinese q apps in
  let ql := toLowerCase (trim q) in
  let pin := negb (containsChinese ql) in
  blank q = false -> In a apps -> appMentions toLowerCase ql pin a = true ->
  In a result
  \/ (length result = 50
      /\ Forall (fun r => (SearchUtils.appScore toLowerCase ql pin a
                           <= SearchUtils.appScore toLowerCase ql pin r)%Z)
                result).
Proof.
  cbv zeta. unfold SearchUtils.searchApplicationsFrontend, blank.
  intros Hb Ha Hm.
  assert (Hq : (match q with [] => true | _ => false end || eqb (trim q) [])
               = false).
  { destruct q; [vm_compute in Hb; discriminate Hb | exact Hb]. }
  rewrite Hq. clear Hq. cbv zeta.
  change 50%Z with (Z.of_nat 50). rewrite sliceTo_firstn.
  set (ql := toLowerCase (trim q)) in *.
  set (pin := negb (containsChinese ql)) in *.
  set (cmp := fun a b : SearchUtils.AppInfo * Z => (snd b - snd a)%Z).
  set (scored := SearchUtils.scoreApps toLowerCase ql pin apps).
  set (score := SearchUtils.appScore toLowerCase ql pin).
  rewrite <- appScore_mentions in Hm. apply Z.gtb_lt in Hm.
  assert (Hin : In (a, score a) (JSArray.sortWith cmp scored)).
  { apply sortWith_In. apply scoreApps_In. cbn. now repeat split. }
  destruct (descending_top snd 50 _ (sortWith_desc snd cmp (fun _ _ => eq_refl) scored)
              (a, score a) Hin) as [H|[Hl Hf]].
  - left. apply in_map_iff. now exists (a, score a).
  - right. split; [now rewrite length_map|].
    apply Forall_map, Forall_forall. intros p Hp.
    rewrite Forall_forall in Hf. specialize (Hf p Hp). cbn in Hf.
    apply firstn_sub, sortWith_In, scoreApps_In in Hp.
    destruct Hp as [_ [Hs _]]. fold score in Hs. now rewrite <- Hs.
Qed.

Variable processBatchAsync :
  list SearchUtils.FileHistoryItem ->
  (SearchUtils.FileHistoryItem -> option (SearchUtils.FileHistoryItem * Z)) ->
  Z -> Z -> list (SearchUtils.FileHistoryItem * Z).

(** X20. For a blank query searchFileHistoryFrontend returns the most
    recently used items of the history, most recent first: the result
    holds min(100, n) of the n items, in descending order of last_used,
    all of them items of the history, and no item left out was used
    later than any item returned. *)
Theorem X20_searchFileHistoryFrontend_recent (q : jsstring)
  (h : list SearchUtils.FileHistoryItem) :
  let result :=
    SearchUtils.searchFileHistoryFrontend toLowerCase processBatchAsync q h in
  blank q = true ->
  length result = Nat.min 100 (length h)
  /\ descendingBy SearchUtils.last_used result
  /\ (forall x, In x result -> In x h)
  /\ (forall x, In x h ->
        In x result
        \/ Forall (fun r => (SearchUtils.last_used x
                             <= SearchUtils.last_used r)%Z) result).
Proof.
  cbv zeta. unfold SearchUtils.searchFileHistoryFrontend, blank. intros Hb.
  assert (Hq : (match q with [] => true | _ => false end || eqb (trim q) [])
               = true).
  { destruct q; [reflexivity | exact Hb]. }
  rewrite Hq. clear Hq. cbv zeta.
  change 100%Z with (Z.of_nat 100). rewrite sliceTo_firstn.
  set (cmp := fun a b : SearchUtils.FileHistoryItem =>
                (SearchUtils.last_used b - SearchUtils.last_used a)%Z).
  pose proof (sortWith_desc SearchUtils.last_used cmp (fun _ _ => eq_refl) h)
    as Hd.
  split; [|split; [|split]].
  - rewrite length_firstn.
    now rewrite (Permutation_length (sortWith_perm cmp h)).
  - now apply descending_firstn.
  - intros x Hx. apply firstn_sub in Hx. now apply sortWith_In in Hx.
  - intros x Hx. apply (sortWith_In cmp) in Hx.
    destruct (descending_top SearchUtils.last_used 100 _ Hd x Hx)
      as [H|[_ H]]; [now left | now right].
Qed.

End Ranking.

Lemma X19_searchApplicationsFrontend_complete_witness :
  In (appNo 1)
     (SearchUtils.searchApplicationsFrontend asciiLower noChinese (str " F1 ")
        [appNo 0; appNo 1; appNo 2])
  \/ (length (SearchUtils.searchApplicationsFrontend asciiLower noChinese
                (str " F1 ") [appNo 0; appNo 1; appNo 2]) = 50
      /\ Forall (fun r =>
                   (SearchUtils.appScore asciiLower
                      (asciiLower (trim (str " F1 ")))
                      (negb (noChinese (asciiLower (trim (str " F1 ")))))
                      (appNo 1)
                    <= SearchUtils.appScore asciiLower
                         (asciiLower (trim (str " F1 ")))
                         (negb (noChinese (asciiLower (trim (str " F1 ")))))
                         r)%Z)
                (SearchUtils.searchApplicationsFrontend asciiLower noChinese
                   (str " F1 ") [appNo 0; appNo 1; appNo 2])).
Proof.
  apply (X19_searchApplicationsFrontend_complete asciiLower noChinese
           (str " F1 ") [appNo 0; appNo 1; appNo 2] (appNo 1)).
  - reflexivity.
  - right. left. reflexivity.
  - reflexivity.
Defined.

Lemma X20_searchFileHistoryFrontend_recent_witness :
  SearchUtils.searchFileHistoryFrontend asciiLower (fun _ _ _ _ => [])
    (str " ") [usedAt 3; usedAt 9; usedAt 5]
  = [usedAt 9; usedAt 5; usedAt 3]
  /\ descendingBy SearchUtils.last_used
       (SearchUtils.searchFileHistoryFrontend asciiLower (fun _ _ _ _ => [])
          (str " ") [usedAt 3; usedAt 9; usedAt 5]).
Proof.
  split; [reflexivity|].
  exact (proj1 (proj2 (X20_searchFileHistoryFrontend_recent
                         asciiLower (fun _ _ _ _ => [])
                         (str " ") [usedAt 3; usedAt 9; usedAt 5] eq_refl))).
Defined.

(** ** The result list of the launcher *)

Lemma view_step_core (v : LauncherView.View) (ev : LauncherView.event) :
  LauncherView.core (LauncherView.step v ev) = LauncherView.core v
  \/ exists e, LauncherView.core (LauncherView.step v ev)
               = Launcher.step (LauncherView.core v) e.
Proof.
  assert (Hq : forall value,
             LauncherView.core (LauncherView.setQuery value v)
             = Launcher.step (LauncherView.core v) (Launcher.QueryChange value)).
  { intros value. unfold LauncherView.setQuery. cbv zeta.
    now destruct (_ && _). }
  destruct ev as [e|rs|rs|fails e]; cbn [LauncherView.step].
  - right. exists e. cbv zeta. now destruct (_ && _).
  - now left.
  - now left.
  - unfold LauncherView.handleKeyDown.
    destruct (_ || _).
    { destruct (LauncherView.attempt fails [LauncherView.HideLauncher])
        as [made [|]]; cbn; [right; eexists; apply Hq | now left]. }
    destruct (Keyboard.keyIs e "ArrowDown"); [now left|].
    destruct (Keyboard.keyIs e "ArrowUp"); [now left|].
    destruct (Keyboard.keyIs e "Enter"); [|now left].
    destruct (LauncherView.at_ _ _) as [r|]; [|now left].
    unfold LauncherView.handleLaunch.
    destruct (LauncherView.attempt fails (LauncherView.launchCalls r))
      as [made [|]]; cbn; [right; eexists; apply Hq | now left].
Qed.

Lemma view_core_invariant (evs : list LauncherView.event) :
  forall v, launcherInv (LauncherView.core v) ->
            launcherInv (LauncherView.core (LauncherView.run v evs)).
Proof.
  induction evs as [|ev evs IH]; intros v H; [exact H|].
  cbn [LauncherView.run fold_left]. apply IH.
  destruct (view_step_core v ev) as [-> | [e ->]];
    [exact H | now apply stepL_inv].
Qed.

Lemma view_reachable_inv (evs : list LauncherView.event) :
  launcherInv (LauncherView.core (LauncherView.run LauncherView.init evs)).
Proof. apply view_core_invariant. exact (launcher_invariant []). Qed.

(** X21. The list the launcher shows, after any run of events: the URLs
    detected in the text of the input, then the applications found,
    then the files of the history found, then the first
    displayedResultsCount disk results, each list in its own order. The
    count is never negative, so [slice] never counts from the end, and
    the number of disk rows is the smaller of displayedResultsCount and
    the number of disk results. *)
Theorem X21_launcher_results_layout (evs : list LauncherView.event) :
  let v := LauncherView.run LauncherView.init evs in
  let s := LauncherView.core v in
  LauncherView.results v
  = map LauncherView.urlResult (Urls.extractUrls (Launcher.queryText s))
    ++ map LauncherView.appResult (LauncherView.filteredApps v)
    ++ map LauncherView.fileResult (LauncherView.filteredFiles v)
    ++ map LauncherView.everythingResult
         (firstn (Z.to_nat (Launcher.displayedResultsCount s))
                 (Launcher.everythingResults s))
  /\ Z.of_nat (length (firstn (Z.to_nat (Launcher.displayedResultsCount s))
                              (Launcher.everythingResults s)))
     = Z.min (Launcher.displayedResultsCount s) (resultCount s).
Proof.
  cbv zeta. destruct (view_reachable_inv evs) as [_ [Hu [_ [_ Hd]]]].
  set (v := LauncherView.run LauncherView.init evs) in *.
  unfold LauncherView.results, LauncherView.combinedResults. split.
  - rewrite Hu. do 4 f_equal.
    rewrite <- (Z2Nat.id _ Hd) at 1. apply sliceTo_firstn.
  - rewrite length_firstn. unfold resultCount. lia.
Qed.

Lemma combined_launchesShown (v : LauncherView.View) (r : LauncherView.SearchResult) :
  launcherInv (LauncherView.core v) ->
  In r (LauncherView.results v) -> launchesShown r.
Proof.
  intros [_ [Hu _]] Hr. unfold LauncherView.results, LauncherView.combinedResults in Hr.
  repeat (apply in_app_or in Hr; destruct Hr as [Hr|Hr]);
    apply in_map_iff in Hr; destruct Hr as [x [<- Hx]].
  - rewrite Hu in Hx. apply extractUrls_In in Hx. destruct Hx as [Hne _].
    destruct x as [|c u]; [now destruct Hne|]. reflexivity.
  - unfold launchesShown. cbn. exists x. now repeat split.
  - reflexivity.
  - reflexivity.
Qed.

(** X22. The launcher launches what it shows. For every row of the list,
    after any run of events, handleLaunch acts on the path shown in the
    row: a URL row opens that URL, an application row launches the
    application with that path, a file row launches that path, and a disk
    row launches that path and adds it to the file history; hiding the
    launcher is the last call in each case. *)
Theorem X22_launcher_launches_shown (evs : list LauncherView.event)
  (r : LauncherView.SearchResult) :
  In r (LauncherView.results (LauncherView.run LauncherView.init evs)) ->
  launchesShown r.
Proof.
  apply combined_launchesShown. apply view_reachable_inv.
Qed.

Lemma X22_launcher_launches_shown_witness :
  launchesShown (LauncherView.everythingResult (fileNo 1)).
Proof.
  apply (X22_launcher_launches_shown
           [LauncherView.Core (Launcher.StatusChecked statusAvailable);
            LauncherView.Core (Launcher.QueryChange (str "a.io"));
            LauncherView.Core (Launcher.Elapse 500);
            LauncherView.AppsFound [appNo 7];
            LauncherView.Core
              (Launcher.Resolved (str "a.io") (responseOf (files 2)))]).
  vm_compute. do 3 right. left. reflexivity.
Defined.

Lemma attempt_all (fails : LauncherView.apiCall -> bool)
  (cs : list LauncherView.apiCall) :
  Forall (fun c => fails c = false) cs ->
  LauncherView.attempt fails cs = (cs, true).
Proof.
  induction 1 as [|c cs Hc _ IH]; cbn; [reflexivity|]. now rewrite Hc, IH.
Qed.

Lemma setQuery_empty (v : LauncherView.View) :
  launcherInv (LauncherView.core v) ->
  let v' := LauncherView.setSelectedIndex 0 (LauncherView.setQuery [] v) in
  Launcher.queryText (LauncherView.core v') = []
  /\ LauncherView.selectedIndex v' = 0%Z
  /\ launcherInv (LauncherView.core v')
  /\ (Launcher.queryText (LauncherView.core v) <> [] ->
      LauncherView.results v' = []).
Proof.
  intros H. cbv zeta. unfold LauncherView.setQuery. cbv zeta.
  assert (Hi : launcherInv (Launcher.onQueryChange [] (LauncherView.core v))).
  { exact (stepL_inv (LauncherView.core v) (Launcher.QueryChange []) H). }
  unfold Launcher.onQueryChange in *.
  destruct (eqb [] (Launcher.queryText (LauncherView.core v))) eqn:E.
  - apply eqb_true_iff in E. cbn.
    split; [now symmetry|]. split; [reflexivity|]. split; [exact Hi|].
    intros Hne. now destruct Hne.
  - change (eqb (trim []) []) with true. cbn [negb andb].
    cbn [LauncherView.setSelectedIndex LauncherView.core
         LauncherView.selectedIndex LauncherView.filteredApps
         LauncherView.filteredFiles].
    set (c := Launcher.queryEffect _) in *.
    assert (Hc : Launcher.queryText c = [] /\ Launcher.detectedUrls c = []
                 /\ Launcher.everythingResults c = []).
    { unfold c, Launcher.queryEffect. cbn.
      destruct (Launcher.currentSearchRef (LauncherView.core v));
        now repeat split. }
    destruct Hc as [Hq [Hu He]].
    split; [exact Hq|]. split; [reflexivity|]. split; [exact Hi|].
    intros _. unfold LauncherView.results, LauncherView.combinedResults.
    cbn [LauncherView.core LauncherView.filteredApps
         LauncherView.filteredFiles LauncherView.setSelectedIndex].
    rewrite Hu, He.
    unfold JSArray.sliceTo. now rewrite firstn_nil.
Qed.

(** X23. Closing the launcher resets it. When Escape is pressed, or
    Enter on a row, and no backend call rejects, then afterwards the
    input is empty, the selected row is 0 and nothing of a disk search
    is left; if the input was not empty before, the list of results is
    empty as well. *)
Theorem X23_launcher_close_resets (evs : list LauncherView.event)
  (fails : LauncherView.apiCall -> bool) (e : Keyboard.KeyEvent) :
  let v := LauncherView.run LauncherView.init evs in
  let v' := LauncherView.step v (LauncherView.KeyDown fails e) in
  closesLauncher e v = true ->
  (forall c, fails c = false) ->
  Launcher.queryText (LauncherView.core v') = []
  /\ LauncherView.selectedIndex v' = 0%Z
  /\ launcherCleared (LauncherView.core v')
  /\ (Launcher.queryText (LauncherView.core v) <> [] ->
      LauncherView.results v' = []).
Proof.
  cbv zeta. intros Hc Hf.
  set (v := LauncherView.run LauncherView.init evs) in *.
  pose proof (view_reachable_inv evs) as Hi. fold v in Hi.
  destruct (setQuery_empty v Hi) as [H1 [H2 [H3 H4]]].
  assert (Hgoal :
    Launcher.queryText
      (LauncherView.core
         (LauncherView.setSelectedIndex 0 (LauncherView.setQuery [] v))) = []
    /\ LauncherView.selectedIndex
         (LauncherView.setSelectedIndex 0 (LauncherView.setQuery [] v)) = 0%Z
    /\ launcherCleared
         (LauncherView.core
            (LauncherView.setSelectedIndex 0 (LauncherView.setQuery [] v)))
    /\ (Launcher.queryText (LauncherView.core v) <> [] ->
        LauncherView.results
          (LauncherView.setSelectedIndex 0 (LauncherView.setQuery [] v)) = [])).
  { repeat split; try assumption;
      destruct H3 as [_ [G2 [G3 [G4 _]]]];
      assert (Hb : blank (Launcher.queryText
                            (LauncherView.core
                               (LauncherView.setSelectedIndex 0
                                  (LauncherView.setQuery [] v)))) = true)
        by (now rewrite H1);
      destruct (G4 Hb) as [Ga [Gb Gc]]; try assumption.
    - destruct (Launcher.timer _) as [t|] eqn:Et; [|reflexivity].
      destruct (G3 t eq_refl) as [_ Gn]. congruence.
    - rewrite G2. now apply extractUrls_blank. }
  cbn [LauncherView.step]. unfold LauncherView.handleKeyDown, closesLauncher in *.
  destruct (Keyboard.keyIs e "Escape" || (Keyboard.keyCode e =? 27)%Z).
  - rewrite (attempt_all fails [LauncherView.HideLauncher])
      by (repeat constructor; apply Hf).
    exact Hgoal.
  - cbn [orb] in Hc.
    destruct (Keyboard.keyIs e "ArrowDown"); [discriminate|].
    destruct (Keyboard.keyIs e "ArrowUp"); [discriminate|].
    destruct (Keyboard.keyIs e "Enter"); [|discriminate].
    destruct (LauncherView.at_ _ _) as [r|]; [|discriminate].
    unfold LauncherView.handleLaunch.
    rewrite (attempt_all fails (LauncherView.launchCalls r))
      by (apply Forall_forall; intros c _; apply Hf).
    exact Hgoal.
Qed.

Lemma X23_launcher_close_resets_witness :
  LauncherView.results
    (LauncherView.step viewSearched
       (LauncherView.KeyDown allResolve (pressed "Enter" 13))) = [].
Proof.
  refine (proj2 (proj2 (proj2
            (X23_launcher_close_resets
               [LauncherView.Core (Launcher.StatusChecked statusAvailable);
                LauncherView.Core (Launcher.QueryChange (str "a.io"));
                LauncherView.Core (Launcher.Elapse 500);
                LauncherView.AppsFound [appNo 7];
                LauncherView.Core
                  (Launcher.Resolved (str "a.io") (responseOf (files 2)))]
               allResolve (pressed "Enter" 13) _ _))) _).
  - vm_compute. reflexivity.
  - reflexivity.
  - vm_compute. discriminate.
Defined.

Lemma results_setSelectedIndex (i : Z) (v : LauncherView.View) :
  LauncherView.results (LauncherView.setSelectedIndex i v)
  = LauncherView.results v.
Proof. reflexivity. Qed.

(** X24. The selected row of the launcher is never negative, after any
    run of events; and an arrow key never moves it off the list: when it
    addresses a row before ArrowDown or ArrowUp, it addresses a row
    afterwards, of the same list. *)
Theorem X24_launcher_selected_row (evs : list LauncherView.event) :
  let v := LauncherView.run LauncherView.init evs in
  (0 <= LauncherView.selectedIndex v)%Z
  /\ forall fails e,
       Keyboard.keyIs e "Escape" || (Keyboard.keyCode e =? 27)%Z = false ->
       Keyboard.keyIs e "ArrowDown" || Keyboard.keyIs e "ArrowUp" = true ->
       let v' := LauncherView.step v (LauncherView.KeyDown fails e) in
       LauncherView.results v' = LauncherView.results v
       /\ ((LauncherView.selectedIndex v
            < Z.of_nat (length (LauncherView.results v)))%Z ->
           (LauncherView.selectedIndex v'
            < Z.of_nat (length (LauncherView.results v')))%Z).
Proof.
  cbv zeta.
  assert (H0 : (0 <= LauncherView.selectedIndex
                       (LauncherView.run LauncherView.init evs))%Z).
  { assert (G : forall v, (0 <= LauncherView.selectedIndex v)%Z ->
                          (0 <= LauncherView.selectedIndex
                                  (LauncherView.run v evs))%Z).
    { induction evs as [|ev evs IH]; intros v H; [exact H|].
      cbn [LauncherView.run fold_left]. apply IH.
      destruct ev as [e|rs|rs|fails e]; cbn [LauncherView.step];
        try exact H.
      - cbv zeta. destruct (_ && _); cbn; [lia | exact H].
      - unfold LauncherView.handleKeyDown.
        destruct (_ || _).
        { destruct (LauncherView.attempt fails [LauncherView.HideLauncher])
            as [made [|]]; cbn; [lia | exact H]. }
        destruct (Keyboard.keyIs e "ArrowDown").
        { cbn. destruct (_ <? _)%Z; lia. }
        destruct (Keyboard.keyIs e "ArrowUp").
        { cbn. destruct (_ >? _)%Z eqn:E; [apply Z.gtb_lt in E|]; lia. }
        destruct (Keyboard.keyIs e "Enter"); [|exact H].
        destruct (LauncherView.at_ _ _) as [r|]; [|exact H].
        unfold LauncherView.handleLaunch.
        destruct (LauncherView.attempt fails (LauncherView.launchCalls r))
          as [made [|]]; cbn; [lia | exact H]. }
    apply G. cbn. lia. }
  split; [exact H0|].
  intros fails e He Ha. cbn [LauncherView.step].
  unfold LauncherView.handleKeyDown. rewrite He.
  set (v := LauncherView.run LauncherView.init evs) in *.
  destruct (Keyboard.keyIs e "ArrowDown").
  - cbn [fst]. split; [reflexivity|].
    rewrite results_setSelectedIndex.
    cbn [LauncherView.selectedIndex LauncherView.setSelectedIndex].
    set (n := Z.of_nat (length (LauncherView.results v))).
    destruct (LauncherView.selectedIndex v <? n - 1)%Z eqn:E;
      [apply Z.ltb_lt in E|]; lia.
  - cbn [orb] in Ha. rewrite Ha. cbn [fst]. split; [reflexivity|].
    rewrite results_setSelectedIndex.
    cbn [LauncherView.selectedIndex LauncherView.setSelectedIndex].
    set (n := Z.of_nat (length (LauncherView.results v))).
    destruct (Z.gtb_spec (LauncherView.selectedIndex v) 0); lia.
Qed.

(** ** The selected row of the search window *)

(** An event whose handler does not call [setResults] leaves the
    results as they are. *)
Lemma setsResults_false (s : ESW.State) (e : ESW.event) :
  ESWView.setsResults s e = false ->
  ESW.items (ESW.step s e) = ESW.items s.
Proof.
  assert (Hf : forall q x, ESW.items (ESW.finallyBlock q x) = ESW.items x).
  { intros q x. now destruct (finallyE_cases q x) as [-> | ->]. }
  assert (Hq : forall x, eqb (trim (ESW.queryText x)) [] = false ->
                         ESW.items (ESW.queryEffect x) = ESW.items x).
  { intros x Hx. unfold ESW.queryEffect. cbv zeta.
    change (ESW.queryText (ESW.setTimer None x)) with (ESW.queryText x).
    now rewrite Hx. }
  destruct e; cbn [ESW.step ESWView.setsResults].
  - unfold ESW.onQueryChange. destruct (eqb value (ESW.queryText s));
      [reflexivity|]. cbn [negb andb]. intros H. now rewrite Hq.
  - unfold ESW.elapse. destruct (ESW.timer s) as [t|]; [|reflexivity].
    destruct (_ <=? _)%Z; [|reflexivity]. cbv zeta.
    unfold ESW.searchEverything.
    destruct (_ || _); [discriminate|].
    change (ESW.isEverythingAvailable
              (ESW.logFired (ESW.timerQuery t) (ESW.setTimer None s)))
      with (ESW.isEverythingAvailable s).
    destruct (negb (ESW.isEverythingAvailable s)); [discriminate|].
    change (ESW.currentQueryIs (ESW.timerQuery t)
              (ESW.logFired (ESW.timerQuery t) (ESW.setTimer None s)))
      with (ESW.currentQueryIs (ESW.timerQuery t) s).
    destruct (ESW.currentQueryIs (ESW.timerQuery t) s); [|discriminate].
    reflexivity.
  - unfold ESW.onBatch. destruct (ESW.currentCancelled s);
      [reflexivity | discriminate].
  - unfold ESW.searchResolved. destruct (_ || _); [|discriminate].
    intros _. apply Hf.
  - unfold ESW.searchRejected. destruct (ESW.currentCancelled s);
      [|discriminate]. intros _. apply Hf.
  - unfold ESW.statusRechecked. destruct (negb _); cbn [andb].
    + intros H. rewrite Hq; [now rewrite Hf|].
      destruct (finallyE_cases searchQuery
                  (ESW.setStatus (available st) (errorOrNull st) s))
        as [-> | ->]; exact H.
    + intros _. now rewrite Hf.
  - intros _. unfold ESW.statusRecheckFailed. apply Hf.
  - unfold ESW.applyStatus. destruct (negb _); cbn [andb]; [|reflexivity].
    intros H. now rewrite Hq.
Qed.

Lemma stepV_addresses (v : ESWView.View) (ev : ESWView.event) :
  addressesRow v -> addressesRow (ESWView.step v ev).
Proof.
  unfold addressesRow, ESWView.results. intros [H0 H].
  destruct ev as [e|fails e]; cbn [ESWView.step].
  - cbn [ESWView.selectedIndex ESWView.core].
    destruct (ESWView.setsResults (ESWView.core v) e) eqn:E.
    + split; [lia | now left].
    + rewrite (setsResults_false _ _ E). now split.
  - unfold ESWView.handleKeyDown, ESWView.results.
    destruct (Keyboard.keyIs e "Escape"); [now split|].
    destruct (Keyboard.keyIs e "ArrowDown").
    { cbn. set (n := Z.of_nat (length (ESW.items (ESWView.core v)))) in *.
      destruct (ESWView.selectedIndex v <? n - 1)%Z eqn:E;
        [apply Z.ltb_lt in E|]; lia. }
    destruct (Keyboard.keyIs e "ArrowUp").
    { cbn. destruct (Z.gtb_spec (ESWView.selectedIndex v) 0); lia. }
    destruct (Keyboard.keyIs e "Enter"); [|now split].
    destruct (ESWView.at_ _ _); now split.
Qed.

Lemma view_addresses (evs : list ESWView.event) :
  addressesRow (ESWView.run ESWView.init evs).
Proof.
  assert (G : forall v, addressesRow v -> addressesRow (ESWView.run v evs)).
  { induction evs as [|ev evs IH]; intros v H; [exact H|].
    cbn [ESWView.run fold_left]. apply IH. now apply stepV_addresses. }
  apply G. split; [cbn; lia | now left].
Qed.

(** X25. In the search window the selected row always exists when there
    is a row: after any run of search events and key presses the
    selected index is 0, or it is positive and below the number of
    results. Every handler that replaces the results makes the index
    return to 0, and the arrow keys stop at both ends of the list. *)
Theorem X25_window_selected_row_exists (evs : list ESWView.event) :
  addressesRow (ESWView.run ESWView.init evs).
Proof. exact (view_addresses evs). Qed.

(** X26. In the search window Enter launches the selected row. After any
    run of events, when there is at least one result, pressing Enter
    prevents the default action and calls launchFile with the path of
    the row under the selection and then, unless that call rejects,
    addFileToHistory with the same path; the state is left as it is.
    With no result Enter does nothing at all. *)
Theorem X26_window_enter_launches_row (evs : list ESWView.event)
  (fails : LauncherView.apiCall -> bool) (e : Keyboard.KeyEvent) :
  let v := ESWView.run ESWView.init evs in
  Keyboard.key e = str "Enter" ->
  fst (ESWView.handleKeyDown fails e v) = v
  /\ match ESWView.results v with
     | [] => snd (ESWView.handleKeyDown fails e v) = []
     | _ :: _ =>
         exists r,
           nth_error (ESWView.results v)
                     (Z.to_nat (ESWView.selectedIndex v)) = Some r
           /\ snd (ESWView.handleKeyDown fails e v)
              = ESWView.PreventDefault
                :: ESWView.Api (LauncherView.LaunchFile (path r))
                :: (if fails (LauncherView.LaunchFile (path r)) then []
                    else [ESWView.Api
                            (LauncherView.AddFileToHistory (path r))])
     end.
Proof.
  cbv zeta. intros Hk.
  set (v := ESWView.run ESWView.init evs).
  destruct (view_addresses evs) as [H0 H]. fold v in H0, H.
  unfold ESWView.handleKeyDown.
  rewrite !(keyIs_of_key e "Enter" _ Hk).
  change (eqb (str "Enter") (str "Escape")) with false.
  change (eqb (str "Enter") (str "ArrowDown")) with false.
  change (eqb (str "Enter") (str "ArrowUp")) with false.
  change (eqb (str "Enter") (str "Enter")) with true. cbv iota.
  unfold ESWView.at_.
  replace (ESWView.selectedIndex v <? 0)%Z with false
    by (symmetry; apply Z.ltb_ge; lia).
  destruct (ESWView.results v) as [|r0 l] eqn:Er.
  - destruct (Z.to_nat (ESWView.selectedIndex v)); cbn; now split.
  - destruct (nth_error (r0 :: l) (Z.to_nat (ESWView.selectedIndex v)))
      as [r|] eqn:En.
    + split; [reflexivity|]. exists r. split; [reflexivity|].
      cbn [snd]. unfold ESWView.handleLaunch. cbn [LauncherView.attempt].
      destruct (fails (LauncherView.LaunchFile (path r))); [reflexivity|].
      destruct (fails (LauncherView.AddFileToHistory (path r))); reflexivity.
    + apply nth_error_None in En. cbn [length] in En, H. lia.
Qed.

Lemma X26_window_enter_launches_row_witness :
  snd (ESWView.handleKeyDown allResolve (pressed "Enter" 13)
         (ESWView.run ESWView.init windowListed))
  = [ESWView.PreventDefault;
     ESWView.Api (LauncherView.LaunchFile (path (fileNo 1)));
     ESWView.Api (LauncherView.AddFileToHistory (path (fileNo 1)))].
Proof.
  pose proof (X26_window_enter_launches_row windowListed allResolve
                (pressed "Enter" 13) eq_refl) as [_ H].
  vm_compute in H. destruct H as [r [Hr H]].
  injection Hr as <-. vm_compute. exact H.
Defined.

(** ** Pasting a path *)

Lemma trimStart_keeps (l : jsstring) (c : N) (tl : jsstring) :
  isWhiteSpace c = false ->
  exists t, trimStart (l ++ c :: tl) = t ++ c :: tl.
Proof.
  intros Hc. induction l as [|x l IH]; cbn.
  - rewrite Hc. now exists [].
  - destruct (isWhiteSpace x); [exact IH|]. now exists (x :: l).
Qed.

Lemma trimEnd_keeps (l : jsstring) (c : N) (tl : jsstring) :
  isWhiteSpace c = false ->
  exists t, trimEnd (l ++ c :: tl) = l ++ c :: t.
Proof.
  intros Hc. unfold trimEnd. rewrite rev_app_distr. cbn [rev].
  rewrite <- app_assoc. cbn [app].
  destruct (trimStart_keeps (rev tl) c (rev l) Hc) as [t Ht].
  rewrite Ht. exists (rev t).
  rewrite rev_app_distr. cbn [rev]. rewrite rev_involutive.
  now rewrite <- app_assoc.
Qed.

Lemma trimStart_suffix (s : jsstring) : exists l, s = l ++ trimStart s.
Proof.
  induction s as [|c s [l IH]]; cbn; [now exists []|].
  destruct (isWhiteSpace c); [|now exists []].
  exists (c :: l). cbn. now rewrite <- IH.
Qed.

Lemma trim_In (s : jsstring) (c : N) : In c (trim s) -> In c s.
Proof.
  assert (Hs : forall x, In c (trimStart x) -> In c x).
  { intros x H. destruct (trimStart_suffix x) as [l Hl]. rewrite Hl.
    apply in_or_app. now right. }
  unfold trim, trimEnd. intros H. apply Hs. apply in_rev.
  apply Hs. now apply in_rev in H.
Qed.

(** Trimming keeps an initial part that begins outside white space up
    to any later character outside white space. *)
Lemma trim_keeps (a : N) (l : jsstring) (c : N) (tl : jsstring) :
  isWhiteSpace a = false -> isWhiteSpace c = false ->
  exists t, trim (a :: l ++ c :: tl) = a :: l ++ c :: t.
Proof.
  intros Ha Hc. unfold trim. cbn [trimStart]. rewrite Ha.
  exact (trimEnd_keeps (a :: l) c tl Hc).
Qed.

Lemma trim_keeps_one (c : N) (s : jsstring) :
  isWhiteSpace c = false -> In c s -> In c (trim s).
Proof.
  intros Hc H. apply in_split in H. destruct H as [l1 [l2 ->]].
  unfold trim. destruct (trimStart_keeps l1 c l2 Hc) as [t ->].
  destruct (trimEnd_keeps t c l2 Hc) as [t' ->].
  apply in_or_app. right. now left.
Qed.

Lemma includes_one (c : N) (s : jsstring) :
  includes [c] s = true <-> In c s.
Proof.
  induction s as [|x s IH]; cbn; [split; [discriminate | intros []]|].
  rewrite andb_true_r, orb_true_iff, N.eqb_eq, IH. split.
  - intros [->|H]; [now left | now right].
  - intros [->|H]; [now left | now right].
Qed.

Lemma driveRe_shape (s : jsstring) :
  test Paste.driveRe s = true
  <-> exists a tl, s = a :: chr ":" :: tl /\ alpha a = true.
Proof.
  split.
  - intros H. apply test_anchored in H. destruct H as [e He].
    cbn [Paste.driveRe cat matcher rest idx lit] in He.
    destruct s as [|a [|c tl]]; try discriminate.
    + destruct (alpha a); discriminate.
    + destruct (alpha a) eqn:Ha; [|discriminate].
      destruct (chr ":" =? c)%N eqn:Hc; [|discriminate].
      apply N.eqb_eq in Hc. subst c. now exists a, tl.
  - intros [a [tl [-> Ha]]]. unfold test, Paste.driveRe. cbn.
    now rewrite Ha.
Qed.

Lemma alpha_not_space (a : N) : alpha a = true -> isWhiteSpace a = false.
Proof.
  intros H. unfold alpha, inRange in H. chr_values H. n_facts;
    (assert (U : urlChar a = true) by (apply urlChar_range; lia);
     unfold urlChar in U; apply negb_true_iff in U;
     destruct (isWhiteSpace a); [discriminate | reflexivity]).
Qed.

Lemma looksLikePath_trim (t : jsstring) :
  Paste.looksLikePath t = true -> Paste.looksLikePath (trim t) = true.
Proof.
  unfold Paste.looksLikePath. intros H.
  apply orb_true_iff in H. destruct H as [H|H];
    [apply orb_true_iff in H; destruct H as [H|H]|].
  - apply includes_one in H. apply (trim_keeps_one 92) in H; [|reflexivity].
    apply includes_one in H. now rewrite H.
  - apply includes_one in H. apply (trim_keeps_one (chr "/")) in H;
      [|reflexivity].
    apply (includes_one (chr "/")) in H. change [chr "/"] with (str "/") in H.
    rewrite H. now rewrite orb_true_r.
  - apply driveRe_shape in H. destruct H as [a [tl [-> Ha]]].
    destruct (trim_keeps a [] (chr ":") tl (alpha_not_space a Ha) eq_refl)
      as [t' Ht]. cbn [app] in Ht. rewrite Ht.
    assert (G : test Paste.driveRe (a :: chr ":" :: t') = true).
    { apply driveRe_shape. now exists a, t'. }
    rewrite G. apply orb_true_r.
Qed.

Lemma beforeFirst_prefix (sep : N) (s : jsstring) :
  exists tl, s = Paste.beforeFirst sep s ++ tl.
Proof.
  induction s as [|c s [tl IH]]; cbn; [now exists []|].
  destruct (c =? sep)%N; [now exists (c :: s)|].
  exists tl. cbn. now rewrite <- IH.
Qed.

Lemma beforeFirst_free (sep : N) (s : jsstring) :
  Forall (fun c => c <> sep) (Paste.beforeFirst sep s).
Proof.
  induction s as [|c s IH]; cbn; [constructor|].
  destruct (c =? sep)%N eqn:E; constructor; [|exact IH].
  now apply N.eqb_neq in E.
Qed.

(** X27. What handlePaste passes on. Either it does nothing, and the
    paste goes into the input as usual, or it first stops the default
    paste; and a path it hands to processPastedPath is never empty.
    When the clipboard holds no files, that path is moreover trimmed,
    free of line breaks, and it holds a backslash or a slash or begins
    with a letter and a colon. *)
Theorem X27_handlePaste_path (cb : Paste.Clipboard) (api : Paste.ApiPath) :
  (Paste.handlePaste cb api = []
   \/ exists more,
        Paste.handlePaste cb api
        = Paste.PreventDefault :: Paste.StopPropagation :: more)
  /\ forall p,
       In (Paste.ProcessPastedPath p) (Paste.handlePaste cb api) ->
       p <> []
       /\ (existsb (eqb (str "Files")) (Paste.types cb) = false ->
           trim p = p /\ singleLine p /\ Paste.looksLikePath p = true).
Proof.
  unfold Paste.handlePaste.
  destruct (existsb (eqb (str "Files")) (Paste.types cb)).
  - split; [right; eexists; reflexivity|].
    intros p Hp. split; [|discriminate].
    cbn [app] in Hp. destruct Hp as [Hp|[Hp|Hp]]; try discriminate.
    destruct (Nat.ltb 0 (Paste.filesLength cb)); [|destruct Hp].
    cbv zeta in Hp.
    destruct (Paste.orElse (Paste.uriList cb) _) as [|c t].
    + destruct Hp as [Hp|Hp]; [discriminate|].
      destruct api as [|[[|c q]|]]; cbn in Hp; try contradiction.
      destruct Hp as [Hp|[]]. injection Hp as <-. discriminate.
    + destruct Hp as [Hp|[]]. injection Hp as <-. discriminate.
  - cbv zeta. set (t := Paste.pastedText cb).
    destruct (match t with [] => false | _ :: _ => true end
              && Nat.ltb 0 (length (trim t)) && Paste.looksLikePath t) eqn:E.
    + split; [right; eexists; reflexivity|].
      intros p [Hp|[Hp|[Hp|[]]]]; try discriminate. injection Hp as <-.
      apply andb_true_iff in E. destruct E as [E Hl].
      apply andb_true_iff in E. destruct E as [Hne Hn].
      apply Nat.ltb_lt in Hn.
      split; [intros Hz; rewrite Hz in Hn; cbn in Hn; lia|].
      intros _. split; [apply trim_idempotent|].
      split; [|now apply looksLikePath_trim].
      apply Forall_forall. intros c Hc. apply trim_In in Hc.
      unfold t, Paste.pastedText in Hc. cbv zeta in Hc.
      destruct (Paste.orElse (Paste.text cb) (Paste.textPlain cb));
        [destruct Hc|].
      set (u := Paste.replaceAllWithEmpty Paste.quoteRe _) in Hc.
      split.
      * destruct (beforeFirst_prefix 13 (Paste.beforeFirst 10 u)) as [tl Htl].
        pose proof (beforeFirst_free 10 u) as Hf. rewrite Htl in Hf.
        apply Forall_app in Hf. destruct Hf as [Hf _].
        rewrite Forall_forall in Hf. now apply Hf.
      * pose proof (beforeFirst_free 13 (Paste.beforeFirst 10 u)) as Hf.
        rewrite Forall_forall in Hf. now apply Hf.
    + split; [now left | intros p []].
Qed.

(** ** The quotes round a pasted path *)

Lemma quoteRe_at (i : nat) (s : jsstring) :
  matcher Paste.quoteRe {| idx := i; rest := s |} Some
  = match s with
    | [] => None
    | c :: tl =>
        if Paste.quote c
        then if Nat.eqb i 0 then Some {| idx := S i; rest := tl |}
             else match tl with
                  | [] => Some {| idx := S i; rest := [] |}
                  | _ :: _ => None
                  end
        else None
    end.
Proof.
  unfold Paste.quoteRe. cbn [matcher rest idx].
  destruct s as [|c tl]; [now destruct (Nat.eqb i 0)|].
  destruct (Paste.quote c); destruct (Nat.eqb i 0); try reflexivity.
  now destruct tl.
Qed.

Lemma removeFrom_nil (fuel i : nat) :
  Paste.removeFrom fuel Paste.quoteRe (S i) [] = [].
Proof. destruct fuel; reflexivity. Qed.

(** After the first character only a quote at the very end matches. *)
Lemma exec_quote_tail (s : jsstring) :
  forall i,
    match exec Paste.quoteRe (S i) s with
    | Some (st, e) =>
        exists k, st = S i + k /\ firstn k s = dropLastQuote s
                  /\ idx e = S st /\ rest e = []
    | None => dropLastQuote s = s
    end.
Proof.
  induction s as [|c tl IH]; intros i.
  - reflexivity.
  - cbn [exec]. rewrite quoteRe_at. cbn [Nat.eqb dropLastQuote].
    destruct tl as [|d tl].
    + destruct (Paste.quote c).
      * exists 0. repeat split; cbn; lia.
      * reflexivity.
    + assert (Hm : (if Paste.quote c then None else None) = @None pos)
        by now destruct (Paste.quote c).
      rewrite Hm. specialize (IH (S i)).
      destruct (exec Paste.quoteRe (S (S i)) (d :: tl)) as [[st e]|].
      * destruct IH as [k [-> [Hk [He Hr]]]]. exists (S k).
        repeat split; try assumption; [lia|]. cbn [firstn]. now rewrite Hk.
      * now rewrite IH.
Qed.

Lemma removeFrom_tail (fuel i : nat) (s : jsstring) :
  Paste.removeFrom (S fuel) Paste.quoteRe (S i) s = dropLastQuote s.
Proof.
  cbn [Paste.removeFrom]. pose proof (exec_quote_tail s i) as H.
  destruct (exec Paste.quoteRe (S i) s) as [[st e]|]; [|now rewrite H].
  destruct H as [k [-> [Hk [He Hr]]]]. cbv zeta.
  replace (S i + k - S i) with k by lia. rewrite Hk, He, Hr.
  replace (Nat.eqb (S (S i + k)) (S i + k)) with false
    by (symmetry; apply Nat.eqb_neq; lia).
  rewrite removeFrom_nil. apply app_nil_r.
Qed.

(** X28. The quotes handlePaste removes from a pasted text: the regular
    expression with its two alternatives and the global flag cuts a
    quote that is the first character and a quote that is the last of
    the characters after the first, and nothing else; quotes inside the
    text stay, and so does a closing quote that is followed by a line
    break. *)
Theorem X28_handlePaste_quotes (s : jsstring) :
  Paste.replaceAllWithEmpty Paste.quoteRe s = stripQuotes s.
Proof.
  unfold Paste.replaceAllWithEmpty. destruct s as [|c tl]; [reflexivity|].
  cbn [length Nat.add]. rewrite Nat.add_1_r.
  cbn [Paste.removeFrom exec]. rewrite quoteRe_at. cbn [Nat.eqb stripQuotes].
  destruct (Paste.quote c).
  - cbv zeta. cbn [idx rest Nat.sub firstn skipn Nat.eqb app].
    apply removeFrom_tail.
  - pose proof (exec_quote_tail tl 0) as H.
    destruct (exec Paste.quoteRe 1 tl) as [[st e]|].
    + destruct H as [k [-> [Hk [He Hr]]]]. cbv zeta.
      replace (1 + k - 0) with (S k) by lia. cbn [firstn app].
      rewrite Hk, He, Hr.
      replace (Nat.eqb (S (1 + k)) (1 + k)) with false
        by (symmetry; apply Nat.eqb_neq; lia).
      destruct (length tl); cbn; now rewrite app_nil_r.
    + cbn [app]. now rewrite H.
Qed.

(** ** The application search and the query it was made for *)

(** X29. searchApplications never leaves results of another query.
    Whatever the cache holds and however the backend calls turn out, it
    first empties the application results; a non-empty list it sets
    afterwards belongs to a query that is not blank and, trimmed, equal
    to the current query, and it is the result of the front-end search
    over the cache or the list the backend search returned; and the
    backend is scanned only when both the cache and the apps state are
    empty. *)
Theorem X29_searchApplications_stale_guard
  (toLowerCase : jsstring -> jsstring) (containsChinese : jsstring -> bool)
  (filterWindowsApps : list SearchUtils.AppInfo -> list SearchUtils.AppInfo)
  (q : jsstring) (d : SearchUtils.AppDeps) (scanned found : SearchUtils.Outcome) :
  let r := SearchUtils.searchApplications toLowerCase containsChinese
             filterWindowsApps q d scanned found in
  (exists more, snd r = SearchUtils.SetFilteredApps [] :: more)
  /\ (forall l, In (SearchUtils.SetFilteredApps l) (snd r) -> l <> [] ->
        blank q = false
        /\ trim (SearchUtils.currentQuery d) = trim q
        /\ (l = SearchUtils.searchApplicationsFrontend toLowerCase
                  containsChinese q (SearchUtils.allAppsCacheRef (fst r))
            \/ found = Some l))
  /\ (In SearchUtils.ScanApplications (snd r) ->
      (SearchUtils.allAppsCacheLoadedRef d = false
       \/ SearchUtils.allAppsCacheRef d = [])
      /\ SearchUtils.apps d = []).
Proof.
  cbv zeta.
  assert (Hc : forall d' l,
             In (SearchUtils.SetFilteredApps l)
                (SearchUtils.searchInCache toLowerCase containsChinese q d') ->
             l <> [] ->
             trim (SearchUtils.currentQuery d') = trim q
             /\ l = SearchUtils.searchApplicationsFrontend toLowerCase
                      containsChinese q (SearchUtils.allAppsCacheRef d')).
  { intros d' l Hin Hl. unfold SearchUtils.searchInCache in Hin.
    cbv zeta in Hin.
    destruct (eqb (trim (SearchUtils.currentQuery d')) (trim q)) eqn:E.
    - apply eqb_true_iff in E. destruct Hin as [Hin|Hin].
      + injection Hin as <-. now split.
      + destruct (Nat.ltb 0 _); [|destruct Hin].
        destruct Hin as [Hin|[]]. discriminate.
    - destruct Hin as [Hin|[]]. injection Hin as <-. now destruct Hl. }
  assert (Hs : forall d',
             ~ In SearchUtils.ScanApplications
                  (SearchUtils.searchInCache toLowerCase containsChinese q d')).
  { intros d'. unfold SearchUtils.searchInCache. cbv zeta.
    destruct (eqb _ _); [destruct (Nat.ltb 0 _)|]; cbn; intuition discriminate. }
  unfold SearchUtils.searchApplications. cbv zeta.
  assert (Hb : (match q with [] => true | _ => false end || eqb (trim q) [])
               = blank q).
  { unfold blank. destruct q; reflexivity. }
  rewrite Hb. clear Hb.
  destruct (blank q) eqn:Eb.
  { cbn. split; [now eexists|]. split.
    - intros l [H|[]] Hl. injection H as <-. now destruct Hl.
    - intros [H|[]]. discriminate. }
  destruct (negb (SearchUtils.allAppsCacheLoadedRef d)
            || Nat.eqb (length (SearchUtils.allAppsCacheRef d)) 0) eqn:Em.
  - assert (Hmiss : SearchUtils.allAppsCacheLoadedRef d = false
                    \/ SearchUtils.allAppsCacheRef d = []).
    { apply orb_true_iff in Em. destruct Em as [Em|Em].
      - left. now apply negb_true_iff in Em.
      - right. apply Nat.eqb_eq in Em. now apply length_zero_iff_nil in Em. }
    destruct (Nat.ltb 0 (length (SearchUtils.apps d))) eqn:Ea.
    + cbn [fst snd app]. split; [now eexists|]. split.
      * intros l [H|H] Hl; [injection H as <-; now destruct Hl|].
        destruct (Hc _ l H Hl) as [H1 H2]. now repeat split; [|left].
      * intros [H|H]; [discriminate | now apply Hs in H].
    + assert (Hnone : SearchUtils.apps d = []).
      { apply Nat.ltb_ge in Ea. apply length_zero_iff_nil. lia. }
      destruct scanned as [allApps|].
      * cbn [fst snd app]. split; [now eexists|]. split.
        -- intros l [H|[H|[H|H]]] Hl; try discriminate;
             [injection H as <-; now destruct Hl|].
           destruct (Hc _ l H Hl) as [H1 H2]. now repeat split; [|left].
        -- intros _. now split.
      * cbn [fst snd app]. split; [now eexists|]. split.
        -- intros l [H|[H|[H|H]]] Hl; try discriminate;
             [injection H as <-; now destruct Hl|].
           destruct found as [results|].
           ++ destruct (eqb (trim (SearchUtils.currentQuery d)) (trim q)) eqn:E;
                destruct H as [H|[]]; injection H as <-;
                [|now destruct Hl].
              apply eqb_true_iff in E. now repeat split; [|right].
           ++ destruct H as [H|[]]. injection H as <-. now destruct Hl.
        -- intros _. now split.
  - cbn [fst snd app]. split; [now eexists|]. split.
    + intros l [H|H] Hl; [injection H as <-; now destruct Hl|].
      destruct (Hc _ l H Hl) as [H1 H2]. now repeat split; [|left].
    + intros [H|H]; [discriminate | now apply Hs in H].
Qed.
